(** * aice_ps: the image-editing service client (services/geminiService)

    A shallow embedding of the request / response / retry protocol of the
    service module, and the properties its specification states about it.

    Conventions of the embedding.
    - A JavaScript string is a [string] holding its UTF-8 bytes.  Substring
      search and prefix tests on UTF-8 agree with the same tests on the
      code units of well-formed strings.
    - A promise is the value it settles to: [Ok v] when it fulfils,
      [Throw t] when it rejects.  [await] is [bind].
    - What the browser and the SDK supply (file reading, image decoding,
      the canvas, number formatting, the remote service) is a field of
      [Host] or [World]; nothing is assumed about them beyond their types. *)

From Stdlib Require Import String Ascii List NArith ZArith Lia Bool.
From Stdlib Require Import DecimalString.
From stdpp Require Import base list strings sorting.

Set Warnings "-register-all".
Open Scope string_scope.

(** String append computes under [simpl] here. *)
#[global] Arguments String.append !s1 s2.

(** ** Strings *)

(** The double quote, which the string notation cannot hold directly. *)
Definition dquote : string := String "034"%char EmptyString.

(** [s.startsWith(p)]. *)
Fixpoint startsWith (s p : string) : bool :=
  match p, s with
  | EmptyString, _ => true
  | String _ _, EmptyString => false
  | String a p', String b s' => if Ascii.eqb a b then startsWith s' p' else false
  end.

(** [s.includes(needle)]. *)
Fixpoint includes (s needle : string) : bool :=
  if startsWith s needle then true
  else match s with
       | EmptyString => false
       | String _ s' => includes s' needle
       end.

(** [s.split(c)] for a one-character separator. *)
Fixpoint split_on (c : ascii) (s : string) : list string :=
  match s with
  | EmptyString => [EmptyString]
  | String a s' =>
      if Ascii.eqb a c then EmptyString :: split_on c s'
      else match split_on c s' with
           | [] => [String a EmptyString]
           | w :: ws => String a w :: ws
           end
  end.

(** [pieces.join(sep)]. *)
Fixpoint join (sep : string) (pieces : list string) : string :=
  match pieces with
  | [] => EmptyString
  | [w] => w
  | w :: ws => w ++ sep ++ join sep ws
  end.

(** The decimal numeral of a natural number: what a template literal
    prints for a non-negative integer below 2^53. *)
Definition decimal (n : N) : string := NilEmpty.string_of_uint (N.to_uint n).

Definition is_digit (c : ascii) : bool :=
  let n := N_of_ascii c in ((48 <=? n) && (n <=? 57))%N.

(** The class [\w] of a regular expression without the unicode flag. *)
Definition is_word (c : ascii) : bool :=
  let n := N_of_ascii c in
  (((48 <=? n) && (n <=? 57)) || ((65 <=? n) && (n <=? 90))
   || ((97 <=? n) && (n <=? 122)) || (n =? 95))%N.

(** A template literal prints [null] and [undefined] by name. *)
Definition tpl_null (o : option string) : string :=
  match o with Some s => s | None => "null" end.

Definition tpl_undefined (o : option string) : string :=
  match o with Some s => s | None => "undefined" end.

(** ** JSON values and [JSON.parse] *)

Module Json.

(** A number keeps its exact decimal value [(-1)^neg * mant * 10^exp10];
    the double it denotes is that value rounded. *)
Record number := Number { neg : bool; mant : N; exp10 : Z }.

(** Members of an object are kept in source order, duplicates included. *)
Inductive value :=
| Null
| Bool (b : bool)
| Num (n : number)
| Str (s : string)
| Arr (elems : list value)
| Obj (members : list (string * value)).

(** *** The parser: one pass over the characters

    The parser is a push-down automaton that consumes one byte at a time.
    A [frame] is a container under construction (contents in reverse). *)
Inductive frame :=
| FArr (done : list value)
| FObj (done : list (string * value)) (key : option string).

(** What the grammar allows next, between two tokens. *)
Inductive expect :=
| EValue        (* a value *)
| EFirstElem    (* just after [: a value or ] *)
| EFirstKey     (* just after {: a key or } *)
| EKey          (* after a comma inside an object: a key *)
| EColon        (* after a key *)
| EAfter        (* after a value inside a container: a comma or the closer *)
| EDone (v : value).  (* the top-level value is complete *)

(** Where the scanner stands inside a string literal. *)
Inductive strpos :=
| SPlain
| SEsc
| SHex (more : nat) (acc : N).

(** Where the scanner stands inside a number literal. *)
Inductive numpos :=
| NMinus | NZero | NInt | NDot | NFrac | NExp | NExpSign | NExpDigits.

Record numacc := NumAcc {
  n_pos : numpos;
  n_neg : bool;
  n_mant : N;        (* all digits read so far, as one integer *)
  n_scale : Z;       (* how many of them came after the point *)
  n_eneg : bool;
  n_e : N            (* the digits of the exponent *)
}.

Inductive scan :=
| Between
| InStr (iskey : bool) (acc : list ascii) (high : option N) (p : strpos)
| InNum (n : numacc)
| InLit (rest : string) (v : value).

Record config := Config { stack : list frame; want : expect; mode : scan }.

Definition is_ws (c : ascii) : bool :=
  let n := N_of_ascii c in ((n =? 32) || (n =? 9) || (n =? 10) || (n =? 13))%N.

Definition hex_val (c : ascii) : option N :=
  let n := N_of_ascii c in
  if ((48 <=? n) && (n <=? 57))%N then Some (n - 48)%N
  else if ((65 <=? n) && (n <=? 70))%N then Some (n - 55)%N
  else if ((97 <=? n) && (n <=? 102))%N then Some (n - 87)%N
  else None.

Definition byte (n : N) : ascii := ascii_of_N n.

(** UTF-8 bytes of a code point, last byte first (the accumulator of a
    string literal is reversed).  A lone surrogate is written as the three
    bytes its value would take. *)
Definition utf8_rev (cp : N) : list ascii :=
  if (cp <? 128)%N then [byte cp]
  else if (cp <? 2048)%N then
    [byte (128 + cp mod 64); byte (192 + cp / 64)]
  else if (cp <? 65536)%N then
    [byte (128 + cp mod 64); byte (128 + (cp / 64) mod 64); byte (224 + cp / 4096)]
  else
    [byte (128 + cp mod 64); byte (128 + (cp / 64) mod 64);
     byte (128 + (cp / 4096) mod 64); byte (240 + cp / 262144)].

Definition is_high (u : N) : bool := ((55296 <=? u) && (u <=? 56319))%N.
Definition is_low (u : N) : bool := ((56320 <=? u) && (u <=? 57343))%N.

(** A pending high surrogate that turns out to be unpaired is written out. *)
Definition flush (high : option N) (acc : list ascii) : list ascii :=
  match high with
  | Some h => (utf8_rev h ++ acc)%list
  | None => acc
  end.

(** A [\uXXXX] escape delivers the code unit [u]. *)
Definition push_unit (u : N) (high : option N) (acc : list ascii)
  : list ascii * option N :=
  match high with
  | Some h =>
      if is_low u then
        ((utf8_rev (65536 + (h - 55296) * 1024 + (u - 56320))%N ++ acc)%list, None)
      else if is_high u then ((utf8_rev h ++ acc)%list, Some u)
      else ((utf8_rev u ++ utf8_rev h ++ acc)%list, None)
  | None =>
      if is_high u then (acc, Some u) else ((utf8_rev u ++ acc)%list, None)
  end.

(** A finished value goes into the container on top of the stack, or
    becomes the result when the stack is empty. *)
Definition complete (stk : list frame) (v : value) : option config :=
  match stk with
  | [] => Some (Config [] (EDone v) Between)
  | FArr done :: stk' => Some (Config (FArr (v :: done) :: stk') EAfter Between)
  | FObj done (Some k) :: stk' =>
      Some (Config (FObj ((k, v) :: done) None :: stk') EAfter Between)
  | FObj _ None :: _ => None
  end.

Definition number_of (a : numacc) : number :=
  let e := if n_eneg a then (- Z.of_N (n_e a))%Z else Z.of_N (n_e a) in
  Number (n_neg a) (n_mant a) (e - n_scale a)%Z.

(** The literal may end here. *)
Definition num_final (p : numpos) : bool :=
  match p with
  | NZero | NInt | NFrac | NExpDigits => true
  | _ => false
  end.

Definition digit_val (c : ascii) : N := (N_of_ascii c - 48)%N.

(** One more character of a number literal, when it belongs to it. *)
Definition num_step (a : numacc) (c : ascii) : option numacc :=
  let mant_digit pos scale :=
    Some (NumAcc pos (n_neg a) (n_mant a * 10 + digit_val c)%N scale (n_eneg a) (n_e a)) in
  let exp_digit :=
    Some (NumAcc NExpDigits (n_neg a) (n_mant a) (n_scale a) (n_eneg a)
            (n_e a * 10 + digit_val c)%N) in
  let goto pos := Some (NumAcc pos (n_neg a) (n_mant a) (n_scale a) (n_eneg a) (n_e a)) in
  let is_e := (Ascii.eqb c "e" || Ascii.eqb c "E")%bool in
  match n_pos a with
  | NMinus =>
      if Ascii.eqb c "0" then goto NZero
      else if is_digit c then mant_digit NInt (n_scale a)
      else None
  | NZero =>
      if Ascii.eqb c "." then goto NDot
      else if is_e then goto NExp
      else None
  | NInt =>
      if is_digit c then mant_digit NInt (n_scale a)
      else if Ascii.eqb c "." then goto NDot
      else if is_e then goto NExp
      else None
  | NDot =>
      if is_digit c then mant_digit NFrac (n_scale a + 1)%Z else None
  | NFrac =>
      if is_digit c then mant_digit NFrac (n_scale a + 1)%Z
      else if is_e then goto NExp
      else None
  | NExp =>
      if Ascii.eqb c "+" then goto NExpSign
      else if Ascii.eqb c "-" then
        Some (NumAcc NExpSign (n_neg a) (n_mant a) (n_scale a) true (n_e a))
      else if is_digit c then exp_digit
      else None
  | NExpSign | NExpDigits =>
      if is_digit c then exp_digit else None
  end.

(** A character met between two tokens. *)
Definition token_step (stk : list frame) (w : expect) (c : ascii) : option config :=
  if is_ws c then Some (Config stk w Between)
  else
    let start_value :=
      if Ascii.eqb c "034" then Some (Config stk w (InStr false [] None SPlain))
      else if Ascii.eqb c "-" then
        Some (Config stk w (InNum (NumAcc NMinus true 0 0 false 0)))
      else if Ascii.eqb c "0" then
        Some (Config stk w (InNum (NumAcc NZero false 0 0 false 0)))
      else if is_digit c then
        Some (Config stk w (InNum (NumAcc NInt false (digit_val c) 0 false 0)))
      else if Ascii.eqb c "t" then Some (Config stk w (InLit "rue" (Bool true)))
      else if Ascii.eqb c "f" then Some (Config stk w (InLit "alse" (Bool false)))
      else if Ascii.eqb c "n" then Some (Config stk w (InLit "ull" Null))
      else if Ascii.eqb c "[" then Some (Config (FArr [] :: stk) EFirstElem Between)
      else if Ascii.eqb c "{" then Some (Config (FObj [] None :: stk) EFirstKey Between)
      else None in
    let start_key :=
      if Ascii.eqb c "034" then Some (Config stk w (InStr true [] None SPlain))
      else None in
    let close_arr :=
      match stk with
      | FArr done :: stk' => complete stk' (Arr (rev done))
      | _ => None
      end in
    let close_obj :=
      match stk with
      | FObj done None :: stk' => complete stk' (Obj (rev done))
      | _ => None
      end in
    match w with
    | EValue => start_value
    | EFirstElem => if Ascii.eqb c "]" then close_arr else start_value
    | EFirstKey => if Ascii.eqb c "}" then close_obj else start_key
    | EKey => start_key
    | EColon => if Ascii.eqb c ":" then Some (Config stk EValue Between) else None
    | EAfter =>
        match stk with
        | FArr _ :: _ =>
            if Ascii.eqb c "," then Some (Config stk EValue Between)
            else if Ascii.eqb c "]" then close_arr else None
        | FObj _ _ :: _ =>
            if Ascii.eqb c "," then Some (Config stk EKey Between)
            else if Ascii.eqb c "}" then close_obj else None
        | [] => None
        end
    | EDone _ => None
    end.

(** The closing quote of a string literal. *)
Definition end_string (stk : list frame) (iskey : bool) (acc : list ascii)
  : option config :=
  let s := string_of_list_ascii (rev acc) in
  if iskey then
    match stk with
    | FObj done None :: stk' => Some (Config (FObj done (Some s) :: stk') EColon Between)
    | _ => None
    end
  else complete stk (Str s).

(** A character met inside a string literal. *)
Definition string_step (stk : list frame) (w : expect) (iskey : bool)
    (acc : list ascii) (high : option N) (p : strpos) (c : ascii) : option config :=
  let continue acc' high' p' := Some (Config stk w (InStr iskey acc' high' p')) in
  match p with
  | SPlain =>
      if Ascii.eqb c "034" then end_string stk iskey (flush high acc)
      else if Ascii.eqb c "\" then continue acc high SEsc
      else if (N_of_ascii c <? 32)%N then None
      else continue (c :: flush high acc) None SPlain
  | SEsc =>
      let plain b := continue (b :: flush high acc) None SPlain in
      if Ascii.eqb c "u" then continue acc high (SHex 4 0%N)
      else if Ascii.eqb c "034" then plain c
      else if Ascii.eqb c "\" then plain c
      else if Ascii.eqb c "/" then plain c
      else if Ascii.eqb c "b" then plain (byte 8)
      else if Ascii.eqb c "f" then plain (byte 12)
      else if Ascii.eqb c "n" then plain (byte 10)
      else if Ascii.eqb c "r" then plain (byte 13)
      else if Ascii.eqb c "t" then plain (byte 9)
      else None
  | SHex more u =>
      match hex_val c with
      | None => None
      | Some d =>
          let u' := (u * 16 + d)%N in
          match more with
          | S (S more') => continue acc high (SHex (S more') u')
          | _ => let '(acc', high') := push_unit u' high acc in
                 continue acc' high' SPlain
          end
      end
  end.

(** One character. *)
Definition step (cfg : config) (c : ascii) : option config :=
  match mode cfg with
  | Between => token_step (stack cfg) (want cfg) c
  | InStr iskey acc high p => string_step (stack cfg) (want cfg) iskey acc high p c
  | InLit rest v =>
      match rest with
      | String a EmptyString =>
          if Ascii.eqb a c then complete (stack cfg) v else None
      | String a rest' =>
          if Ascii.eqb a c then Some (Config (stack cfg) (want cfg) (InLit rest' v))
          else None
      | EmptyString => None
      end
  | InNum a =>
      match num_step a c with
      | Some a' => Some (Config (stack cfg) (want cfg) (InNum a'))
      | None =>
          (* the literal ends before [c], which is then read as a token *)
          if num_final (n_pos a) then
            match complete (stack cfg) (Num (number_of a)) with
            | Some cfg' => token_step (stack cfg') (want cfg') c
            | None => None
            end
          else None
      end
  end.

Fixpoint run (cfg : config) (s : string) : option config :=
  match s with
  | EmptyString => Some cfg
  | String c s' =>
      match step cfg c with
      | Some cfg' => run cfg' s'
      | None => None
      end
  end.

(** The end of the text. *)
Definition finish (cfg : config) : option value :=
  let cfg' :=
    match mode cfg with
    | InNum a =>
        if num_final (n_pos a) then complete (stack cfg) (Num (number_of a))
        else None
    | Between => Some cfg
    | _ => None
    end in
  match cfg' with
  | Some (Config [] (EDone v) Between) => Some v
  | _ => None
  end.

(** [JSON.parse(text)]: [None] stands for the [SyntaxError] it throws. *)
Definition parse (text : string) : option value :=
  match run (Config [] EValue Between) text with
  | Some cfg => finish cfg
  | None => None
  end.

(** *** Reading a parsed value *)

(** [v.k], or rather [v?.k] with [None] for [undefined]: an own property of
    an object, the last of the duplicates; nothing else has the properties
    read here. *)
Fixpoint lookup_last (k : string) (ms : list (string * value)) : option value :=
  match ms with
  | [] => None
  | (k', v) :: ms' =>
      match lookup_last k ms' with
      | Some v' => Some v'
      | None => if String.eqb k k' then Some v else None
      end
  end.

Definition get (k : string) (v : value) : option value :=
  match v with
  | Obj ms => lookup_last k ms
  | _ => None
  end.

(** The double nearest to a non-zero decimal is zero exactly when the
    decimal is at most 2^-1075, half the least subnormal. *)
Definition is_zero (n : number) : bool :=
  ((mant n =? 0)%N
   || ((exp10 n <? 0)%Z
       && (Z.of_N (mant n) * 2 ^ 1075 <=? 10 ^ (- exp10 n))%Z))%bool.

(** Truthiness. *)
Definition truthy (v : value) : bool :=
  match v with
  | Null => false
  | Bool b => b
  | Num n => negb (is_zero n)
  | Str s => negb (String.eqb s EmptyString)
  | Arr _ | Obj _ => true
  end.

End Json.

(** ** Thrown values, outcomes, the host *)

(** What a [catch] clause can receive: an instance of [Error], whose
    message is a string, or some other object, whose [message] property may
    be missing. *)
Inductive Thrown :=
| ErrorObj (message : string)
| NonError (message : option string).

(** [error.message]. *)
Definition message_of (t : Thrown) : option string :=
  match t with
  | ErrorObj m => Some m
  | NonError m => m
  end.

(** [error instanceof Error]. *)
Definition instanceof_Error (t : Thrown) : bool :=
  match t with
  | ErrorObj _ => true
  | NonError _ => false
  end.

(** How a promise settles, or how a call ends. *)
Inductive Outcome (A : Type) :=
| Ok (a : A)
| Throw (t : Thrown).

Arguments Ok {A} a.
Arguments Throw {A} t.

(** A [File]: its name, its declared type, the pixel size of the image it
    holds, and its bytes. *)
Record File := {
  name : string;
  type : string;
  naturalWidth : N;
  naturalHeight : N;
  content : string
}.

(** How reading a file into an [Image] ends. *)
Inductive LoadStatus :=
| ReadError                 (* reader.onerror *)
| ReadNotString             (* reader.onload with a result that is no string *)
| ImageError (err : string) (* image.onerror; [err] is the event, printed *)
| Loaded.                   (* image.onload *)

(** The browser. *)
Record Host := {
  (** [Number::toString] of the double a JSON number denotes *)
  Number_toString : Json.number -> string;
  (** [FileReader.readAsDataURL] followed by [Image] decoding *)
  load : File -> LoadStatus;
  (** [canvas.getContext('2d')] is not null *)
  getContext2d : bool;
  (** [canvas.toBlob(cb, 'image/png', 0.95)] for a canvas of the given size
      on which the file's image was drawn; [None] for a null blob *)
  toBlob : File -> N -> N -> option string;
  (** the base64 payload of the data URL a [FileReader] yields for the
      file, [reader.result.split(',')[1]]; [None] when the reader fails *)
  base64 : File -> option string
}.

Module JsonRead.
Import Json.

(** [ToString(v)] for a parsed value; [None] stands for the [TypeError] of
    an object that cannot be converted.  An object prints through
    [Object.prototype.toString] unless an own property shadows it (an own
    property of a parsed object is never callable); an array prints its
    elements joined by commas, [null] as the empty string. *)
Fixpoint to_string (fmt : number -> string) (v : value) : option string :=
  match v with
  | Null => Some "null"
  | Bool b => Some (if b then "true" else "false")
  | Num n => Some (fmt n)
  | Str s => Some s
  | Arr elems =>
      let pieces :=
        (fix each (l : list value) : option (list string) :=
           match l with
           | [] => Some []
           | x :: l' =>
               let sx := match x with
                         | Null => Some EmptyString
                         | _ => to_string fmt x
                         end in
               match sx, each l' with
               | Some s, Some ss => Some (s :: ss)
               | _, _ => None
               end
           end) elems in
      match pieces with
      | Some ss => Some (join "," ss)
      | None => None
      end
  | Obj ms =>
      match lookup_last "toString" ms with
      | Some _ => None
      | None => Some "[object Object]"
      end
  end.

End JsonRead.

(** ** ErrorClassifier: [handleApiError] *)

Definition invalid_key_message : string :=
  "API key is invalid. Please check the key you entered in settings.".

Definition network_message : string :=
  "Communication with AI service failed. This may be caused by network issues or an invalid API key.".

(** [`Error occurred during "${action}": ${m}`] *)
Definition during (action m : string) : string :=
  "Error occurred during " ++ dquote ++ action ++ dquote ++ ": " ++ m.

(** [error.message || 'Unknown communication error'] *)
Definition message_or_unknown (error : Thrown) : string :=
  match message_of error with
  | Some m => if String.eqb m EmptyString then "Unknown communication error" else m
  | None => "Unknown communication error"
  end.

(** The body of the [catch] clause: the message was no JSON text. *)
Definition not_json_message (error : Thrown) (message : string) : string :=
  let raw := tpl_undefined (message_of error) in
  if includes raw "API key not valid" then invalid_key_message
  else if includes raw "xhr error" then network_message
  else message.

(** [errorObj?.error?.message] *)
Definition nested_message (errorObj : Json.value) : option Json.value :=
  match Json.get "error" errorObj with
  | Some e => Json.get "message" e
  | None => None
  end.

Definition handleApiError (host : Host) (error : Thrown) (action : string) : Thrown :=
  let message := during action (message_or_unknown error) in
  ErrorObj
    match Json.parse (tpl_undefined (message_of error)) with
    | Some errorObj =>
        match nested_message errorObj with
        | Some m =>
            if Json.truthy m then
              match JsonRead.to_string (Number_toString host) m with
              | Some s => during action s
              | None => not_json_message error message
              end
            else message
        | None => message
        end
    | None => not_json_message error message
    end.

(** ** AssetNormalizer: [resizeImageForApi] *)

Definition SUPPORTED_MIME_TYPES : list string := ["image/jpeg"; "image/png"].
Definition MAX_DIMENSION : N := 2048.

(** [Math.round(a / b)] for natural [a] and positive [b]: the nearest
    integer, a half rounding up.  The double division of the source is
    exact enough for this whenever [a < 2^53] and [b < 2^42]. *)
Definition round_div (a b : N) : N := ((2 * a + b) / (2 * b))%N.

Definition mem_string (s : string) (l : list string) : bool :=
  existsb (String.eqb s) l.

(** [(name.split('.').slice(0, -1).join('.') || 'image') + '.png'] *)
Definition png_name (n : string) : string :=
  let stem := join "." (removelast (split_on "." n)) in
  (if String.eqb stem EmptyString then "image" else stem) ++ ".png".

(** The size of the canvas. *)
Definition target_size (width height : N) : N * N :=
  if ((MAX_DIMENSION <? width) || (MAX_DIMENSION <? height))%N then
    if (height <? width)%N then (MAX_DIMENSION, round_div (height * MAX_DIMENSION) width)
    else (round_div (width * MAX_DIMENSION) height, MAX_DIMENSION)
  else (width, height).

Record Resized := { file : File; mimeType : string }.

Definition resizeImageForApi (host : Host) (f : File) : Outcome Resized :=
  let needsConversion := negb (mem_string (type f) SUPPORTED_MIME_TYPES) in
  match load host f with
  | ReadError => Throw (ErrorObj "Failed to read file.")
  | ReadNotString => Throw (ErrorObj "Failed to read file for processing.")
  | ImageError err => Throw (ErrorObj ("Failed to load image for processing: " ++ err))
  | Loaded =>
      let width := naturalWidth f in
      let height := naturalHeight f in
      let needsResize := ((MAX_DIMENSION <? width) || (MAX_DIMENSION <? height))%N in
      if (negb needsResize && negb needsConversion)%bool then
        Ok {| file := f; mimeType := type f |}
      else if negb (getContext2d host) then
        Throw (ErrorObj "Could not create canvas context.")
      else
        let '(newWidth, newHeight) := target_size width height in
        match toBlob host f newWidth newHeight with
        | None => Throw (ErrorObj "Failed to create blob from canvas.")
        | Some blob =>
            let newFile := {| name := png_name (name f);
                              type := "image/png";
                              naturalWidth := newWidth;
                              naturalHeight := newHeight;
                              content := blob |} in
            Ok {| file := newFile; mimeType := "image/png" |}
        end
  end.

(** ** PartEncoder: request parts *)

Record Blob := { blob_mimeType : string; blob_data : string }.

(** A part of a request or of a response: [{inlineData?, text?}]. *)
Record Part := { inlineData : option Blob; text : option string }.

Definition inline_part (mime data : string) : Part :=
  {| inlineData := Some {| blob_mimeType := mime; blob_data := data |}; text := None |}.

Definition text_part (t : string) : Part :=
  {| inlineData := None; text := Some t |}.

Definition fileToGenerativePart (host : Host) (f : File) : Outcome Part :=
  match resizeImageForApi host f with
  | Throw t => Throw t
  | Ok r =>
      match base64 host (file r) with
      | None => Throw (NonError None)   (* reader.onerror = reject *)
      | Some base64data => Ok (inline_part (mimeType r) base64data)
      end
  end.

(** ** ResponseInterpreter: the shape of a response and its reading *)

Record SafetyRating := { blocked : bool }.

Record Content := { parts : option (list Part) }.

Record Candidate := {
  cand_content : option Content;
  finishReason : option string;
  safetyRatings : option (list SafetyRating)
}.

Record GenerateContentResponse := { candidates : option (list Candidate) }.

Definition refusal_message : string :=
  "Model responded with text instead of an image. The prompt may have been blocked.".

Definition no_result_message : string := "AI did not return a valid result.".

Definition no_image_message : string := "AI 未能返回预期的图片结果。".

(** A string that is neither undefined nor empty. *)
Definition truthy_string (o : option string) : bool :=
  match o with
  | Some s => negb (String.eqb s EmptyString)
  | None => false
  end.

(** [response.candidates?.[0]] *)
Definition first_candidate (response : GenerateContentResponse) : option Candidate :=
  match candidates response with
  | Some (c :: _) => Some c
  | _ => None
  end.

(** The parts of a candidate that passes the structure check: content and
    parts are there and the parts are not empty. *)
Definition usable_parts (candidate : option Candidate) : option (list Part) :=
  match candidate with
  | Some c =>
      match cand_content c with
      | Some ct =>
          match parts ct with
          | Some (p :: ps) => Some (p :: ps)
          | _ => None
          end
      | None => None
      end
  | None => None
  end.

(** The message thrown when the structure check fails. *)
Definition detailedError (candidate : option Candidate) : string :=
  let finish := match candidate with Some c => finishReason c | None => None end in
  let ratings := match candidate with Some c => safetyRatings c | None => None end in
  no_result_message
  ++ (if truthy_string finish then " Reason: " ++ tpl_undefined finish ++ "." else EmptyString)
  ++ (match ratings with
      | Some rs =>
          if existsb blocked rs
          then " The prompt may have been blocked by safety filters."
          else EmptyString
      | None => EmptyString
      end).

(** The loop over the parts: the first one with inline data. *)
Fixpoint first_inline (ps : list Part) : option Blob :=
  match ps with
  | [] => None
  | p :: ps' =>
      match inlineData p with
      | Some b => Some b
      | None => first_inline ps'
      end
  end.

Definition data_url (b : Blob) : string :=
  "data:" ++ blob_mimeType b ++ ";base64," ++ blob_data b.

(** What [callImageEditingModel] does with the response it received. *)
Definition interpretResponse (response : GenerateContentResponse) : Outcome string :=
  let candidate := first_candidate response in
  match usable_parts candidate with
  | None => Throw (ErrorObj (detailedError candidate))
  | Some ps =>
      match first_inline ps with
      | Some b => Ok (data_url b)
      | None =>
          match ps with
          | p :: _ =>
              if truthy_string (text p) then Throw (ErrorObj refusal_message)
              else Throw (ErrorObj no_image_message)
          | [] => Throw (ErrorObj no_image_message)
          end
      end
  end.

(** ** ServiceClient: the world outside *)

(** A request is its [contents.parts]; the model and the configuration
    are constants of the source. *)
Definition Request := list Part.

Inductive Reply :=
| Returns (response : GenerateContentResponse)
| Throws (t : Thrown).

(** The service and the scheduler.  Both may depend on the requests sent
    so far. *)
Record World := {
  (** [getGoogleAI()]: the message of the [Error] it throws, when no key
      is configured or the client cannot be built *)
  getGoogleAI : list Request -> option string;
  (** [ai.models.generateContent] *)
  generateContent : list Request -> Request -> Reply;
  (** when the i-th of several concurrent tasks settles *)
  settles_at : nat -> nat
}.

(** *** Computations that invoke the service

    A computation threads the log of the requests sent to the service and
    ends in an outcome. *)
Definition M (A : Type) : Type := list Request -> Outcome A * list Request.

Definition ret {A} (a : A) : M A := fun log => (Ok a, log).

Definition throw {A} (t : Thrown) : M A := fun log => (Throw t, log).

Definition bind {A B} (m : M A) (k : A -> M B) : M B :=
  fun log =>
    match m log with
    | (Ok a, log') => k a log'
    | (Throw t, log') => (Throw t, log')
    end.

(** [try { m } catch (e) { handler(e) }] *)
Definition try_catch {A} (m : M A) (handler : Thrown -> M A) : M A :=
  fun log =>
    match m log with
    | (Ok a, log') => (Ok a, log')
    | (Throw t, log') => handler t log'
    end.

(** [await] of a promise of the host. *)
Definition await {A} (o : Outcome A) : M A := fun log => (o, log).

Notation "'let!' x ':=' m 'in' k" := (bind m (fun x => k))
  (at level 10, x name, m at level 100, k at level 200).

(** The call of the service proper. *)
Definition invoke (w : World) (request : Request) : M GenerateContentResponse :=
  fun log =>
    match generateContent w log request with
    | Returns response => (Ok response, (log ++ [request])%list)
    | Throws t => (Throw t, (log ++ [request])%list)
    end.

Definition client (w : World) : M unit :=
  fun log =>
    match getGoogleAI w log with
    | Some m => (Throw (ErrorObj m), log)
    | None => (Ok tt, log)
    end.

(** The errors [callImageEditingModel] rethrows as they are. *)
Definition rethrown (e : Thrown) : bool :=
  match e with
  | ErrorObj m =>
      (includes m "Model responded with text"
       || includes m "AI did not return a valid result")%bool
  | NonError _ => false
  end.

Definition callImageEditingModel (host : Host) (w : World)
    (request : list Part) (action : string) : M string :=
  try_catch
    (let! _ := client w in
     let! response := invoke w request in
     await (interpretResponse response))
    (fun e => if rethrown e then throw e else throw (handleApiError host e action)).

(** What a failed attempt ends in: the error as it is, or classified. *)
Definition caught (host : Host) (action : string) (e : Thrown) : Thrown :=
  if rethrown e then e else handleApiError host e action.

(** ** RetryOrchestrator: the operations *)

(** The test every fallback path makes on the error it caught. *)
Definition responded_with_text (error : Thrown) : bool :=
  match error with
  | ErrorObj m => includes m "Model responded with text instead of an image"
  | NonError _ => false
  end.

(** A coordinate, printed: an integer below 2^53 in magnitude. *)
Definition coordinate (z : Z) : string :=
  if (z <? 0)%Z then "-" ++ decimal (Z.abs_N z) else decimal (Z.to_N z).

Definition generateEditedImage (host : Host) (w : World)
    (imageFile : File) (prompt : string) (x y : Z) : M string :=
  let! imagePart := await (fileToGenerativePart host imageFile) in
  let textPart :=
    text_part ("Apply this edit at hotspot (" ++ coordinate x ++ ", "
               ++ coordinate y ++ "): " ++ prompt) in
  callImageEditingModel host w [imagePart; textPart] "retouch".

(** The body shared, word for word, by the filter, style, adjustment and
    texture operations; they differ in the prefix of the primary text and
    in the action label. *)
Definition prefixed_with_fallback (host : Host) (w : World)
    (prefix action : string) (imageFile : File) (prompt : string) : M string :=
  let! imagePart := await (fileToGenerativePart host imageFile) in
  let primaryTextPart := text_part (prefix ++ prompt) in
  try_catch
    (callImageEditingModel host w [imagePart; primaryTextPart] action)
    (fun error =>
       if responded_with_text error then
         let fallbackTextPart := text_part prompt in
         callImageEditingModel host w [imagePart; fallbackTextPart]
           (action ++ " (fallback)")
       else throw error).

Definition generateFilteredImage (host : Host) (w : World) :=
  prefixed_with_fallback host w "Apply this filter: " "filter".

Definition generateStyledImage (host : Host) (w : World) :=
  prefixed_with_fallback host w "Apply this artistic style: " "apply style".

Definition generateAdjustedImage (host : Host) (w : World) :=
  prefixed_with_fallback host w "Apply this adjustment: " "adjustment".

Definition generateTexturedImage (host : Host) (w : World) :=
  prefixed_with_fallback host w "Apply this texture: " "texture".

Definition removeBackgroundImage (host : Host) (w : World) (imageFile : File)
  : M string :=
  let! imagePart := await (fileToGenerativePart host imageFile) in
  let textPart :=
    text_part "Remove the background of this image, leaving only the main subject with a transparent background." in
  callImageEditingModel host w [imagePart; textPart] "background removal".

(** The shape the operations with a second attempt share: a primary call,
    and on an error that passes [responded_with_text] the fallback call,
    when there is one. *)
Definition with_retry (host : Host) (w : World) (primary : list Part)
    (action : string) (fallback : option (list Part * string)) : M string :=
  try_catch
    (callImageEditingModel host w primary action)
    (fun error =>
       if responded_with_text error then
         match fallback with
         | Some (request, action') => callImageEditingModel host w request action'
         | None => throw error
         end
       else throw error).

(** *** Fusion: concurrent preprocessing *)

(** [Promise.all]: the tasks settle in some order; a fulfilled task writes
    its value into the slot of its own position, the first rejection
    rejects the whole. *)
Fixpoint settle {A} (results : list (Outcome A)) (order : list nat)
    (slots : list (option A)) : Outcome (list (option A)) :=
  match order with
  | [] => Ok slots
  | i :: order' =>
      match results !! i with
      | Some (Ok v) => settle results order' (<[i := Some v]> slots)
      | Some (Throw t) => Throw t
      | None => settle results order' slots
      end
  end.

(** The values are read off the slots once every task has settled (no
    slot is empty then, see [settle_all_ok]). *)
Definition promise_all {A} (results : list (Outcome A)) (order : list nat)
  : Outcome (list A) :=
  match settle results order (replicate (length results) None) with
  | Ok slots => Ok (omap id slots)
  | Throw t => Throw t
  end.

(** The slots after task [i] has written its value, when every task
    fulfils with the value at its position in [vs]. *)
Definition written {A} (vs : list A) (slots : list (option A)) (i : nat)
  : list (option A) :=
  match vs !! i with
  | Some v => <[i := Some v]> slots
  | None => slots
  end.

(** The order in which [n] concurrent tasks settle: by their settling
    times, the earlier position first among equals. *)
Definition settles_before (w : World) (i j : nat) : Prop :=
  (settles_at w i <= settles_at w j)%nat.

#[global] Instance settles_before_dec (w : World) (i j : nat)
  : Decision (settles_before w i j) :=
  decide (settles_at w i <= settles_at w j)%nat.

Definition completion_order (w : World) (n : nat) : list nat :=
  merge_sort (settles_before w) (seq 0 n).

(** A source part with its label, [{ ...part, index: index + 1 }]. *)
Record Indexed := { indexed_part : Part; index : N }.

(** [fileToGenerativePart(file).then(part => ({ ...part, index: index + 1 }))] *)
Definition indexed_task (host : Host) (i : nat) (f : File) : Outcome Indexed :=
  match fileToGenerativePart host f with
  | Ok part => Ok {| indexed_part := part; index := N.of_nat i + 1 |}
  | Throw t => Throw t
  end.

(** The prompt of a fusion, built by [forEach] over the source parts. *)
Definition fusion_prompt (sourceImageParts : list Indexed) (prompt : string) : string :=
  fold_left
    (fun fullPrompt part =>
       fullPrompt ++ "Source image " ++ decimal (index part) ++ " is provided. ")
    sourceImageParts
    "Fuse the images. The main image is the one I'm editing. "
  ++ "Instructions: " ++ prompt.

Definition generateFusedImage (host : Host) (w : World)
    (mainImage : File) (sourceImages : list File) (prompt : string) : M string :=
  try_catch
    (let! mainImagePart := await (fileToGenerativePart host mainImage) in
     let! sourceImageParts :=
       await (promise_all (imap (indexed_task host) sourceImages)
                (completion_order w (length sourceImages))) in
     let textPart := text_part (fusion_prompt sourceImageParts prompt) in
     let allParts :=
       (mainImagePart
        :: map (fun p => {| inlineData := inlineData (indexed_part p); text := None |})
             sourceImageParts
        ++ [textPart])%list in
     callImageEditingModel host w allParts "合成")
    (fun e => throw (handleApiError host e "fusion")).

(** *** Decade transform *)

Definition getFallbackPrompt (decade : string) : string :=
  "Create a photograph of the person in this image as if they were living in the "
  ++ decade
  ++ ". The photograph should capture the distinct fashion, hairstyles, and overall atmosphere of that time period. Ensure the final image is a clear photograph that looks authentic to the era.".

(** The pattern [(\d{4}s)] tried at the start of [s]. *)
Definition decade_here (s : string) : option string :=
  match s with
  | String a (String b (String c (String d (String e _)))) =>
      if (is_digit a && is_digit b && is_digit c && is_digit d && Ascii.eqb e "s")%bool
      then Some (String a (String b (String c (String d (String e EmptyString)))))
      else None
  | _ => None
  end.

(** [prompt.match(/(\d{4}s)/)]: the leftmost match, its first group. *)
Fixpoint extractDecade (prompt : string) : option string :=
  match decade_here prompt with
  | Some d => Some d
  | None =>
      match prompt with
      | EmptyString => None
      | String _ rest => extractDecade rest
      end
  end.

(** What is left of [s] after the prefix [p]. *)
Fixpoint strip_prefix (p s : string) : option string :=
  match p, s with
  | EmptyString, _ => Some s
  | String _ _, EmptyString => None
  | String a p', String b s' => if Ascii.eqb a b then strip_prefix p' s' else None
  end.

(** The longest prefix of word characters, and the rest. *)
Fixpoint span_word (s : string) : string * string :=
  match s with
  | EmptyString => (EmptyString, EmptyString)
  | String c s' =>
      if is_word c then let '(w, r) := span_word s' in (String c w, r)
      else (EmptyString, s)
  end.

(** U+2028 and U+2029 in UTF-8. *)
Definition line_separator : string := String "226" (String "128" (String "168" EmptyString)).
Definition paragraph_separator : string := String "226" (String "128" (String "169" EmptyString)).

(** Whether [s] holds a line terminator, which [.] does not match: LF, CR,
    U+2028 or U+2029. *)
Definition has_line_terminator (s : string) : bool :=
  (includes s (String "010" EmptyString) || includes s (String "013" EmptyString)
   || includes s line_separator || includes s paragraph_separator)%bool.

(** [imageDataUrl.match] with the pattern that reads, anchored at both
    ends: [data:], group 1 = [image/] and one or more [\w], [;base64,],
    group 2 = any run of [.] up to the end.  Returns the two groups.  The
    greedy [\w+] must take every word character in front of the semicolon,
    and group 2 the whole rest, which must hold no line terminator. *)
Definition match_data_url (imageDataUrl : string) : option (string * string) :=
  match strip_prefix "data:image/" imageDataUrl with
  | Some rest =>
      let '(w, rest') := span_word rest in
      if String.eqb w EmptyString then None
      else
        match strip_prefix ";base64," rest' with
        | Some payload =>
            if has_line_terminator payload then None
            else Some ("image/" ++ w, payload)
        | None => None
        end
  | None => None
  end.

Definition generateDecadeImage (host : Host) (w : World)
    (imageDataUrl : string) (prompt : string) : M string :=
  match match_data_url imageDataUrl with
  | None => throw (ErrorObj "Invalid image data URL format.")
  | Some (mimeType, base64Data) =>
      let imagePart := inline_part mimeType base64Data in
      try_catch
        (let textPart := text_part prompt in
         callImageEditingModel host w [imagePart; textPart]
           ("generate " ++ tpl_null (extractDecade prompt) ++ " image"))
        (fun error =>
           if responded_with_text error then
             match extractDecade prompt with
             | None => throw error
             | Some decade =>
                 let fallbackPrompt := getFallbackPrompt decade in
                 let fallbackTextPart := text_part fallbackPrompt in
                 callImageEditingModel host w [imagePart; fallbackTextPart]
                   ("generate " ++ decade ++ " image (fallback)")
             end
           else throw error)
  end.

(** The fallback of a decade transform, when the prompt names a decade. *)
Definition decade_fallback (imagePart : Part) (prompt : string)
  : option (list Part * string) :=
  match extractDecade prompt with
  | Some decade =>
      Some ([imagePart; text_part (getFallbackPrompt decade)],
            "generate " ++ decade ++ " image (fallback)")
  | None => None
  end.

(** *** The operations, as one type *)

Inductive Operation :=
| PointEdit (imageFile : File) (prompt : string) (x y : Z)
| Filter (imageFile : File) (prompt : string)
| Adjustment (imageFile : File) (prompt : string)
| Texture (imageFile : File) (prompt : string)
| Style (imageFile : File) (prompt : string)
| BackgroundRemoval (imageFile : File)
| Fusion (mainImage : File) (sourceImages : list File) (prompt : string)
| DecadeTransform (imageDataUrl : string) (prompt : string).

Definition perform (host : Host) (w : World) (op : Operation) : M string :=
  match op with
  | PointEdit f p x y => generateEditedImage host w f p x y
  | Filter f p => generateFilteredImage host w f p
  | Adjustment f p => generateAdjustedImage host w f p
  | Texture f p => generateTexturedImage host w f p
  | Style f p => generateStyledImage host w f p
  | BackgroundRemoval f => removeBackgroundImage host w f
  | Fusion m srcs p => generateFusedImage host w m srcs p
  | DecadeTransform url p => generateDecadeImage host w url p
  end.

(** The requests an operation sends, started with nothing sent. *)
Definition requests_of (host : Host) (w : World) (op : Operation) : list Request :=
  snd (perform host w op []).

Definition result_of (host : Host) (w : World) (op : Operation) : Outcome string :=
  fst (perform host w op []).

(** Whether the source gives the operation a second attempt to fall back
    on, the RetryPlan of the specification. *)
Definition has_fallback (op : Operation) : bool :=
  match op with
  | Filter _ _ | Adjustment _ _ | Texture _ _ | Style _ _ => true
  | DecadeTransform _ p =>
      match extractDecade p with Some _ => true | None => false end
  | PointEdit _ _ _ _ | BackgroundRemoval _ | Fusion _ _ _ => false
  end.

(** The action label of the first attempt of an operation. *)
Definition primary_action (op : Operation) : string :=
  match op with
  | PointEdit _ _ _ _ => "retouch"
  | Filter _ _ => "filter"
  | Adjustment _ _ => "adjustment"
  | Texture _ _ => "texture"
  | Style _ _ => "apply style"
  | BackgroundRemoval _ => "background removal"
  | Fusion _ _ _ => "合成"
  | DecadeTransform _ p => "generate " ++ tpl_null (extractDecade p) ++ " image"
  end.

(** ** The vocabulary of the specification *)

(** [needle] occurs in [s]. *)
Definition Occurs (needle s : string) : Prop :=
  exists before after, s = before ++ needle ++ after.

(** Every character of [s] is a word character. *)
Definition AllWord (s : string) : Prop :=
  forallb is_word (list_ascii_of_string s) = true.

(** No line terminator occurs in [s]. *)
Definition OneLine (s : string) : Prop :=
  ~ Occurs (String "010" EmptyString) s /\ ~ Occurs (String "013" EmptyString) s
  /\ ~ Occurs line_separator s /\ ~ Occurs paragraph_separator s.

(** The text matches the data-URL pattern of the decade transform, with
    the given groups. *)
Definition DataUrlMatch (url mime payload : string) : Prop :=
  exists w,
    w <> EmptyString /\ AllWord w /\ mime = "image/" ++ w
    /\ url = "data:" ++ mime ++ ";base64," ++ payload
    /\ OneLine payload.

(** Four digits and the letter s. *)
Definition DecadeToken (d : string) : Prop :=
  exists a b c e,
    d = String a (String b (String c (String e "s")))
    /\ is_digit a = true /\ is_digit b = true
    /\ is_digit c = true /\ is_digit e = true.

(** [d] is a decade token that starts [n] characters into the prompt. *)
Definition DecadeAt (prompt : string) (n : nat) (d : string) : Prop :=
  exists before after,
    prompt = before ++ d ++ after /\ String.length before = n /\ DecadeToken d.

(** [d] is the first decade token of the prompt, the one the pattern
    finds. *)
Definition LeftmostDecade (prompt d : string) : Prop :=
  exists n, DecadeAt prompt n d /\ forall m d', DecadeAt prompt m d' -> n <= m.

(** The prompt holds no decade token. *)
Definition NoDecade (prompt : string) : Prop :=
  forall n d, ~ DecadeAt prompt n d.

(** The response has no candidate, or its first candidate has no content
    parts. *)
Definition NoContentParts (response : GenerateContentResponse) : Prop :=
  match first_candidate response with
  | None => True
  | Some c =>
      match cand_content c with
      | None => True
      | Some ct => parts ct = None \/ parts ct = Some []
      end
  end.

(** The content parts of the response are [ps], and there is at least
    one. *)
Definition ContentParts (response : GenerateContentResponse) (ps : list Part) : Prop :=
  ps <> [] /\
  exists c ct, first_candidate response = Some c
               /\ cand_content c = Some ct /\ parts ct = Some ps.

(** [b] is the inline data of the first part of [ps] that has any. *)
Definition FirstInline (ps : list Part) (b : Blob) : Prop :=
  exists before p after,
    ps = (before ++ p :: after)%list
    /\ Forall (fun p' => inlineData p' = None) before
    /\ inlineData p = Some b.

(** A refusal: a response with content parts, none of them an image, the
    first of them a text. *)
Definition TextOnly (response : GenerateContentResponse) : Prop :=
  exists p ps t,
    ContentParts response (p :: ps)
    /\ Forall (fun p' => inlineData p' = None) (p :: ps)
    /\ text p = Some t /\ t <> EmptyString.

(** The labels of [n] source images numbered from [i]. *)
Fixpoint labels_from (i : N) (n : nat) : string :=
  match n with
  | O => EmptyString
  | S n' => "Source image " ++ decimal i ++ " is provided. " ++ labels_from (i + 1) n'
  end.

(** The composite instruction of a fusion with [n] source images. *)
Definition fusion_text (n : nat) (prompt : string) : string :=
  "Fuse the images. The main image is the one I'm editing. "
  ++ labels_from 1 n ++ "Instructions: " ++ prompt.

(** A part that is an inline image and nothing else. *)
Definition InlineImage (p : Part) : Prop :=
  exists mime data, p = inline_part mime data.

(** The blob is the file as it is sent: the mime type the normalizer
    reports for it and the base64 text of the normalized file. *)
Definition EncodedImage (host : Host) (f : File) (b : Blob) : Prop :=
  exists out,
    resizeImageForApi host f = Ok out
    /\ blob_mimeType b = mimeType out
    /\ base64 host (file out) = Some (blob_data b).

(** The outcomes of the specification's interpreter, and the
    interpretation as the specification words it: a refusal carries the
    text of the first part. *)
Inductive GenerationOutcome :=
| Success (dataUrl : string)
| Refusal (rawText : string)
| Malformed (detail : string).

Definition spec_interpret (response : GenerateContentResponse) : GenerationOutcome :=
  match usable_parts (first_candidate response) with
  | None => Malformed (detailedError (first_candidate response))
  | Some ps =>
      match first_inline ps with
      | Some b => Success (data_url b)
      | None =>
          match ps with
          | {| text := Some t |} :: _ => Refusal t
          | _ => Malformed no_image_message
          end
      end
  end.

(** The outcome of the code determines the outcome the specification
    describes, a refusal with its text included. *)
Definition InterpreterCarriesText : Prop :=
  exists abs : Outcome string -> GenerationOutcome,
    forall response, abs (interpretResponse response) = spec_interpret response.

(** The operations the specification says are never retried. *)
Definition never_retried (op : Operation) : bool :=
  match op with
  | BackgroundRemoval _ | Fusion _ _ _ => true
  | _ => false
  end.

(** The first attempt of an operation met a refusal: the first request
    was answered, and the answer was text only. *)
Definition FirstYieldsRefusal (host : Host) (w : World) (op : Operation) : Prop :=
  exists request rest response,
    requests_of host w op = request :: rest
    /\ generateContent w [] request = Returns response
    /\ TextOnly response.

(** ** Sample inputs *)

Module Sample.

(** A browser in which every step works; numbers print as a fixed mark
    (no sample holds a number). *)
Definition host : Host := {|
  Number_toString := fun _ => "#";
  load := fun _ => Loaded;
  getContext2d := true;
  toBlob := fun _ _ _ => Some "PNG";
  base64 := fun f => Some (content f)
|}.

Definition photo : File := {|
  name := "holiday.photo.jpg"; type := "image/jpeg";
  naturalWidth := 1600; naturalHeight := 1200; content := "SlBFRw=="
|}.

Definition large_photo : File := {|
  name := "panorama.jpg"; type := "image/jpeg";
  naturalWidth := 4000; naturalHeight := 3000; content := "SlBFRw=="
|}.

Definition webp : File := {|
  name := "sticker.webp"; type := "image/webp";
  naturalWidth := 512; naturalHeight := 512; content := "V0VCUA=="
|}.

Definition response_of (ps : list Part) : GenerateContentResponse :=
  {| candidates :=
       Some [ {| cand_content := Some {| parts := Some ps |};
                 finishReason := None; safetyRatings := None |} ] |}.

Definition text_response (t : string) : GenerateContentResponse :=
  response_of [text_part t].

Definition image_response : GenerateContentResponse :=
  response_of [text_part "Here is your image."; inline_part "image/png" "iVBORw0KGgo="].

(** A service that declines the first request and answers the next. *)
Definition refusing_world : World := {|
  getGoogleAI := fun _ => None;
  generateContent := fun log _ =>
    match log with
    | [] => Returns (text_response "I cannot edit this image.")
    | _ => Returns image_response
    end;
  settles_at := fun i => (10 - i)%nat
|}.

(** A service whose transport fails, with a message that happens to
    quote the refusal text. *)
Definition failing_world : World := {|
  getGoogleAI := fun _ => None;
  generateContent := fun _ _ =>
    Throws (ErrorObj "upstream: Model responded with text instead of an image");
  settles_at := fun i => i
|}.

(** The error text of the scenario: an object with a nested message. *)
Definition nested_key_error : string :=
  "{" ++ dquote ++ "error" ++ dquote ++ ":{" ++ dquote ++ "message" ++ dquote
  ++ ":" ++ dquote ++ "API key not valid" ++ dquote ++ "}}".

End Sample.

(** * The rest of the service module, and its callers *)

(** ** [String.prototype.trim] *)

(** White space and line terminators of one, two and three bytes in
    UTF-8: TAB, LF, VT, FF, CR, SP; U+00A0; U+1680, U+2000 to U+200A,
    U+2028, U+2029, U+202F, U+205F, U+3000, U+FEFF. *)
Definition ws1 (c : ascii) : bool :=
  let n := N_of_ascii c in
  ((n =? 9) || (n =? 10) || (n =? 11) || (n =? 12) || (n =? 13) || (n =? 32))%N.

Definition ws2 (c1 c2 : ascii) : bool :=
  ((N_of_ascii c1 =? 194) && (N_of_ascii c2 =? 160))%N.

Definition ws3 (c1 c2 c3 : ascii) : bool :=
  let a := N_of_ascii c1 in
  let b := N_of_ascii c2 in
  let c := N_of_ascii c3 in
  (((a =? 225) && (b =? 154) && (c =? 128))
   || ((a =? 226) && (b =? 128)
       && (((128 <=? c) && (c <=? 138)) || (c =? 168) || (c =? 169) || (c =? 175)))
   || ((a =? 226) && (b =? 129) && (c =? 159))
   || ((a =? 227) && (b =? 128) && (c =? 128))
   || ((a =? 239) && (b =? 187) && (c =? 191)))%N.

(** The bytes without the leading characters of a class given by its
    one-, two- and three-byte members. *)
Fixpoint drop_class (p1 : ascii -> bool) (p2 : ascii -> ascii -> bool)
    (p3 : ascii -> ascii -> ascii -> bool) (l : list ascii) : list ascii :=
  match l with
  | [] => []
  | c1 :: r1 =>
      if p1 c1 then drop_class p1 p2 p3 r1
      else match r1 with
           | [] => l
           | c2 :: r2 =>
               if p2 c1 c2 then drop_class p1 p2 p3 r2
               else match r2 with
                    | [] => l
                    | c3 :: r3 =>
                        if p3 c1 c2 c3 then drop_class p1 p2 p3 r3 else l
                    end
           end
  end.

(** The bytes without the white space in front. *)
Definition drop_ws : list ascii -> list ascii := drop_class ws1 ws2 ws3.

(** The same on the reversed bytes, for the white space at the end. *)
Definition drop_ws_rev : list ascii -> list ascii :=
  drop_class ws1 (fun c1 c2 => ws2 c2 c1) (fun c1 c2 c3 => ws3 c3 c2 c1).

(** [s.trim()] *)
Definition trim (s : string) : string :=
  string_of_list_ascii
    (rev (drop_ws_rev (rev (drop_ws (list_ascii_of_string s))))).

(** A run of characters of a class. *)
Inductive Run (p1 : ascii -> bool) (p2 : ascii -> ascii -> bool)
    (p3 : ascii -> ascii -> ascii -> bool) : list ascii -> Prop :=
| run_nil : Run p1 p2 p3 []
| run_1 c l : p1 c = true -> Run p1 p2 p3 l -> Run p1 p2 p3 (c :: l)
| run_2 c1 c2 l : p2 c1 c2 = true -> Run p1 p2 p3 l -> Run p1 p2 p3 (c1 :: c2 :: l)
| run_3 c1 c2 c3 l :
    p3 c1 c2 c3 = true -> Run p1 p2 p3 l -> Run p1 p2 p3 (c1 :: c2 :: c3 :: l).

(** A run of white space characters. *)
Definition Blank : list ascii -> Prop := Run ws1 ws2 ws3.

(** The text holds nothing but white space. *)
Definition BlankText (s : string) : Prop := Blank (list_ascii_of_string s).

(** ** ServiceClient: [getApiKey], [getBaseUrl], [getGoogleAI] *)

(** What the module reads its configuration from: [localStorage], whose
    access may throw, and [process.env.API_KEY]. *)
Record Settings := {
  localStorage : option (string -> option string);
  env_API_KEY : option string
}.

(** [localStorage.getItem(key)] inside [try]: a stored text that is
    neither empty nor blank. *)
Definition stored_item (settings : Settings) (key : string) : option string :=
  match localStorage settings with
  | Some getItem =>
      match getItem key with
      | Some v =>
          if (negb (String.eqb v EmptyString)
              && negb (String.eqb (trim v) EmptyString))%bool
          then Some v else None
      | None => None
      end
  | None => None
  end.

Definition getApiKey (settings : Settings) : option string :=
  match stored_item settings "gemini-api-key" with
  | Some userApiKey => Some userApiKey
  | None =>
      (* process.env.API_KEY || null *)
      match env_API_KEY settings with
      | Some k => if String.eqb k EmptyString then None else Some k
      | None => None
      end
  end.

Definition getBaseUrl (settings : Settings) : option string :=
  match stored_item settings "gemini-base-url" with
  | Some userBaseUrl => Some (trim userBaseUrl)
  | None => None
  end.

(** The argument of the constructor of the client. *)
Record ClientConfig := { apiKey : string; apiEndpoint : option string }.

(** A client is known by the configuration it was built from and by the
    rank of its construction. *)
Record Client := { client_config : ClientConfig; serial : nat }.

(** How [new GoogleGenAI(config)] can fail: with an [Error], or with some
    other value, of which [String(e)] is kept. *)
Inductive ConstructorFailure :=
| ThrewError (message : string)
| ThrewOther (printed : string).

(** The variables of the module; [lastUsedBaseUrl] is [null] (outer
    [None]), [undefined] or a text. *)
Record ClientCache := {
  aiInstance : option Client;
  lastUsedApiKey : option string;
  lastUsedBaseUrl : option (option string);
  constructions : nat    (* how often the constructor has been called *)
}.

Definition initial_cache : ClientCache :=
  {| aiInstance := None; lastUsedApiKey := None; lastUsedBaseUrl := None;
     constructions := 0 |}.

Definition api_key_not_found : string :=
  "API key not found. Please enter your key in settings, or ensure the system API key is properly configured in the environment.".

Definition option_string_eqb (a b : option string) : bool :=
  match a, b with
  | Some x, Some y => String.eqb x y
  | None, None => true
  | _, _ => false
  end.

(** [apiKey !== lastUsedApiKey || baseUrl !== lastUsedBaseUrl] *)
Definition settings_changed (cache : ClientCache) (key : string)
    (baseUrl : option string) : bool :=
  (negb (option_string_eqb (Some key) (lastUsedApiKey cache))
   || negb match lastUsedBaseUrl cache with
           | Some last => option_string_eqb baseUrl last
           | None => false
           end)%bool.

(** The configuration built from a key and a base URL; the endpoint is set
    [if (baseUrl)]. *)
Definition config_of (key : string) (baseUrl : option string) : ClientConfig :=
  {| apiKey := key;
     apiEndpoint := match baseUrl with
                    | Some u => if String.eqb u EmptyString then None else Some u
                    | None => None
                    end |}.

Definition failure_text (failure : ConstructorFailure) : string :=
  match failure with
  | ThrewError m => m
  | ThrewOther printed => printed
  end.

(** The body of the re-initialisation. *)
Definition build_client
    (construct : ClientConfig -> nat -> option ConstructorFailure)
    (cache : ClientCache) (key : string) (baseUrl : option string)
  : Outcome Client * ClientCache :=
  let config := config_of key baseUrl in
  match construct config (constructions cache) with
  | None =>
      let c := {| client_config := config; serial := constructions cache |} in
      (Ok c,
       {| aiInstance := Some c; lastUsedApiKey := Some key;
          lastUsedBaseUrl := Some baseUrl;
          constructions := S (constructions cache) |})
  | Some failure =>
      (Throw (ErrorObj ("Failed to initialize AI service: " ++ failure_text failure)),
       {| aiInstance := None; lastUsedApiKey := None; lastUsedBaseUrl := None;
          constructions := S (constructions cache) |})
  end.

(** [getGoogleAI()], with the constructor of the SDK as a parameter: it
    says, for a configuration and the number of constructions so far,
    whether and how the construction fails. *)
Definition getGoogleAI_cached
    (construct : ClientConfig -> nat -> option ConstructorFailure)
    (settings : Settings) (cache : ClientCache) : Outcome Client * ClientCache :=
  match getApiKey settings with
  | None => (Throw (ErrorObj api_key_not_found), cache)
  | Some key =>
      let baseUrl := getBaseUrl settings in
      match aiInstance cache with
      | None => build_client construct cache key baseUrl
      | Some c =>
          if settings_changed cache key baseUrl
          then build_client construct cache key baseUrl
          else (Ok c, cache)
      end
  end.

(** The cache names the settings its client was built from. *)
Definition CacheCoherent (cache : ClientCache) : Prop :=
  match aiInstance cache with
  | Some c =>
      exists key baseUrl,
        lastUsedApiKey cache = Some key
        /\ lastUsedBaseUrl cache = Some baseUrl
        /\ client_config c = config_of key baseUrl
        /\ serial c < constructions cache
  | None => True
  end.

(** A run of calls of [getGoogleAI()], the settings possibly changing in
    between: the outcomes, and the cache at the end. *)
Fixpoint serve (construct : ClientConfig -> nat -> option ConstructorFailure)
    (calls : list Settings) (cache : ClientCache)
  : list (Outcome Client) * ClientCache :=
  match calls with
  | [] => ([], cache)
  | settings :: rest =>
      let '(o, cache1) := getGoogleAI_cached construct settings cache in
      let '(os, cache2) := serve construct rest cache1 in
      (o :: os, cache2)
  end.

(** The key the environment supplies: [process.env.API_KEY || null]. *)
Definition environment_key (settings : Settings) : option string :=
  match env_API_KEY settings with
  | Some k => if String.eqb k EmptyString then None else Some k
  | None => None
  end.

(** What is stored under a name, if the storage can be read. *)
Definition stored (settings : Settings) (key : string) : option string :=
  match localStorage settings with
  | Some getItem => getItem key
  | None => None
  end.

(** ** What the engine words itself: the messages of its errors *)

Record Engine := {
  (** the message of the [TypeError] for reading the given property of
      [undefined] or [null] *)
  type_error : string -> string;
  (** the message of the [SyntaxError] of [JSON.parse] for the given text *)
  syntax_error : string -> string
}.

(** ** [generateImageFromText] *)

Record Image := { imageBytes : option string }.

Record GeneratedImage := { generated_image : option Image }.

Record GenerateImagesResponse := { generatedImages : option (list GeneratedImage) }.

Inductive ImagesReply :=
| ImagesReturned (response : GenerateImagesResponse)
| ImagesThrew (t : Thrown).

(** The image generation service, and the client in front of it. *)
Record ImageService := {
  (** the message of the [Error] [getGoogleAI()] throws, if it throws *)
  image_client : option string;
  (** [ai.models.generateImages] for a prompt and an aspect ratio *)
  generateImages : string -> string -> ImagesReply
}.

Definition no_generated_image_message : string := "AI 未能生成图片。".

(** The [try] block of [generateImageFromText]. *)
Definition generateImageFromText_try (engine : Engine) (service : ImageService)
    (prompt aspectRatio : string) : Outcome string :=
  match image_client service with
  | Some m => Throw (ErrorObj m)
  | None =>
      match generateImages service prompt aspectRatio with
      | ImagesThrew t => Throw t
      | ImagesReturned response =>
          match generatedImages response with
          | Some (first :: _) =>
              match generated_image first with
              | Some img =>
                  Ok ("data:image/png;base64," ++ tpl_undefined (imageBytes img))
              | None => Throw (ErrorObj (type_error engine "imageBytes"))
              end
          | _ => Throw (ErrorObj no_generated_image_message)
          end
      end
  end.

Definition generateImageFromText (host : Host) (engine : Engine)
    (service : ImageService) (prompt aspectRatio : string) : Outcome string :=
  match generateImageFromText_try engine service prompt aspectRatio with
  | Ok url => Ok url
  | Throw e => Throw (handleApiError host e "generate image")
  end.

(** ** [generateCreativeSuggestions] *)

Inductive SuggestionType := SuggestFilter | SuggestAdjustment | SuggestTexture.

Definition suggestion_type_text (t : SuggestionType) : string :=
  match t with
  | SuggestFilter => "filter"
  | SuggestAdjustment => "adjustment"
  | SuggestTexture => "texture"
  end.

Inductive TextReply :=
| TextReturned (response_text : option string)   (* [response.text] *)
| TextThrew (t : Thrown).

Record TextService := {
  text_client : option string;
  generateText : Request -> TextReply
}.

Definition suggestion_prompt (t : SuggestionType) : string :=
  "Analyze this image. Suggest 4 creative and interesting image "
  ++ suggestion_type_text t
  ++ "s that would look good on it. Provide a very short, catchy name (2-4 words, in Chinese) and the corresponding detailed English prompt for each suggestion.".

(** The [try] block: the result is [result.suggestions], [None] for
    [undefined]. *)
Definition generateCreativeSuggestions_try (host : Host) (engine : Engine)
    (service : TextService) (imageFile : File) (t : SuggestionType)
  : Outcome (option Json.value) :=
  match text_client service with
  | Some m => Throw (ErrorObj m)
  | None =>
      match fileToGenerativePart host imageFile with
      | Throw e => Throw e
      | Ok imagePart =>
          match generateText service [imagePart; text_part (suggestion_prompt t)] with
          | TextThrew e => Throw e
          | TextReturned None => Throw (ErrorObj (type_error engine "trim"))
          | TextReturned (Some response_text) =>
              let jsonString := trim response_text in
              match Json.parse jsonString with
              | None => Throw (ErrorObj (syntax_error engine jsonString))
              | Some Json.Null => Throw (ErrorObj (type_error engine "suggestions"))
              | Some result => Ok (Json.get "suggestions" result)
              end
          end
      end
  end.

Definition generateCreativeSuggestions (host : Host) (engine : Engine)
    (service : TextService) (imageFile : File) (t : SuggestionType)
  : Outcome (option Json.value) :=
  match generateCreativeSuggestions_try host engine service imageFile t with
  | Ok suggestions => Ok suggestions
  | Throw e => Throw (handleApiError host e "get inspiration")
  end.

(** ** The fusion panel (components/FusionPanel) *)

Definition MAX_FILE_SIZE_MB : N := 12.
Definition MAX_FILE_SIZE_BYTES : N := MAX_FILE_SIZE_MB * 1024 * 1024.

(** The state of the panel, and the error the panel last reported to its
    owner through [onError]. *)
Record Panel := {
  sourceImageFile1 : option File;
  sourceImageFile2 : option File;
  sourceImageFile3 : option File;
  panel_prompt : string;
  reported_error : string
}.

Definition empty_panel : Panel :=
  {| sourceImageFile1 := None; sourceImageFile2 := None; sourceImageFile3 := None;
     panel_prompt := EmptyString; reported_error := EmptyString |}.

Inductive Slot := Slot1 | Slot2 | Slot3.

Definition slot_file (p : Panel) (s : Slot) : option File :=
  match s with
  | Slot1 => sourceImageFile1 p
  | Slot2 => sourceImageFile2 p
  | Slot3 => sourceImageFile3 p
  end.

(** [setFile] of the uploader of a slot. *)
Definition setFile (s : Slot) (f : option File) (p : Panel) : Panel :=
  match s with
  | Slot1 => {| sourceImageFile1 := f; sourceImageFile2 := sourceImageFile2 p;
                sourceImageFile3 := sourceImageFile3 p;
                panel_prompt := panel_prompt p; reported_error := reported_error p |}
  | Slot2 => {| sourceImageFile1 := sourceImageFile1 p; sourceImageFile2 := f;
                sourceImageFile3 := sourceImageFile3 p;
                panel_prompt := panel_prompt p; reported_error := reported_error p |}
  | Slot3 => {| sourceImageFile1 := sourceImageFile1 p;
                sourceImageFile2 := sourceImageFile2 p; sourceImageFile3 := f;
                panel_prompt := panel_prompt p; reported_error := reported_error p |}
  end.

Definition onError (message : string) (p : Panel) : Panel :=
  {| sourceImageFile1 := sourceImageFile1 p; sourceImageFile2 := sourceImageFile2 p;
     sourceImageFile3 := sourceImageFile3 p;
     panel_prompt := panel_prompt p; reported_error := message |}.

Definition too_large_message : string :=
  "Source image file size cannot exceed " ++ decimal MAX_FILE_SIZE_MB
  ++ "MB. Please select a smaller file.".

(** [handleFileSelect(files)] of the uploader of a slot; [files] is the
    [FileList], [None] for [null]; [size] is [file.size], the number of
    bytes the browser reports for a file. *)
Definition handleFileSelect (size : File -> N) (s : Slot)
    (files : option (list File)) (p : Panel) : Panel :=
  match files with
  | Some (selectedFile :: _) =>
      if (MAX_FILE_SIZE_BYTES <? size selectedFile)%N
      then onError too_large_message p
      else setFile s (Some selectedFile) (onError EmptyString p)
  | _ => p
  end.

Definition handleClearImage (s : Slot) (p : Panel) : Panel := setFile s None p.

Definition setPrompt (text : string) (p : Panel) : Panel :=
  {| sourceImageFile1 := sourceImageFile1 p; sourceImageFile2 := sourceImageFile2 p;
     sourceImageFile3 := sourceImageFile3 p;
     panel_prompt := text; reported_error := reported_error p |}.

(** [[a, b, c].filter(Boolean)] *)
Definition filled (slots : list (option File)) : list File := omap id slots.

(** [handleApply()]: the call of [onApplyFusion] it makes, if any. *)
Definition handleApply (p : Panel) : option (list File * string) :=
  let sourceFiles :=
    filled [sourceImageFile1 p; sourceImageFile2 p; sourceImageFile3 p] in
  if ((0 <? length sourceFiles)%nat
      && negb (String.eqb (trim (panel_prompt p)) EmptyString))%bool
  then Some (sourceFiles, panel_prompt p)
  else None.

(** What the user does to the panel. *)
Inductive PanelEvent :=
| Selects (s : Slot) (files : option (list File))
| Clears (s : Slot)
| Types (text : string).

Definition panel_step (size : File -> N) (p : Panel) (e : PanelEvent) : Panel :=
  match e with
  | Selects s files => handleFileSelect size s files p
  | Clears s => handleClearImage s p
  | Types text => setPrompt text p
  end.

(** ** The start screen (components/StartScreen): [handleGenerate] *)

Record StartState := {
  generationPrompt : string;
  aspectRatio : string;
  isGenerating : bool;
  generationError : option string
}.

(** [e instanceof Error ? e.message : 'Unknown error occurred while
    generating image.'] *)
Definition shown_error (e : Thrown) : string :=
  match e with
  | ErrorObj m => m
  | NonError _ => "Unknown error occurred while generating image."
  end.

(** [handleGenerate()]: the state it leaves, and the data URL it hands to
    [onImageGenerated], if it calls it.  The callback is a property of the
    component: it returns, or it throws the value given; it runs inside the
    [try], so what it throws is caught and shown like a failure of the
    service. *)
Definition handleGenerate (host : Host) (engine : Engine) (service : ImageService)
    (onImageGenerated : string -> option Thrown)
    (st : StartState) : StartState * option string :=
  if String.eqb (trim (generationPrompt st)) EmptyString then
    ({| generationPrompt := generationPrompt st; aspectRatio := aspectRatio st;
        isGenerating := isGenerating st;
        generationError := Some "Please enter a description." |}, None)
  else
    match generateImageFromText host engine service
            (generationPrompt st) (aspectRatio st) with
    | Ok dataUrl =>
        match onImageGenerated dataUrl with
        | None =>
            ({| generationPrompt := generationPrompt st; aspectRatio := aspectRatio st;
                isGenerating := false; generationError := None |}, Some dataUrl)
        | Some e =>
            ({| generationPrompt := generationPrompt st; aspectRatio := aspectRatio st;
                isGenerating := false; generationError := Some (shown_error e) |},
             Some dataUrl)
        end
    | Throw e =>
        ({| generationPrompt := generationPrompt st; aspectRatio := aspectRatio st;
            isGenerating := false; generationError := Some (shown_error e) |}, None)
    end.

(** ** Vocabulary for the further properties *)

(** The three shapes of a classified message. *)
Definition Classified (action m : string) : Prop :=
  m = invalid_key_message \/ m = network_message
  \/ exists detail, m = during action detail.

(** A response with content parts of which none is an image and the first
    has no text, or an empty one. *)
Definition NoImageNoText (response : GenerateContentResponse) : Prop :=
  exists p ps,
    ContentParts response (p :: ps)
    /\ Forall (fun p' => inlineData p' = None) (p :: ps)
    /\ (text p = None \/ text p = Some EmptyString).

(** The character does not occur in the text. *)
Definition lacks (c : ascii) (s : string) : bool :=
  negb (existsb (Ascii.eqb c) (list_ascii_of_string s)).

(** The mime type has the form the data-URL pattern asks for. *)
Definition ImageSubtype (mime : string) : Prop :=
  exists w, mime = "image/" ++ w /\ w <> EmptyString /\ AllWord w.

(** Every file the panel holds is within the size limit, and the error it
    last reported is none or the one about the size. *)
Definition PanelWithinLimit (size : File -> N) (p : Panel) : Prop :=
  (forall s f, slot_file p s = Some f -> (size f <= MAX_FILE_SIZE_BYTES)%N)
  /\ (reported_error p = EmptyString \/ reported_error p = too_large_message).

(** The file an operation on one image works on. *)
Definition edited_file (op : Operation) : option File :=
  match op with
  | PointEdit f _ _ _ | Filter f _ | Adjustment f _ | Texture f _ | Style f _
  | BackgroundRemoval f => Some f
  | Fusion _ _ _ | DecadeTransform _ _ => None
  end.

(** ** More sample inputs *)

Module Fixture.

(** A panorama far wider than high. *)
Definition strip : File := {|
  name := "strip.png"; type := "image/png";
  naturalWidth := 10000; naturalHeight := 2; content := "iVBORw0KGgo="
|}.

(** A browser that yields no blob for a canvas without pixels. *)
Definition strict_host : Host := {|
  Number_toString := fun _ => "#";
  load := fun _ => Loaded;
  getContext2d := true;
  toBlob := fun _ w h => if ((w =? 0) || (h =? 0))%N then None else Some "PNG";
  base64 := fun f => Some (content f)
|}.

Definition engine : Engine := {|
  type_error := fun p => "Cannot read properties of undefined (reading '" ++ p ++ "')";
  syntax_error := fun _ => "Unexpected token in JSON"
|}.

(** A browser that cannot decode WebP. *)
Definition picky_host : Host := {|
  Number_toString := fun _ => "#";
  load := fun f => if String.eqb (type f) "image/webp"
                   then ImageError "[object Event]" else Loaded;
  getContext2d := true;
  toBlob := fun _ _ _ => Some "PNG";
  base64 := fun f => Some (content f)
|}.

(** Settings with a stored key and a stored base URL, both padded. *)
Definition padded_settings : Settings := {|
  localStorage := Some (fun k =>
    if String.eqb k "gemini-api-key" then Some " AIza-user-key "
    else if String.eqb k "gemini-base-url" then Some "  https://proxy.example/v1 "
    else None);
  env_API_KEY := Some "AIza-env-key"
|}.

(** Settings whose stored key is blank. *)
Definition blank_settings : Settings := {|
  localStorage := Some (fun k =>
    if String.eqb k "gemini-api-key" then Some "   " else None);
  env_API_KEY := Some "AIza-env-key"
|}.

(** A constructor that fails the first time and works afterwards. *)
Definition flaky_construct (config : ClientConfig) (n : nat)
  : option ConstructorFailure :=
  match n with
  | O => Some (ThrewError "endpoint unreachable")
  | S _ => None
  end.

(** An image service that returns one image. *)
Definition image_service : ImageService := {|
  image_client := None;
  generateImages := fun _ _ =>
    ImagesReturned
      {| generatedImages :=
           Some [ {| generated_image := Some {| imageBytes := Some "iVBORw0KGgo=" |} |} ] |}
|}.

(** An image service that returns no image. *)
Definition empty_image_service : ImageService := {|
  image_client := None;
  generateImages := fun _ _ => ImagesReturned {| generatedImages := Some [] |}
|}.

(** A text service that answers with an empty JSON array, padded. *)
Definition vague_text_service : TextService := {|
  text_client := None;
  generateText := fun _ => TextReturned (Some "  []  ")
|}.

(** A camera file and a scan; the browser reports 3 MiB for the one and
    20 MiB for the other. *)
Definition photo : File := {|
  name := "photo.jpg"; type := "image/jpeg";
  naturalWidth := 4000; naturalHeight := 3000; content := "/9j/4AAQSkZJRg=="
|}.

Definition scan : File := {|
  name := "scan.png"; type := "image/png";
  naturalWidth := 9000; naturalHeight := 12000; content := "iVBORw0KGgo="
|}.

Definition reported_size (f : File) : N :=
  if String.eqb (name f) "scan.png" then 20 * 1024 * 1024 else 3 * 1024 * 1024.

(** A world in which no key is configured. *)
Definition keyless_world : World := {|
  getGoogleAI := fun _ => Some api_key_not_found;
  generateContent := fun _ _ => Returns Sample.image_response;
  settles_at := fun i => i
|}.

(** A world whose service fails with a given error. *)
Definition throwing_world (e : Thrown) : World := {|
  getGoogleAI := fun _ => None;
  generateContent := fun _ _ => Throws e;
  settles_at := fun i => i
|}.

End Fixture.

(** * Properties *)

(** ** Strings *)

Lemma startsWith_spec (s p : string) :
  startsWith s p = true <-> exists r, s = p ++ r.
Proof.
  revert s. induction p as [|a p IH]; intros s.
  - split; [intros _; exists s; reflexivity | intros _; destruct s; reflexivity].
  - destruct s as [|b s]; simpl.
    + split; [discriminate | intros [r Hr]; discriminate].
    + destruct (Ascii.eqb_spec a b) as [->|Hne].
      * rewrite IH. split; intros [r Hr]; exists r; simpl in *; congruence.
      * split; [discriminate | intros [r Hr]; simpl in Hr; congruence].
Qed.

Lemma includes_unfold (s needle : string) :
  includes s needle =
  if startsWith s needle then true
  else match s with
       | EmptyString => false
       | String _ s' => includes s' needle
       end.
Proof. destruct s; reflexivity. Qed.

Lemma includes_spec (s needle : string) :
  includes s needle = true <-> Occurs needle s.
Proof.
  unfold Occurs. induction s as [|c s IH]; rewrite includes_unfold.
  - destruct (startsWith EmptyString needle) eqn:E.
    + split; [intros _ | reflexivity].
      apply startsWith_spec in E as [r Hr]. exists EmptyString, r. exact Hr.
    + split; [discriminate|]. intros (b & a & H).
      destruct b; [|discriminate]. simpl in H.
      assert (startsWith EmptyString needle = true) as E'
        by (apply startsWith_spec; eauto).
      congruence.
  - destruct (startsWith (String c s) needle) eqn:E.
    + split; [intros _ | reflexivity].
      apply startsWith_spec in E as [r Hr]. exists EmptyString, r. exact Hr.
    + rewrite IH. split.
      * intros (b & a & ->). exists (String c b), a. reflexivity.
      * intros (b & a & H). destruct b as [|c' b]; simpl in H.
        -- assert (startsWith (String c s) needle = true) as E'
             by (apply startsWith_spec; eauto).
           congruence.
        -- injection H as _ ->. eauto.
Qed.

Lemma includes_false (s needle : string) :
  includes s needle = false <-> ~ Occurs needle s.
Proof.
  rewrite <- includes_spec. destruct (includes s needle); split; congruence.
Qed.

Lemma strip_prefix_spec (p s r : string) :
  strip_prefix p s = Some r <-> s = p ++ r.
Proof.
  revert s. induction p as [|a p IH]; intros s; simpl.
  - split; congruence.
  - destruct s as [|b s]; [split; discriminate|].
    destruct (Ascii.eqb_spec a b) as [->|Hne].
    + rewrite IH. split; simpl; congruence.
    + split; [discriminate | simpl; congruence].
Qed.

Lemma strip_prefix_app (p r : string) : strip_prefix p (p ++ r) = Some r.
Proof. apply strip_prefix_spec. reflexivity. Qed.

Lemma append_assoc (a b c : string) : (a ++ b) ++ c = a ++ b ++ c.
Proof. induction a as [|x a IH]; simpl; [reflexivity | rewrite IH; reflexivity]. Qed.

Lemma append_nil_r (a : string) : a ++ EmptyString = a.
Proof. induction a as [|x a IH]; simpl; [reflexivity | rewrite IH; reflexivity]. Qed.

Lemma occurs_prefix_more (needle s t : string) :
  Occurs needle s -> Occurs needle (t ++ s).
Proof.
  intros (b & a & ->). exists (t ++ b), a. rewrite append_assoc. reflexivity.
Qed.

Lemma occurs_shorter (short long s : string) :
  Occurs short long -> Occurs long s -> Occurs short s.
Proof.
  intros (b1 & a1 & ->) (b2 & a2 & ->).
  exists (b2 ++ b1), (a1 ++ a2). rewrite !append_assoc. reflexivity.
Qed.

(** ** AssetNormalizer *)

(** [round_div a b] is an integer nearest to [a / b]. *)
Lemma round_div_nearest (a b : N) :
  (0 < b)%N ->
  (2 * (round_div a b * b) <= 2 * a + b
   /\ 2 * a + b < 2 * (round_div a b * b) + 2 * b)%N.
Proof.
  intros Hb. unfold round_div.
  pose proof (N.div_mod (2 * a + b) (2 * b)) as Hdm.
  pose proof (N.mod_lt (2 * a + b) (2 * b)) as Hlt.
  assert (2 * b <> 0)%N as Hnz by lia.
  specialize (Hdm Hnz). specialize (Hlt Hnz).
  set (q := ((2 * a + b) / (2 * b))%N) in *.
  set (r := ((2 * a + b) mod (2 * b))%N) in *.
  nia.
Qed.

Lemma round_div_within (a b m : N) :
  (0 < b)%N -> (a <= b)%N -> (round_div (a * m) b <= m)%N.
Proof.
  intros Hb Hab. unfold round_div.
  apply N.lt_succ_r. apply N.Div0.div_lt_upper_bound. nia.
Qed.

Lemma mem_supported (t : string) :
  mem_string t SUPPORTED_MIME_TYPES = true <-> t = "image/jpeg" \/ t = "image/png".
Proof.
  unfold mem_string, SUPPORTED_MIME_TYPES. simpl.
  rewrite !orb_true_iff, !String.eqb_eq. intuition discriminate.
Qed.

Lemma target_size_in_bound (width height : N) :
  (width <= 2048)%N -> (height <= 2048)%N ->
  target_size width height = (width, height).
Proof.
  intros Hw Hh. unfold target_size, MAX_DIMENSION.
  destruct (N.ltb_spec 2048 width); [lia|].
  destruct (N.ltb_spec 2048 height); [lia|]. reflexivity.
Qed.

Lemma target_size_wide (width height : N) :
  (2048 < width \/ 2048 < height)%N -> (height < width)%N ->
  target_size width height = (2048%N, round_div (height * 2048) width).
Proof.
  intros Hbig Hwide. unfold target_size, MAX_DIMENSION.
  destruct (N.ltb_spec 2048 width); destruct (N.ltb_spec 2048 height);
    simpl; try lia; destruct (N.ltb_spec height width); try lia; reflexivity.
Qed.

Lemma target_size_tall (width height : N) :
  (2048 < width \/ 2048 < height)%N -> (width <= height)%N ->
  target_size width height = (round_div (width * 2048) height, 2048%N).
Proof.
  intros Hbig Htall. unfold target_size, MAX_DIMENSION.
  destruct (N.ltb_spec 2048 width); destruct (N.ltb_spec 2048 height);
    simpl; try lia; destruct (N.ltb_spec height width); try lia; reflexivity.
Qed.

(** Whenever the image goes through the canvas, and the browser does its
    part, the result is the PNG of a canvas of the target size. *)
Lemma resize_through_canvas (host : Host) (f : File) (blob : string) :
  load host f = Loaded ->
  getContext2d host = true ->
  ((MAX_DIMENSION <? naturalWidth f) || (MAX_DIMENSION <? naturalHeight f))%N = true
  \/ mem_string (type f) SUPPORTED_MIME_TYPES = false ->
  toBlob host f (fst (target_size (naturalWidth f) (naturalHeight f)))
                (snd (target_size (naturalWidth f) (naturalHeight f))) = Some blob ->
  resizeImageForApi host f =
  Ok {| file := {| name := png_name (name f);
                   type := "image/png";
                   naturalWidth := fst (target_size (naturalWidth f) (naturalHeight f));
                   naturalHeight := snd (target_size (naturalWidth f) (naturalHeight f));
                   content := blob |};
        mimeType := "image/png" |}.
Proof.
  intros Hload Hctx Hneed Hblob. unfold resizeImageForApi.
  rewrite Hload, Hctx.
  destruct (target_size (naturalWidth f) (naturalHeight f)) as [nw nh] eqn:Hts.
  simpl in Hblob.
  assert ((negb ((MAX_DIMENSION <? naturalWidth f) || (MAX_DIMENSION <? naturalHeight f))%N
           && negb (negb (mem_string (type f) SUPPORTED_MIME_TYPES)))%bool = false) as ->.
  { destruct Hneed as [-> | ->]; [reflexivity | apply andb_false_r]. }
  simpl. rewrite Hblob. reflexivity.
Qed.

(** C3.  An image of a supported type (image/jpeg or image/png) whose width
    and height are both at most 2048 comes back from the normalizer as the
    very file that went in, with its own mime type: nothing is re-encoded. *)
Theorem C3_supported_within_bound_unchanged (host : Host) (f : File) :
  load host f = Loaded ->
  type f = "image/jpeg" \/ type f = "image/png" ->
  (naturalWidth f <= 2048)%N ->
  (naturalHeight f <= 2048)%N ->
  resizeImageForApi host f = Ok {| file := f; mimeType := type f |}.
Proof.
  intros Hload Htype Hw Hh. unfold resizeImageForApi. rewrite Hload.
  apply mem_supported in Htype. rewrite Htype. unfold MAX_DIMENSION.
  destruct (N.ltb_spec 2048 (naturalWidth f)); [lia|].
  destruct (N.ltb_spec 2048 (naturalHeight f)); [lia|].
  reflexivity.
Qed.

Lemma C3_witness :
  resizeImageForApi Sample.host Sample.photo
  = Ok {| file := Sample.photo; mimeType := "image/jpeg" |}.
Proof.
  apply (C3_supported_within_bound_unchanged Sample.host Sample.photo).
  - reflexivity.
  - left. reflexivity.
  - simpl. lia.
  - simpl. lia.
Defined.

Lemma round_div_zero_iff (a b : N) :
  (0 < b)%N -> (round_div a b = 0%N <-> (2 * a < b)%N).
Proof.
  intros Hb. pose proof (round_div_nearest a b Hb) as [Hlo Hhi].
  split; intros H.
  - rewrite H in Hhi. lia.
  - destruct (N.eq_dec (round_div a b) 0%N) as [|Hne]; [assumption|].
    assert (1 <= round_div a b)%N by lia. nia.
Qed.

(** The statement of C4 does not hold as worded: not every image with a
    side over 2048 gives an output.  A strip of 10000 by 2 pixels gets a
    canvas of 2048 by 0; a browser yields no blob for a canvas without
    pixels, and the normalizer fails. *)
Lemma C4_elongated_image_has_no_output :
  load Fixture.strict_host Fixture.strip = Loaded
  /\ getContext2d Fixture.strict_host = true
  /\ (2048 < naturalWidth Fixture.strip)%N
  /\ target_size (naturalWidth Fixture.strip) (naturalHeight Fixture.strip)
     = (2048%N, 0%N)
  /\ resizeImageForApi Fixture.strict_host Fixture.strip
     = Throw (ErrorObj "Failed to create blob from canvas.")
  /\ ~ exists out, resizeImageForApi Fixture.strict_host Fixture.strip = Ok out.
Proof.
  split; [reflexivity|]. split; [reflexivity|]. split; [reflexivity|].
  split; [reflexivity|]. split; [reflexivity|].
  intros [out Hout]. discriminate Hout.
Qed.

(** C4, amended.  An image whose width or height exceeds 2048, and of whose
    canvas the browser makes a blob, comes back with its longer side at
    exactly 2048 and its shorter side at the original shorter side times
    2048 over the original longer side, rounded to the nearest integer, so
    that the aspect ratio is kept up to that rounding.  The rounded shorter
    side is 0 exactly when the longer side is more than 4096 times the
    shorter; in a browser that makes no blob of a canvas without pixels
    such an image gives no output: the normalizer fails with
    [Failed to create blob from canvas.] *)
Theorem C4_oversize_scaled_to_bound (host : Host) (f : File) :
  load host f = Loaded ->
  getContext2d host = true ->
  (2048 < naturalWidth f \/ 2048 < naturalHeight f)%N ->
  (forall blob,
     toBlob host f (fst (target_size (naturalWidth f) (naturalHeight f)))
                   (snd (target_size (naturalWidth f) (naturalHeight f))) = Some blob ->
     exists out,
       resizeImageForApi host f = Ok out
       /\ N.max (naturalWidth (file out)) (naturalHeight (file out)) = 2048%N
       /\ ((naturalHeight f < naturalWidth f)%N ->
           naturalWidth (file out) = 2048%N
           /\ naturalHeight (file out)
              = round_div (naturalHeight f * 2048) (naturalWidth f))
       /\ ((naturalWidth f <= naturalHeight f)%N ->
           naturalHeight (file out) = 2048%N
           /\ naturalWidth (file out)
              = round_div (naturalWidth f * 2048) (naturalHeight f))
       /\ (2 * Z.abs (Z.of_N (N.min (naturalWidth (file out)) (naturalHeight (file out)))
                      * Z.of_N (N.max (naturalWidth f) (naturalHeight f))
                      - Z.of_N (N.min (naturalWidth f) (naturalHeight f)) * 2048)
           <= Z.of_N (N.max (naturalWidth f) (naturalHeight f)))%Z)
  /\ (N.min (fst (target_size (naturalWidth f) (naturalHeight f)))
            (snd (target_size (naturalWidth f) (naturalHeight f))) = 0%N
      <-> (4096 * N.min (naturalWidth f) (naturalHeight f)
           < N.max (naturalWidth f) (naturalHeight f))%N)
  /\ ((forall w h, (w = 0 \/ h = 0)%N -> toBlob host f w h = None) ->
      (4096 * N.min (naturalWidth f) (naturalHeight f)
       < N.max (naturalWidth f) (naturalHeight f))%N ->
      resizeImageForApi host f = Throw (ErrorObj "Failed to create blob from canvas.")).
Proof.
  intros Hload Hctx Hbig.
  assert (N.min (fst (target_size (naturalWidth f) (naturalHeight f)))
                (snd (target_size (naturalWidth f) (naturalHeight f))) = 0%N
          <-> (4096 * N.min (naturalWidth f) (naturalHeight f)
               < N.max (naturalWidth f) (naturalHeight f))%N) as Hzero.
  { destruct (N.lt_ge_cases (naturalHeight f) (naturalWidth f)) as [Hwide | Htall].
    - rewrite (target_size_wide _ _ Hbig Hwide). simpl fst. simpl snd.
      assert (0 < naturalWidth f)%N as Hpos by lia.
      pose proof (round_div_within (naturalHeight f) (naturalWidth f) 2048 Hpos
                    ltac:(lia)) as Hle.
      pose proof (round_div_zero_iff (naturalHeight f * 2048) (naturalWidth f) Hpos)
        as Hz.
      set (q := round_div (naturalHeight f * 2048) (naturalWidth f)) in *.
      rewrite (N.min_r 2048 q) by lia.
      rewrite (N.max_l (naturalWidth f) (naturalHeight f)) by lia.
      rewrite (N.min_r (naturalWidth f) (naturalHeight f)) by lia.
      rewrite Hz. lia.
    - rewrite (target_size_tall _ _ Hbig Htall). simpl fst. simpl snd.
      assert (0 < naturalHeight f)%N as Hpos by lia.
      pose proof (round_div_within (naturalWidth f) (naturalHeight f) 2048 Hpos Htall)
        as Hle.
      pose proof (round_div_zero_iff (naturalWidth f * 2048) (naturalHeight f) Hpos)
        as Hz.
      set (q := round_div (naturalWidth f * 2048) (naturalHeight f)) in *.
      rewrite (N.min_l q 2048) by lia.
      rewrite (N.max_r (naturalWidth f) (naturalHeight f)) by lia.
      rewrite (N.min_l (naturalWidth f) (naturalHeight f)) by lia.
      rewrite Hz. lia. }
  split; [|split; [exact Hzero|]].
  - intros blob Hblob.
    eexists. split.
    { apply (resize_through_canvas host f blob Hload Hctx); [|exact Hblob].
      left. unfold MAX_DIMENSION. apply orb_true_iff.
      destruct Hbig; [left | right]; apply N.ltb_lt; assumption. }
    simpl.
    destruct (N.lt_ge_cases (naturalHeight f) (naturalWidth f)) as [Hwide | Htall].
    + rewrite (target_size_wide _ _ Hbig Hwide). simpl.
      assert (0 < naturalWidth f)%N as Hpos by lia.
      pose proof (round_div_within (naturalHeight f) (naturalWidth f) 2048 Hpos
                    ltac:(lia)) as Hle.
      pose proof (round_div_nearest (naturalHeight f * 2048) (naturalWidth f) Hpos)
        as [Hlo Hhi].
      set (q := round_div (naturalHeight f * 2048) (naturalWidth f)) in *.
      rewrite (N.max_l 2048 q), (N.min_r 2048 q) by lia.
      rewrite (N.max_l (naturalWidth f) (naturalHeight f)) by lia.
      rewrite (N.min_r (naturalWidth f) (naturalHeight f)) by lia.
      repeat split; lia.
    + rewrite (target_size_tall _ _ Hbig Htall). simpl.
      assert (0 < naturalHeight f)%N as Hpos by lia.
      pose proof (round_div_within (naturalWidth f) (naturalHeight f) 2048 Hpos Htall)
        as Hle.
      pose proof (round_div_nearest (naturalWidth f * 2048) (naturalHeight f) Hpos)
        as [Hlo Hhi].
      set (q := round_div (naturalWidth f * 2048) (naturalHeight f)) in *.
      rewrite (N.max_r q 2048), (N.min_l q 2048) by lia.
      rewrite (N.max_r (naturalWidth f) (naturalHeight f)) by lia.
      rewrite (N.min_l (naturalWidth f) (naturalHeight f)) by lia.
      repeat split; lia.
  - intros Hnull Hlong. apply Hzero in Hlong.
    unfold resizeImageForApi. rewrite Hload, Hctx.
    assert (((MAX_DIMENSION <? naturalWidth f) || (MAX_DIMENSION <? naturalHeight f))%N
            = true) as ->.
    { unfold MAX_DIMENSION. apply orb_true_iff.
      destruct Hbig; [left | right]; apply N.ltb_lt; assumption. }
    cbn [negb andb].
    destruct (target_size (naturalWidth f) (naturalHeight f)) as [nw nh].
    simpl in Hlong. rewrite Hnull; [reflexivity|]. lia.
Qed.

Lemma C4_witness :
  (exists out,
     resizeImageForApi Sample.host Sample.large_photo = Ok out
     /\ naturalWidth (file out) = 2048%N
     /\ naturalHeight (file out) = 1536%N)
  /\ resizeImageForApi Fixture.strict_host
       {| name := "ribbon.jpg"; type := "image/jpeg"; naturalWidth := 3;
          naturalHeight := 20000; content := "SlBFRw==" |}
     = Throw (ErrorObj "Failed to create blob from canvas.").
Proof.
  split.
  - assert (2048 < naturalWidth Sample.large_photo
            \/ 2048 < naturalHeight Sample.large_photo)%N as Hbig
      by (left; reflexivity).
    destruct (C4_oversize_scaled_to_bound Sample.host Sample.large_photo
                eq_refl eq_refl Hbig) as (Hout & _ & _).
    destruct (Hout "PNG" eq_refl) as (out & Hres & _ & Hwide & _).
    exists out. split; [exact Hres|].
    destruct Hwide as [Hw Hh]; [reflexivity|].
    split; [exact Hw | exact Hh].
  - refine (proj2 (proj2 (C4_oversize_scaled_to_bound Fixture.strict_host
                            {| name := "ribbon.jpg"; type := "image/jpeg";
                               naturalWidth := 3; naturalHeight := 20000;
                               content := "SlBFRw==" |}
                            eq_refl eq_refl _)) _ _).
    + right. reflexivity.
    + intros w h [-> | ->]; simpl; [reflexivity|].
      destruct (w =? 0)%N; reflexivity.
    + reflexivity.
Defined.

(** C5.  An image that has to be re-rendered, because its declared type is
    not supported or a side exceeds 2048 or both, is converted: what comes
    back is a new file, of type image/png and reported as image/png, whose
    content is the blob the browser made of the canvas, whose size is the
    size of the canvas and whose name is the old name with the extension
    png.  So it is, in particular, for an image/webp picture within the
    bound. *)
Theorem C5_rerendered_is_png (host : Host) (f : File) (blob : string) :
  load host f = Loaded ->
  getContext2d host = true ->
  (type f <> "image/jpeg" /\ type f <> "image/png")
  \/ (2048 < naturalWidth f)%N \/ (2048 < naturalHeight f)%N ->
  toBlob host f (fst (target_size (naturalWidth f) (naturalHeight f)))
                (snd (target_size (naturalWidth f) (naturalHeight f))) = Some blob ->
  exists out,
    resizeImageForApi host f = Ok out
    /\ mimeType out = "image/png"
    /\ type (file out) = "image/png"
    /\ content (file out) = blob
    /\ name (file out) = png_name (name f)
    /\ (naturalWidth (file out), naturalHeight (file out))
       = target_size (naturalWidth f) (naturalHeight f)
    /\ ((naturalWidth f <= 2048)%N -> (naturalHeight f <= 2048)%N ->
        naturalWidth (file out) = naturalWidth f
        /\ naturalHeight (file out) = naturalHeight f).
Proof.
  intros Hload Hctx Hneed Hblob.
  eexists. split.
  { apply (resize_through_canvas host f blob Hload Hctx); [|exact Hblob].
    destruct Hneed as [[Hj Hp] | Hbig].
    - right. destruct (mem_string (type f) SUPPORTED_MIME_TYPES) eqn:E; [|reflexivity].
      apply mem_supported in E. tauto.
    - left. unfold MAX_DIMENSION. apply orb_true_iff.
      destruct Hbig; [left | right]; apply N.ltb_lt; assumption. }
  cbn [file mimeType type content name naturalWidth naturalHeight].
  split; [reflexivity|]. split; [reflexivity|]. split; [reflexivity|].
  split; [reflexivity|].
  split; [destruct (target_size _ _); reflexivity|].
  intros Hw Hh. rewrite (target_size_in_bound _ _ Hw Hh). split; reflexivity.
Qed.

Lemma C5_witness :
  resizeImageForApi Sample.host Sample.webp
  = Ok {| file := {| name := "sticker.png"; type := "image/png";
                     naturalWidth := 512; naturalHeight := 512; content := "PNG" |};
          mimeType := "image/png" |}.
Proof.
  destruct (C5_rerendered_is_png Sample.host Sample.webp "PNG")
    as (out & Hout & Hmime & Htype & Hcontent & Hname & _ & Hsize).
  - reflexivity.
  - reflexivity.
  - left. split; discriminate.
  - reflexivity.
  - destruct Hsize as [Hw Hh]; [simpl; lia | simpl; lia |].
    rewrite Hout. destruct out as [[n t w h c] m]. simpl in *.
    rewrite Hmime, Htype, Hcontent, Hname, Hw, Hh. reflexivity.
Defined.

(** ** ResponseInterpreter *)

Lemma usable_parts_none (response : GenerateContentResponse) :
  usable_parts (first_candidate response) = None <-> NoContentParts response.
Proof.
  unfold NoContentParts, usable_parts.
  destruct (first_candidate response) as [c|]; [|tauto].
  destruct (cand_content c) as [ct|]; [|tauto].
  destruct (parts ct) as [[|p ps]|]; split; intros H;
    try tauto; try discriminate; destruct H; discriminate.
Qed.

Lemma usable_parts_some (response : GenerateContentResponse) (ps : list Part) :
  usable_parts (first_candidate response) = Some ps <-> ContentParts response ps.
Proof.
  unfold ContentParts, usable_parts. split.
  - destruct (first_candidate response) as [c|]; [|discriminate].
    destruct (cand_content c) as [ct|] eqn:Ec; [|discriminate].
    destruct (parts ct) as [[|p l]|] eqn:Ep; try discriminate.
    intros [= <-]. split; [discriminate|]. exists c, ct. auto.
  - intros (Hne & c & ct & -> & -> & ->).
    destruct ps; [contradiction | reflexivity].
Qed.

Lemma first_inline_some (ps : list Part) (b : Blob) :
  first_inline ps = Some b <-> FirstInline ps b.
Proof.
  unfold FirstInline. induction ps as [|p ps IH]; simpl.
  - split; [discriminate|]. intros (before & q & after & H & _).
    destruct before; discriminate.
  - destruct (inlineData p) as [b'|] eqn:Ep.
    + split.
      * intros [= ->]. exists [], p, ps.
        split; [reflexivity|]. split; [constructor | exact Ep].
      * intros (before & q & after & H & Hall & Hq).
        destruct before as [|p0 before]; simpl in H.
        -- injection H as -> ->. congruence.
        -- injection H as -> ->. inversion Hall; congruence.
    + rewrite IH. split.
      * intros (before & q & after & -> & Hall & Hq).
        exists (p :: before), q, after.
        split; [reflexivity|]. split; [constructor; assumption | exact Hq].
      * intros (before & q & after & H & Hall & Hq).
        destruct before as [|p0 before]; simpl in H.
        -- injection H as -> ->. congruence.
        -- injection H as -> ->. inversion Hall; subst.
           exists before, q, after. auto.
Qed.

Lemma first_inline_none (ps : list Part) :
  first_inline ps = None <-> Forall (fun p => inlineData p = None) ps.
Proof.
  induction ps as [|p ps IH]; simpl.
  - split; auto.
  - destruct (inlineData p) eqn:Ep.
    + split; [discriminate|]. intros H. inversion H; congruence.
    + rewrite IH. split; [auto | intros H; inversion H; auto].
Qed.

(** What the message of a malformed response holds. *)
Lemma detailedError_shape (candidate : option Candidate) :
  exists detail,
    detailedError candidate = no_result_message ++ detail
    /\ (forall c reason,
          candidate = Some c -> finishReason c = Some reason ->
          reason <> EmptyString ->
          Occurs (" Reason: " ++ reason ++ ".") detail)
    /\ (forall c ratings,
          candidate = Some c -> safetyRatings c = Some ratings ->
          Exists (fun r => blocked r = true) ratings ->
          Occurs "blocked by safety filters" detail).
Proof.
  unfold detailedError. eexists. split; [reflexivity|]. split.
  - intros c reason -> -> Hne. simpl.
    destruct (String.eqb_spec reason EmptyString) as [|_]; [contradiction|]. simpl.
    eexists EmptyString, _. simpl. rewrite !append_assoc. reflexivity.
  - intros c ratings -> -> Hex.
    apply occurs_prefix_more.
    assert (existsb blocked ratings = true) as ->.
    { induction Hex as [r rs Hr | r rs _ IH]; simpl;
        [rewrite Hr; reflexivity | rewrite IH; apply orb_true_r]. }
    exists " The prompt may have been ", ".". reflexivity.
Qed.

Lemma text_only_refused (response : GenerateContentResponse) :
  TextOnly response -> interpretResponse response = Throw (ErrorObj refusal_message).
Proof.
  intros (p & ps & t & Hparts & Hnone & Ht & Hne).
  unfold interpretResponse.
  apply usable_parts_some in Hparts. rewrite Hparts.
  apply first_inline_none in Hnone. rewrite Hnone.
  unfold truthy_string. rewrite Ht.
  destruct (String.eqb_spec t EmptyString); [contradiction | reflexivity].
Qed.

Lemma Sample_text_only :
  TextOnly (Sample.text_response "I cannot edit this image.").
Proof.
  exists (text_part "I cannot edit this image."), [], "I cannot edit this image.".
  split; [split; [discriminate | eexists _, _; repeat split; reflexivity]|].
  split; [constructor; [reflexivity | constructor]|].
  split; [reflexivity | discriminate].
Defined.

(** The statement of C2 does not hold as worded: the text of a refusal is
    not in the outcome.  Two text-only responses with different texts end
    in the same error, so no reading of the code's outcome gives back the
    refusal the specification describes.  Nor is a first part whose text
    is empty taken for a refusal. *)
Lemma C2_refusal_text_not_carried :
  ~ InterpreterCarriesText
  /\ interpretResponse (Sample.text_response "I cannot edit this image.")
     = interpretResponse (Sample.text_response "Blocked by policy.")
  /\ interpretResponse (Sample.text_response EmptyString)
     <> interpretResponse (Sample.text_response "Blocked by policy.").
Proof.
  split; [|split].
  - intros [abs Habs].
    pose proof (Habs (Sample.text_response "I cannot edit this image.")) as H1.
    pose proof (Habs (Sample.text_response "Blocked by policy.")) as H2.
    vm_compute in H1, H2. congruence.
  - reflexivity.
  - vm_compute. discriminate.
Qed.

(** C2, amended.  A response is read in this order.  With no candidate, or
    a candidate without content parts, the outcome is the malformed-result
    error, which names the finish reason and mentions the safety filters
    when they are there.  Otherwise, if some part carries inline image
    data, the outcome is the data URL built from the first such part.
    Otherwise, if the first part carries a text that is not empty, the
    outcome is the refusal error, whose message is fixed and does not
    include that text. *)
Theorem C2_interpretation_order (response : GenerateContentResponse) :
  (NoContentParts response ->
   exists detail,
     interpretResponse response = Throw (ErrorObj ("AI did not return a valid result." ++ detail))
     /\ (forall c reason,
           first_candidate response = Some c -> finishReason c = Some reason ->
           reason <> EmptyString -> Occurs (" Reason: " ++ reason ++ ".") detail)
     /\ (forall c ratings,
           first_candidate response = Some c -> safetyRatings c = Some ratings ->
           Exists (fun r => blocked r = true) ratings ->
           Occurs "blocked by safety filters" detail))
  /\ (forall ps b,
        ContentParts response ps -> FirstInline ps b ->
        interpretResponse response
        = Ok ("data:" ++ blob_mimeType b ++ ";base64," ++ blob_data b))
  /\ (forall p ps t,
        ContentParts response (p :: ps) ->
        Forall (fun p' => inlineData p' = None) (p :: ps) ->
        text p = Some t -> t <> EmptyString ->
        interpretResponse response
        = Throw (ErrorObj "Model responded with text instead of an image. The prompt may have been blocked.")).
Proof.
  split; [|split].
  - intros Hno. apply usable_parts_none in Hno.
    destruct (detailedError_shape (first_candidate response)) as (detail & Hd & Hr & Hs).
    exists detail. split; [|split; assumption].
    unfold interpretResponse. rewrite Hno, Hd. reflexivity.
  - intros ps b Hparts Hfirst. unfold interpretResponse.
    apply usable_parts_some in Hparts. rewrite Hparts.
    apply first_inline_some in Hfirst. rewrite Hfirst. reflexivity.
  - intros p ps t Hparts Hnone Ht Hne.
    apply text_only_refused. exists p, ps, t. auto.
Qed.

Lemma C2_witness :
  (exists detail,
     interpretResponse {| candidates := Some [] |}
     = Throw (ErrorObj ("AI did not return a valid result." ++ detail)))
  /\ interpretResponse Sample.image_response = Ok "data:image/png;base64,iVBORw0KGgo="
  /\ interpretResponse (Sample.text_response "I cannot edit this image.")
     = Throw (ErrorObj refusal_message).
Proof.
  destruct (C2_interpretation_order {| candidates := Some [] |}) as (Hnone & _ & _).
  destruct (C2_interpretation_order Sample.image_response) as (_ & Himage & _).
  destruct (C2_interpretation_order (Sample.text_response "I cannot edit this image."))
    as (_ & _ & Htext).
  split; [|split].
  - destruct (Hnone I) as (detail & Hdetail & _). exists detail. exact Hdetail.
  - apply (Himage [text_part "Here is your image."; inline_part "image/png" "iVBORw0KGgo="]
                  {| blob_mimeType := "image/png"; blob_data := "iVBORw0KGgo=" |}).
    + split; [discriminate|]. eexists _, _. repeat split; reflexivity.
    + exists [text_part "Here is your image."], (inline_part "image/png" "iVBORw0KGgo="), [].
      repeat split. constructor; [reflexivity | constructor].
  - apply (Htext (text_part "I cannot edit this image.") [] "I cannot edit this image.").
    + split; [discriminate|]. eexists _, _. repeat split; reflexivity.
    + constructor; [reflexivity | constructor].
    + reflexivity.
    + discriminate.
Defined.

(** ** ErrorClassifier *)

(** The three ways the [catch] clause of [handleApiError] can end. *)
Lemma not_json_message_cases (error : Thrown) (message : string) :
  let raw := tpl_undefined (message_of error) in
  (not_json_message error message = invalid_key_message
   /\ Occurs "API key not valid" raw)
  \/ (not_json_message error message = network_message
      /\ Occurs "xhr error" raw /\ ~ Occurs "API key not valid" raw)
  \/ (not_json_message error message = message
      /\ ~ Occurs "xhr error" raw /\ ~ Occurs "API key not valid" raw).
Proof.
  intros raw. unfold not_json_message. fold raw.
  destruct (includes raw "API key not valid") eqn:Ekey.
  - left. split; [reflexivity | apply includes_spec; exact Ekey].
  - apply includes_false in Ekey.
    destruct (includes raw "xhr error") eqn:Exhr.
    + right; left. split; [reflexivity|]. split; [apply includes_spec; exact Exhr | exact Ekey].
    + right; right. split; [reflexivity|]. split; [apply includes_false; exact Exhr | exact Ekey].
Qed.

Lemma nested_key_error_parsed :
  Json.parse Sample.nested_key_error
  = Some (Json.Obj [("error", Json.Obj [("message", Json.Str "API key not valid")])]).
Proof. vm_compute. reflexivity. Qed.

(** The statement of C7 does not hold as worded: for the error text of the
    scenario the classifier does not answer with the invalid-key message. *)
Lemma C7_nested_key_message_not_rewritten :
  handleApiError Sample.host (ErrorObj Sample.nested_key_error) "retouch"
  <> ErrorObj "API key is invalid. Please check the key you entered in settings.".
Proof. vm_compute. discriminate. Qed.

(** C7, amended.  For a raw error whose message is the literal text of an
    object with the nested message [API key not valid], the classifier
    answers with that nested message after the action label: the message
    the service reported takes precedence, and it is not matched against
    the known patterns.  The invalid-key message is the answer when the raw
    message is not JSON and contains [API key not valid]. *)
Theorem C7_nested_message_embedded (host : Host) (action : string) :
  (forall error,
     message_of error = Some Sample.nested_key_error ->
     handleApiError host error action
     = ErrorObj ("Error occurred during " ++ dquote ++ action ++ dquote
                 ++ ": API key not valid"))
  /\ (forall error,
        Json.parse (tpl_undefined (message_of error)) = None ->
        Occurs "API key not valid" (tpl_undefined (message_of error)) ->
        handleApiError host error action
        = ErrorObj "API key is invalid. Please check the key you entered in settings.").
Proof.
  split.
  - intros error Hmessage. unfold handleApiError, message_or_unknown.
    rewrite Hmessage. simpl tpl_undefined.
    rewrite nested_key_error_parsed. reflexivity.
  - intros error Hparse Hkey. unfold handleApiError. rewrite Hparse.
    unfold not_json_message. apply includes_spec in Hkey. rewrite Hkey. reflexivity.
Qed.

Lemma C7_witness :
  handleApiError Sample.host (ErrorObj Sample.nested_key_error) "retouch"
  = ErrorObj ("Error occurred during " ++ dquote ++ "retouch" ++ dquote
              ++ ": API key not valid")
  /\ handleApiError Sample.host
       (ErrorObj "API key not valid. Please pass a valid API key.") "retouch"
     = ErrorObj invalid_key_message.
Proof.
  split.
  - apply (proj1 (C7_nested_message_embedded Sample.host "retouch")).
    reflexivity.
  - apply (proj2 (C7_nested_message_embedded Sample.host "retouch")).
    + reflexivity.
    + apply includes_spec. reflexivity.
Defined.

(** The statement of C8 does not hold as worded: the invalid-key answer
    does not mention the action at all. *)
Lemma C8_invalid_key_message_has_no_action :
  handleApiError Sample.host (ErrorObj "API key not valid") "retouch"
  = ErrorObj "API key is invalid. Please check the key you entered in settings."
  /\ ~ Occurs "retouch" "API key is invalid. Please check the key you entered in settings.".
Proof.
  split; [vm_compute; reflexivity|].
  apply includes_false. vm_compute. reflexivity.
Qed.

(** C8, amended.  For every raw error and every action label the message
    of the classified error is the action label followed by a message, in
    the form [Error occurred during "<action>": <message>], except in two
    branches that answer with a fixed text without the label: the
    invalid-key branch (raw message containing [API key not valid]) and the
    network branch (raw message containing [xhr error]).  A raw message
    with neither pattern always gets the labelled form. *)
Theorem C8_action_label_embedded (host : Host) (error : Thrown) (action : string) :
  ((exists m,
      handleApiError host error action
      = ErrorObj ("Error occurred during " ++ dquote ++ action ++ dquote ++ ": " ++ m))
   \/ (handleApiError host error action = ErrorObj invalid_key_message
       /\ Occurs "API key not valid" (tpl_undefined (message_of error)))
   \/ (handleApiError host error action = ErrorObj network_message
       /\ Occurs "xhr error" (tpl_undefined (message_of error))))
  /\ (~ Occurs "API key not valid" (tpl_undefined (message_of error)) ->
      ~ Occurs "xhr error" (tpl_undefined (message_of error)) ->
      exists m,
        handleApiError host error action
        = ErrorObj ("Error occurred during " ++ dquote ++ action ++ dquote ++ ": " ++ m)).
Proof.
  assert (forall message,
            message = during action (message_or_unknown error) ->
            (exists m, not_json_message error message = during action m)
            \/ (not_json_message error message = invalid_key_message
                /\ Occurs "API key not valid" (tpl_undefined (message_of error)))
            \/ (not_json_message error message = network_message
                /\ Occurs "xhr error" (tpl_undefined (message_of error)))) as Hcatch.
  { intros message ->.
    destruct (not_json_message_cases error (during action (message_or_unknown error)))
      as [[-> Hk] | [(-> & Hx & _) | (-> & _ & _)]]; eauto. }
  assert ((exists m, handleApiError host error action = ErrorObj (during action m))
          \/ (handleApiError host error action = ErrorObj invalid_key_message
              /\ Occurs "API key not valid" (tpl_undefined (message_of error)))
          \/ (handleApiError host error action = ErrorObj network_message
              /\ Occurs "xhr error" (tpl_undefined (message_of error)))) as Hall.
  { unfold handleApiError.
    destruct (Json.parse (tpl_undefined (message_of error))) as [errorObj|].
    - destruct (nested_message errorObj) as [m|]; [|left; eauto].
      destruct (Json.truthy m); [|left; eauto].
      destruct (JsonRead.to_string (Number_toString host) m) as [s|]; [left; eauto|].
      destruct (Hcatch _ eq_refl) as [[m' ->] | [[-> Hk] | [-> Hx]]]; eauto.
    - destruct (Hcatch _ eq_refl) as [[m' ->] | [[-> Hk] | [-> Hx]]]; eauto. }
  split; [exact Hall|].
  intros Hnokey Hnoxhr.
  destruct Hall as [Hform | [[_ Hk] | [_ Hx]]]; [exact Hform | contradiction | contradiction].
Qed.

Lemma C8_witness :
  exists m,
    handleApiError Sample.host (ErrorObj "quota exceeded") "apply style"
    = ErrorObj ("Error occurred during " ++ dquote ++ "apply style" ++ dquote ++ ": " ++ m).
Proof.
  apply (proj2 (C8_action_label_embedded Sample.host (ErrorObj "quota exceeded") "apply style")).
  - apply includes_false. reflexivity.
  - apply includes_false. reflexivity.
Defined.

(** ** The patterns of the decade transform *)

Lemma one_line_spec (s : string) : has_line_terminator s = false <-> OneLine s.
Proof.
  unfold has_line_terminator, OneLine.
  rewrite !orb_false_iff, !includes_false. tauto.
Qed.

Lemma span_word_spec (s w r : string) :
  span_word s = (w, r) ->
  s = w ++ r /\ AllWord w /\ (forall c r', r = String c r' -> is_word c = false).
Proof.
  revert w r. induction s as [|c s IH]; intros w r; simpl.
  - intros [= <- <-]. repeat split. intros; discriminate.
  - destruct (is_word c) eqn:Ec.
    + destruct (span_word s) as [w' r'] eqn:E. intros [= <- <-].
      destruct (IH _ _ eq_refl) as (-> & Hw & Hr). repeat split; auto.
      unfold AllWord in *. simpl. rewrite Ec. exact Hw.
    + intros [= <- <-]. repeat split. intros c' r' [= -> ->]. exact Ec.
Qed.

Lemma span_word_app (w r : string) :
  AllWord w ->
  (forall c r', r = String c r' -> is_word c = false) ->
  span_word (w ++ r) = (w, r).
Proof.
  intros Hw Hr. induction w as [|c w IH]; simpl.
  - destruct r as [|c r']; [reflexivity|]. simpl.
    rewrite (Hr c r' eq_refl). reflexivity.
  - unfold AllWord in Hw. simpl in Hw. apply andb_true_iff in Hw as [Hc Hw].
    rewrite Hc, (IH Hw). reflexivity.
Qed.

(** The matcher finds exactly the texts of the pattern, with their groups. *)
Lemma match_data_url_spec (url mime payload : string) :
  match_data_url url = Some (mime, payload) <-> DataUrlMatch url mime payload.
Proof.
  unfold match_data_url, DataUrlMatch. split.
  - destruct (strip_prefix "data:image/" url) as [rest|] eqn:E1; [|discriminate].
    apply strip_prefix_spec in E1.
    destruct (span_word rest) as [w rest'] eqn:E2.
    apply span_word_spec in E2 as (-> & Hw & _).
    destruct (String.eqb_spec w EmptyString) as [|Hne]; [discriminate|].
    destruct (strip_prefix ";base64," rest') as [p|] eqn:E3; [|discriminate].
    apply strip_prefix_spec in E3.
    destruct (has_line_terminator p) eqn:E4; [discriminate|].
    apply one_line_spec in E4.
    intros [= <- <-]. exists w. subst.
    split; [exact Hne|]. split; [exact Hw|]. split; [reflexivity|].
    split; [reflexivity | exact E4].
  - intros (w & Hne & Hw & -> & -> & Hline).
    change ("data:" ++ ("image/" ++ w) ++ ";base64," ++ payload)
      with ("data:image/" ++ w ++ ";base64," ++ payload).
    rewrite strip_prefix_app.
    rewrite (span_word_app w (";base64," ++ payload) Hw)
      by (intros c r' [= <- _]; reflexivity).
    destruct (String.eqb_spec w EmptyString) as [|_]; [contradiction|].
    rewrite strip_prefix_app.
    apply one_line_spec in Hline. rewrite Hline. reflexivity.
Qed.

Lemma match_data_url_none (url : string) :
  match_data_url url = None <-> ~ exists mime payload, DataUrlMatch url mime payload.
Proof.
  split.
  - intros Hnone (mime & payload & Hm).
    apply match_data_url_spec in Hm. congruence.
  - intros Hno. destruct (match_data_url url) as [[mime payload]|] eqn:E; [|reflexivity].
    exfalso. apply Hno. exists mime, payload. apply match_data_url_spec. exact E.
Qed.

Lemma decade_here_spec (s d : string) :
  decade_here s = Some d <-> DecadeToken d /\ exists r, s = d ++ r.
Proof.
  unfold decade_here, DecadeToken. split.
  - destruct s as [|a [|b [|c [|e [|f r]]]]]; try discriminate.
    destruct (is_digit a) eqn:Ea, (is_digit b) eqn:Eb,
             (is_digit c) eqn:Ec, (is_digit e) eqn:Ee; simpl; try discriminate.
    destruct (Ascii.eqb_spec f "s") as [->|]; [|discriminate].
    intros [= <-]. split; [exists a, b, c, e; auto | exists r; reflexivity].
  - intros [(a & b & c & e & -> & Ha & Hb & Hc & He) [r ->]].
    simpl. rewrite Ha, Hb, Hc, He. reflexivity.
Qed.

Lemma decade_at_zero (p d : string) : DecadeAt p 0 d <-> decade_here p = Some d.
Proof.
  rewrite decade_here_spec. unfold DecadeAt. split.
  - intros (before & after & -> & Hlen & Htok).
    destruct before; [|discriminate]. split; [exact Htok | exists after; reflexivity].
  - intros [Htok [r ->]]. exists EmptyString, r. auto.
Qed.

Lemma decade_at_succ (c : ascii) (p d : string) (n : nat) :
  DecadeAt (String c p) (S n) d <-> DecadeAt p n d.
Proof.
  unfold DecadeAt. split.
  - intros (before & after & H & Hlen & Htok).
    destruct before as [|c' before]; [discriminate|].
    simpl in H, Hlen. injection H as _ ->. injection Hlen as Hlen.
    exists before, after. auto.
  - intros (before & after & -> & Hlen & Htok).
    exists (String c before), after. simpl. auto.
Qed.

Lemma decade_at_empty (n : nat) (d : string) : ~ DecadeAt EmptyString n d.
Proof.
  intros (before & after & H & _ & (a & b & c & e & -> & _)).
  destruct before; discriminate.
Qed.

Lemma extractDecade_unfold (prompt : string) :
  extractDecade prompt =
  match decade_here prompt with
  | Some d => Some d
  | None =>
      match prompt with
      | EmptyString => None
      | String _ rest => extractDecade rest
      end
  end.
Proof. destruct prompt; reflexivity. Qed.

Lemma extractDecade_finds (prompt : string) :
  match extractDecade prompt with
  | Some d => LeftmostDecade prompt d
  | None => NoDecade prompt
  end.
Proof.
  induction prompt as [|c p IH]; rewrite extractDecade_unfold.
  - simpl. intros n d. apply decade_at_empty.
  - destruct (decade_here (String c p)) as [d|] eqn:Ehere.
    + exists 0. split; [apply decade_at_zero; exact Ehere | intros; lia].
    + destruct (extractDecade p) as [d|].
      * destruct IH as (n & Hat & Hmin). exists (S n). split.
        -- apply decade_at_succ. exact Hat.
        -- intros [|m] d' Hat'.
           ++ apply decade_at_zero in Hat'. congruence.
           ++ apply decade_at_succ in Hat'. apply Hmin in Hat'. lia.
      * intros [|n] d Hat.
        -- apply decade_at_zero in Hat. congruence.
        -- apply decade_at_succ in Hat. exact (IH n d Hat).
Qed.

Lemma decade_at_unique (p : string) (n : nat) (d d' : string) :
  DecadeAt p n d -> DecadeAt p n d' -> d = d'.
Proof.
  revert p. induction n as [|n IH]; intros p H H'.
  - apply decade_at_zero in H, H'. congruence.
  - destruct p as [|c p].
    + exfalso. exact (decade_at_empty _ _ H).
    + apply decade_at_succ in H, H'. exact (IH p H H').
Qed.

Lemma leftmost_decade_unique (p d d' : string) :
  LeftmostDecade p d -> LeftmostDecade p d' -> d = d'.
Proof.
  intros (n & Hat & Hmin) (n' & Hat' & Hmin').
  pose proof (Hmin _ _ Hat'). pose proof (Hmin' _ _ Hat).
  assert (n = n') as <- by lia.
  exact (decade_at_unique p n d d' Hat Hat').
Qed.

(** [extractDecade] returns the first decade token of the prompt. *)
Lemma extractDecade_some (prompt d : string) :
  extractDecade prompt = Some d <-> LeftmostDecade prompt d.
Proof.
  pose proof (extractDecade_finds prompt) as H. split.
  - intros E. rewrite E in H. exact H.
  - intros Hl. destruct (extractDecade prompt) as [d'|].
    + f_equal. exact (leftmost_decade_unique prompt d' d H Hl).
    + destruct Hl as (n & Hat & _). exfalso. exact (H n d Hat).
Qed.

Lemma extractDecade_none (prompt : string) :
  extractDecade prompt = None <-> NoDecade prompt.
Proof.
  pose proof (extractDecade_finds prompt) as H. split.
  - intros E. rewrite E in H. exact H.
  - intros Hno. destruct (extractDecade prompt) as [d|]; [|reflexivity].
    destruct H as (n & Hat & _). exfalso. exact (Hno n d Hat).
Qed.

Lemma fallback_prompt_names_decade (decade : string) :
  Occurs decade (getFallbackPrompt decade).
Proof. unfold getFallbackPrompt. eexists _, _. reflexivity. Qed.

(** ** The service call *)

Lemma call_without_client (host : Host) (w : World) (request : list Part)
    (action : string) (log : list Request) (m : string) :
  getGoogleAI w log = Some m ->
  callImageEditingModel host w request action log
  = (Throw (caught host action (ErrorObj m)), log).
Proof.
  intros H. unfold callImageEditingModel, try_catch, bind, client, caught.
  rewrite H. destruct (rethrown (ErrorObj m)); reflexivity.
Qed.

Lemma call_with_client (host : Host) (w : World) (request : list Part)
    (action : string) (log : list Request) :
  getGoogleAI w log = None ->
  callImageEditingModel host w request action log
  = (match generateContent w log request with
     | Returns response =>
         match interpretResponse response with
         | Ok url => Ok url
         | Throw e => Throw (caught host action e)
         end
     | Throws e => Throw (caught host action e)
     end, (log ++ [request])%list).
Proof.
  intros H. unfold callImageEditingModel, try_catch, bind, client, invoke, await, caught.
  rewrite H. destruct (generateContent w log request) as [response|e].
  - destruct (interpretResponse response) as [url|e]; [reflexivity|].
    destruct (rethrown e); reflexivity.
  - destruct (rethrown e); reflexivity.
Qed.

(** One call sends at most one request. *)
Lemma call_log (host : Host) (w : World) (request : list Part)
    (action : string) (log : list Request) :
  snd (callImageEditingModel host w request action log) = log
  \/ snd (callImageEditingModel host w request action log) = (log ++ [request])%list.
Proof.
  destruct (getGoogleAI w log) as [m|] eqn:E.
  - left. rewrite (call_without_client _ _ _ _ _ _ E). reflexivity.
  - right. rewrite (call_with_client _ _ _ _ _ E). reflexivity.
Qed.

Lemma caught_is_error (host : Host) (action : string) (e : Thrown) :
  exists m, caught host action e = ErrorObj m.
Proof.
  unfold caught. destruct e as [m|m]; simpl.
  - destruct (_ || _)%bool; [eauto | unfold handleApiError; eauto].
  - unfold handleApiError. eauto.
Qed.

(** A call throws instances of [Error] only. *)
Lemma call_throws_error (host : Host) (w : World) (request : list Part)
    (action : string) (log : list Request) (t : Thrown) :
  fst (callImageEditingModel host w request action log) = Throw t ->
  exists m, t = ErrorObj m.
Proof.
  destruct (getGoogleAI w log) as [m|] eqn:E.
  - rewrite (call_without_client _ _ _ _ _ _ E). simpl. intros [= <-].
    apply caught_is_error.
  - rewrite (call_with_client _ _ _ _ _ E). simpl.
    destruct (generateContent w log request) as [response|e].
    + destruct (interpretResponse response) as [url|e]; [discriminate|].
      intros [= <-]. apply caught_is_error.
    + intros [= <-]. apply caught_is_error.
Qed.

(** A text-only answer ends the call in the refusal error, which the
    fallback paths recognise. *)
Lemma refusal_is_rethrown (host : Host) (w : World) (request : list Part)
    (action : string) (log : list Request) (response : GenerateContentResponse) :
  getGoogleAI w log = None ->
  generateContent w log request = Returns response ->
  TextOnly response ->
  callImageEditingModel host w request action log
  = (Throw (ErrorObj refusal_message), (log ++ [request])%list)
  /\ responded_with_text (ErrorObj refusal_message) = true.
Proof.
  intros Hclient Hreply Htext. split; [|reflexivity].
  rewrite (call_with_client _ _ _ _ _ Hclient), Hreply.
  rewrite (text_only_refused _ Htext). reflexivity.
Qed.

(** The requests of an operation with a second attempt. *)
Lemma with_retry_requests (host : Host) (w : World) (primary : list Part)
    (action : string) (fallback : option (list Part * string)) (log : list Request) :
  exists sent,
    snd (with_retry host w primary action fallback log) = (log ++ sent)%list
    /\ length sent <= 2
    /\ (length sent = 2 ->
        exists request action' m,
          fallback = Some (request, action')
          /\ sent = [primary; request]
          /\ callImageEditingModel host w primary action log
             = (Throw (ErrorObj m), (log ++ [primary])%list)
          /\ Occurs "Model responded with text instead of an image" m)
    /\ Forall (fun r => r = primary
                        \/ exists action', fallback = Some (r, action')) sent
    /\ (getGoogleAI w log = None -> exists rest, sent = primary :: rest).
Proof.
  unfold with_retry, try_catch.
  pose proof (call_log host w primary action log) as Hlog.
  pose proof (call_throws_error host w primary action log) as Herr.
  assert (getGoogleAI w log = None ->
          snd (callImageEditingModel host w primary action log)
          = (log ++ [primary])%list) as Hclient
    by (intros E; rewrite (call_with_client _ _ _ _ _ E); reflexivity).
  destruct (callImageEditingModel host w primary action log) as [[url|e] log1] eqn:Ecall;
    simpl in Hlog, Herr, Hclient.
  - destruct Hlog as [-> | ->].
    + exists []. rewrite app_nil_r. simpl.
      split; [reflexivity|]. split; [lia|]. split; [discriminate|].
      split; [constructor|]. intros E. specialize (Hclient E).
      apply (f_equal length) in Hclient. rewrite length_app in Hclient. simpl in Hclient. lia.
    + exists [primary]. simpl.
      split; [reflexivity|]. split; [lia|]. split; [discriminate|].
      split; [constructor; [left; reflexivity | constructor]|]. intros _. eauto.
  - destruct (Herr e eq_refl) as [m ->].
    assert (forall sent0,
              log1 = (log ++ sent0)%list -> (sent0 = [] \/ sent0 = [primary]) ->
              (getGoogleAI w log = None -> sent0 = [primary]) ->
              exists sent,
                log1 = (log ++ sent)%list /\ length sent <= 2
                /\ (length sent = 2 ->
                    exists request action' m0,
                      fallback = Some (request, action') /\ sent = [primary; request]
                      /\ (Throw (ErrorObj m) : Outcome string, log1)
                         = (Throw (ErrorObj m0), (log ++ [primary])%list)
                      /\ Occurs "Model responded with text instead of an image" m0)
                /\ Forall (fun r => r = primary
                                    \/ exists action', fallback = Some (r, action')) sent
                /\ (getGoogleAI w log = None -> exists rest, sent = primary :: rest))
      as Hstop.
    { intros sent0 -> Hsent0 Hc. exists sent0.
      split; [reflexivity|].
      destruct Hsent0 as [-> | ->]; simpl.
      - split; [lia|]. split; [discriminate|]. split; [constructor|].
        intros E. specialize (Hc E). discriminate.
      - split; [lia|]. split; [discriminate|].
        split; [constructor; [left; reflexivity | constructor]|]. eauto. }
    assert (exists sent0, log1 = (log ++ sent0)%list
                          /\ (sent0 = [] \/ sent0 = [primary])
                          /\ (getGoogleAI w log = None -> sent0 = [primary]))
      as (sent0 & Hlog1 & Hsent0 & Hc).
    { destruct Hlog as [-> | ->].
      - exists []. rewrite app_nil_r. split; [reflexivity|]. split; [left; reflexivity|].
        intros E. specialize (Hclient E).
        apply (f_equal length) in Hclient. rewrite length_app in Hclient.
        simpl in Hclient. lia.
      - exists [primary]. split; [reflexivity|]. split; [right; reflexivity|]. auto. }
    destruct (responded_with_text (ErrorObj m)) eqn:Eresp;
      [|exact (Hstop sent0 Hlog1 Hsent0 Hc)].
    destruct fallback as [[request action']|];
      [|exact (Hstop sent0 Hlog1 Hsent0 Hc)].
    destruct (call_log host w request action' log1) as [Hlog2 | Hlog2]; rewrite Hlog2.
    + destruct (Hstop sent0 Hlog1 Hsent0 Hc) as (sent & H1 & H2 & H3 & H4 & H5).
      exists sent. split; [exact H1|]. split; [exact H2|]. split; [|split; assumption].
      intros H. destruct (H3 H) as (r & a & m0 & Hf & Hs & Hcall & Hocc).
      exists r, a, m0. auto.
    + subst log1. exists (sent0 ++ [request])%list.
      split; [rewrite app_assoc; reflexivity|].
      destruct Hsent0 as [-> | ->]; simpl.
      * split; [lia|]. split; [discriminate|].
        split; [constructor; [right; eauto | constructor]|].
        intros E. specialize (Hc E). discriminate.
      * split; [lia|]. split.
        { intros _. exists request, action', m.
          split; [reflexivity|]. split; [reflexivity|]. split; [reflexivity|].
          apply includes_spec. exact Eresp. }
        split; [|eauto].
        constructor; [left; reflexivity|]. constructor; [right; eauto | constructor].
Qed.

(** ** Fusion *)

Section PromiseAll.
Context {A : Type}.
Implicit Types (vs : list A) (order : list nat) (slots : list (option A)).

Lemma settle_all_ok vs order slots :
  settle (Ok <$> vs) order slots = Ok (foldl (written vs) slots order).
Proof.
  revert slots. induction order as [|i order IH]; intros slots; simpl.
  - reflexivity.
  - rewrite list_lookup_fmap. unfold written at 2.
    destruct (vs !! i) as [v|]; simpl; apply IH.
Qed.

Lemma written_length vs slots i : length (written vs slots i) = length slots.
Proof. unfold written. destruct (vs !! i); [apply length_insert | reflexivity]. Qed.

Lemma written_lookup vs order slots j :
  length slots = length vs ->
  foldl (written vs) slots order !! j
  = if decide (j ∈ order) then Some <$> vs !! j else slots !! j.
Proof.
  revert slots. induction order as [|i order IH]; intros slots Hlen; simpl.
  - destruct (decide (j ∈ [])) as [Hin|_]; [|reflexivity].
    apply elem_of_nil in Hin. contradiction.
  - rewrite IH by (rewrite written_length; exact Hlen).
    destruct (decide (j ∈ order)) as [Hin|Hnin].
    + destruct (decide (j ∈ i :: order)) as [_|Hn]; [reflexivity|].
      exfalso. apply Hn. apply elem_of_cons. right. exact Hin.
    + destruct (decide (j = i)) as [->|Hne].
      * destruct (decide (i ∈ i :: order)) as [_|Hn];
          [|exfalso; apply Hn; apply elem_of_cons; left; reflexivity].
        unfold written. destruct (vs !! i) as [v|] eqn:Ev; simpl.
        -- apply list_lookup_insert_eq. rewrite Hlen.
           apply lookup_lt_Some in Ev. exact Ev.
        -- apply lookup_ge_None. rewrite Hlen. apply lookup_ge_None. exact Ev.
      * destruct (decide (j ∈ i :: order)) as [Hin|_].
        -- apply elem_of_cons in Hin as [Heq | Hin]; contradiction.
        -- unfold written. destruct (vs !! i); [|reflexivity].
           apply list_lookup_insert_ne. congruence.
Qed.

Lemma omap_id_some vs : omap id (Some <$> vs) = vs.
Proof. induction vs as [|v vs IH]; [reflexivity | rewrite fmap_cons; simpl; f_equal; exact IH]. Qed.

(** When every task fulfils, [Promise.all] fulfils with the values in the
    order of the tasks, whatever the order in which they settled. *)
Lemma promise_all_ok vs order :
  order ≡ₚ seq 0 (length vs) ->
  promise_all (Ok <$> vs) order = Ok vs.
Proof.
  intros Hperm. unfold promise_all. rewrite settle_all_ok.
  rewrite length_fmap.
  assert (foldl (written vs) (replicate (length vs) None) order = Some <$> vs) as ->.
  { apply list_eq. intros j.
    rewrite written_lookup by apply length_replicate.
    rewrite list_lookup_fmap.
    destruct (decide (j ∈ order)) as [_|Hnin]; [reflexivity|].
    assert (length vs <= j) as Hge.
    { destruct (Nat.le_gt_cases (length vs) j) as [|Hlt]; [assumption|].
      exfalso. apply Hnin. rewrite Hperm. apply elem_of_seq. lia. }
    rewrite (proj2 (lookup_ge_None vs j) Hge).
    apply lookup_ge_None. rewrite length_replicate. exact Hge. }
  cbv beta iota. rewrite omap_id_some. reflexivity.
Qed.
End PromiseAll.

Lemma completion_order_perm (w : World) (n : nat) :
  completion_order w n ≡ₚ seq 0 n.
Proof. unfold completion_order. apply merge_sort_Permutation. Qed.

Lemma part_is_inline (host : Host) (f : File) (p : Part) :
  fileToGenerativePart host f = Ok p -> InlineImage p.
Proof.
  unfold fileToGenerativePart, InlineImage.
  destruct (resizeImageForApi host f) as [r|t]; [|discriminate].
  destruct (base64 host (file r)) as [d|]; [|discriminate].
  intros [= <-]. eauto.
Qed.

Lemma part_encodes (host : Host) (f : File) (p : Part) :
  fileToGenerativePart host f = Ok p ->
  exists b, EncodedImage host f b /\ p = {| inlineData := Some b; text := None |}.
Proof.
  unfold fileToGenerativePart, EncodedImage.
  destruct (resizeImageForApi host f) as [r|t]; [|discriminate].
  destruct (base64 host (file r)) as [d|] eqn:Ed; [|discriminate].
  intros [= <-]. exists {| blob_mimeType := mimeType r; blob_data := d |}.
  split; [exists r; auto | reflexivity].
Qed.

(** The tasks of the source images, when each of them fulfils. *)
Lemma tasks_all_ok (host : Host) (sources : list File) (ps : list Part) :
  Forall2 (fun f p => fileToGenerativePart host f = Ok p) sources ps ->
  imap (indexed_task host) sources
  = Ok <$> imap (fun i p => {| indexed_part := p; index := N.of_nat i + 1 |}) ps.
Proof.
  intros Hall. apply list_eq. intros i.
  rewrite list_lookup_fmap, !list_lookup_imap.
  pose proof (proj1 (Forall2_lookup _ _ _) Hall i) as Hi.
  destruct Hi as [f p Hfp|]; simpl; [|reflexivity].
  unfold indexed_task. rewrite Hfp. reflexivity.
Qed.

Lemma strip_index (ps : list Part) (g : nat -> Part -> Indexed) :
  (forall i p, indexed_part (g i p) = p) ->
  Forall InlineImage ps ->
  map (fun p => {| inlineData := inlineData (indexed_part p); text := None |}) (imap g ps)
  = ps.
Proof.
  revert g. induction ps as [|p ps IH]; intros g Hg Hall; [reflexivity|].
  rewrite imap_cons. simpl. inversion Hall as [|? ? (mime & data & ->) Hrest]; subst.
  f_equal.
  - rewrite Hg. reflexivity.
  - apply IH; [intros i q; apply Hg | exact Hrest].
Qed.

Lemma fold_left_labels (ps : list Part) (g : nat -> Part -> Indexed) (k : nat)
    (init : string) :
  (forall i p, index (g i p) = (N.of_nat (k + i) + 1)%N) ->
  fold_left
    (fun fullPrompt part =>
       fullPrompt ++ "Source image " ++ decimal (index part) ++ " is provided. ")
    (imap g ps) init
  = init ++ labels_from (N.of_nat k + 1) (length ps).
Proof.
  revert g k init. induction ps as [|p ps IH]; intros g k init Hg.
  - simpl. rewrite append_nil_r. reflexivity.
  - rewrite imap_cons. cbn [fold_left].
    rewrite (IH (g ∘ S) (S k)).
    + rewrite Hg. rewrite Nat.add_0_r.
      replace (N.of_nat (S k) + 1)%N with (N.of_nat k + 1 + 1)%N by lia.
      cbn [labels_from length]. rewrite !append_assoc. reflexivity.
    + intros i q. unfold compose. rewrite Hg. f_equal. lia.
Qed.

Lemma catch_and_throw_log {A} (m : M A) (h : Thrown -> Thrown) (log : list Request) :
  snd (try_catch m (fun e => throw (h e)) log) = snd (m log).
Proof. unfold try_catch, throw. destruct (m log) as [[a|t] log']; reflexivity. Qed.

(** C9.  A fusion of a main image with N source images sends one request
    whose parts are N + 1 inline images, each holding the type and the
    base64 text of its normalized file and nothing else, the main image
    first and the source images in the order given, followed by one part
    that holds only a text, whose instruction lists the source images 1 to
    N in that order.  The request is the same in every world, so it does
    not depend on the order in which the concurrent preprocessing of the
    source images completes. *)
Theorem C9_fusion_request (host : Host) (w : World) (mainImage : File)
    (sourceImages : list File) (prompt : string)
    (mainPart : Part) (sourceParts : list Part) :
  fileToGenerativePart host mainImage = Ok mainPart ->
  Forall2 (fun f p => fileToGenerativePart host f = Ok p) sourceImages sourceParts ->
  getGoogleAI w [] = None ->
  exists mainBlob sourceBlobs,
    EncodedImage host mainImage mainBlob
    /\ Forall2 (EncodedImage host) sourceImages sourceBlobs
    /\ mainPart = {| inlineData := Some mainBlob; text := None |}
    /\ sourceParts = map (fun b => {| inlineData := Some b; text := None |}) sourceBlobs
    /\ requests_of host w (Fusion mainImage sourceImages prompt)
       = [ ({| inlineData := Some mainBlob; text := None |}
            :: map (fun b => {| inlineData := Some b; text := None |}) sourceBlobs
            ++ [ {| inlineData := None;
                    text := Some (fusion_text (length sourceImages) prompt) |} ])%list ]
    /\ length sourceBlobs = length sourceImages.
Proof.
  intros Hmain Hsources Hclient.
  assert (Forall InlineImage sourceParts) as Hinline.
  { clear -Hsources. induction Hsources as [|f p fs ps Hfp _ IH]; constructor;
      [exact (part_is_inline host f p Hfp) | exact IH]. }
  assert (length sourceParts = length sourceImages) as Hlen
    by (symmetry; exact (Forall2_length _ _ _ Hsources)).
  assert (requests_of host w (Fusion mainImage sourceImages prompt)
          = [ (mainPart :: sourceParts
               ++ [text_part (fusion_text (length sourceImages) prompt)])%list ])
    as Hrequest.
  { unfold requests_of, perform, generateFusedImage.
    rewrite catch_and_throw_log.
    unfold bind at 1, await at 1. rewrite Hmain.
    unfold bind at 1, await at 1.
    rewrite (tasks_all_ok host sourceImages sourceParts Hsources).
    rewrite promise_all_ok.
    2:{ rewrite length_imap, Hlen. apply completion_order_perm. }
    rewrite strip_index; [|reflexivity|exact Hinline].
    rewrite (call_with_client _ _ _ _ _ Hclient). simpl snd.
    unfold fusion_prompt.
    rewrite (fold_left_labels sourceParts _ 0) by reflexivity.
    unfold fusion_text. rewrite Hlen, append_assoc. reflexivity. }
  assert (exists sourceBlobs,
            Forall2 (EncodedImage host) sourceImages sourceBlobs
            /\ sourceParts
               = map (fun b => {| inlineData := Some b; text := None |}) sourceBlobs)
    as (sourceBlobs & Hblobs & Hparts).
  { clear -Hsources. induction Hsources as [|f p fs ps Hfp _ (bs & Hbs & ->)].
    - exists []. split; [constructor | reflexivity].
    - destruct (part_encodes host f p Hfp) as (b & Hb & ->).
      exists (b :: bs). split; [constructor; assumption | reflexivity]. }
  destruct (part_encodes host mainImage mainPart Hmain) as (mainBlob & Hblob & Hpart).
  exists mainBlob, sourceBlobs.
  split; [exact Hblob|]. split; [exact Hblobs|].
  split; [exact Hpart|]. split; [exact Hparts|].
  split.
  - rewrite Hrequest, Hpart, Hparts. reflexivity.
  - symmetry. exact (Forall2_length _ _ _ Hblobs).
Qed.

Lemma C9_witness :
  requests_of Sample.host Sample.refusing_world
    (Fusion Sample.photo [Sample.webp; Sample.large_photo] "blend them")
  = [ [ {| inlineData := Some {| blob_mimeType := "image/jpeg";
                                 blob_data := "SlBFRw==" |};
           text := None |};
        {| inlineData := Some {| blob_mimeType := "image/png"; blob_data := "PNG" |};
           text := None |};
        {| inlineData := Some {| blob_mimeType := "image/png"; blob_data := "PNG" |};
           text := None |};
        {| inlineData := None;
           text := Some "Fuse the images. The main image is the one I'm editing. Source image 1 is provided. Source image 2 is provided. Instructions: blend them" |} ] ].
Proof.
  destruct (C9_fusion_request Sample.host Sample.refusing_world Sample.photo
              [Sample.webp; Sample.large_photo] "blend them"
              {| inlineData := Some {| blob_mimeType := "image/jpeg";
                                       blob_data := "SlBFRw==" |};
                 text := None |}
              [ {| inlineData := Some {| blob_mimeType := "image/png";
                                         blob_data := "PNG" |};
                   text := None |};
                {| inlineData := Some {| blob_mimeType := "image/png";
                                         blob_data := "PNG" |};
                   text := None |} ])
    as (mainBlob & sourceBlobs & _ & _ & Hmain & Hsources & Hrequest & _).
  - reflexivity.
  - constructor; [reflexivity|]. constructor; [reflexivity|]. constructor.
  - reflexivity.
  - injection Hmain as <-.
    destruct sourceBlobs as [|b1 [|b2 [|b3 rest]]]; try discriminate Hsources.
    simpl in Hsources. injection Hsources as <- <-.
    exact Hrequest.
Defined.

(** ** RetryOrchestrator *)

Lemma prefixed_with_fallback_shape (host : Host) (w : World)
    (prefix action : string) (f : File) (prompt : string) (log : list Request) :
  prefixed_with_fallback host w prefix action f prompt log
  = match fileToGenerativePart host f with
    | Ok imagePart =>
        with_retry host w [imagePart; text_part (prefix ++ prompt)] action
          (Some ([imagePart; text_part prompt], action ++ " (fallback)")) log
    | Throw t => (Throw t, log)
    end.
Proof.
  unfold prefixed_with_fallback, bind, await.
  destruct (fileToGenerativePart host f); reflexivity.
Qed.

Lemma generateDecadeImage_shape (host : Host) (w : World)
    (url prompt : string) (log : list Request) :
  generateDecadeImage host w url prompt log
  = match match_data_url url with
    | None => (Throw (ErrorObj "Invalid image data URL format."), log)
    | Some (mime, payload) =>
        with_retry host w [inline_part mime payload; text_part prompt]
          ("generate " ++ tpl_null (extractDecade prompt) ++ " image")
          (decade_fallback (inline_part mime payload) prompt) log
    end.
Proof.
  unfold generateDecadeImage, decade_fallback, with_retry.
  destruct (match_data_url url) as [[mime payload]|]; [|reflexivity].
  destruct (extractDecade prompt); reflexivity.
Qed.

(** An operation made of one call sends at most one request. *)
Lemma single_call_log (host : Host) (w : World) (o : Outcome Part)
    (request : Part -> list Part) (action : string) (log : list Request) :
  length (snd ((let! part := await o in
                callImageEditingModel host w (request part) action) log))
  <= length log + 1.
Proof.
  unfold bind, await. destruct o as [part|t]; simpl; [|lia].
  destruct (call_log host w (request part) action log) as [-> | ->];
    [|rewrite length_app; simpl]; lia.
Qed.

Lemma fusion_log (host : Host) (w : World) (mainImage : File)
    (sourceImages : list File) (prompt : string) :
  length (snd (generateFusedImage host w mainImage sourceImages prompt [])) <= 1.
Proof.
  unfold generateFusedImage. rewrite catch_and_throw_log.
  unfold bind, await.
  destruct (fileToGenerativePart host mainImage) as [mainPart|t]; simpl; [|lia].
  destruct (promise_all _ _) as [parts|t]; simpl; [|lia].
  match goal with
  | |- context [callImageEditingModel ?h ?w ?r ?a ?l] =>
      destruct (call_log h w r a l) as [-> | ->]
  end; simpl; lia.
Qed.

(** The statement of C1 does not hold as worded: a second invocation also
    follows a first attempt that met no refusal.  Here the transport fails
    with a message that quotes the refusal text, no response is received,
    and the filter operation still invokes the service a second time. *)
Lemma C1_second_attempt_without_refusal :
  length (requests_of Sample.host Sample.failing_world
            (Filter Sample.photo "vintage sepia")) = 2
  /\ ~ FirstYieldsRefusal Sample.host Sample.failing_world
         (Filter Sample.photo "vintage sepia").
Proof.
  split; [vm_compute; reflexivity|].
  intros (request & rest & response & _ & Hreply & _).
  simpl in Hreply. discriminate.
Qed.

(** C1, amended.  Every operation invokes the service at most twice.  A
    second invocation occurs only when the operation has a fallback and
    the first attempt ended in an error whose message contains
    [Model responded with text instead of an image]; a refusal, a
    text-only response, always ends the attempt in such an error.
    Background removal and fusion invoke the service at most once. *)
Theorem C1_at_most_two_invocations (host : Host) (w : World) (op : Operation) :
  length (requests_of host w op) <= 2
  /\ (length (requests_of host w op) = 2 ->
      has_fallback op = true
      /\ exists primary fallback m,
           requests_of host w op = [primary; fallback]
           /\ callImageEditingModel host w primary (primary_action op) []
              = (Throw (ErrorObj m), [primary])
           /\ Occurs "Model responded with text instead of an image" m)
  /\ (never_retried op = true -> length (requests_of host w op) <= 1)
  /\ (forall request action response,
        getGoogleAI w [] = None ->
        generateContent w [] request = Returns response ->
        TextOnly response ->
        exists m,
          callImageEditingModel host w request action []
          = (Throw (ErrorObj m), [request])
          /\ Occurs "Model responded with text instead of an image" m).
Proof.
  assert (forall primary fallback,
            (fallback <> None -> has_fallback op = true) ->
            let sent := snd (with_retry host w primary (primary_action op) fallback []) in
            length sent <= 2
            /\ (length sent = 2 ->
                has_fallback op = true
                /\ exists primary fallback m,
                     sent = [primary; fallback]
                     /\ callImageEditingModel host w primary (primary_action op) []
                        = (Throw (ErrorObj m), [primary])
                     /\ Occurs "Model responded with text instead of an image" m))
    as Hretry.
  { intros primary fallback Hfb sent.
    destruct (with_retry_requests host w primary (primary_action op) fallback [])
      as (sent' & Hsent & Hle & Htwo & _).
    simpl in Hsent. subst sent. rewrite Hsent.
    split; [exact Hle|]. intros Hlen.
    destruct (Htwo Hlen) as (request & action' & m & -> & -> & Hcall & Hocc).
    split; [apply Hfb; discriminate|].
    exists primary, request, m. auto. }
  assert (forall n, n <= 1 ->
            n <= 2 /\ (n = 2 -> has_fallback op = true
                                /\ exists primary fallback m,
                                     requests_of host w op = [primary; fallback]
                                     /\ callImageEditingModel host w primary
                                          (primary_action op) []
                                        = (Throw (ErrorObj m), [primary])
                                     /\ Occurs "Model responded with text instead of an image" m)
            /\ (never_retried op = true -> n <= 1)) as Hone
    by (intros n Hn; split; [lia|]; split; [lia | auto]).
  assert (forall request action response,
            getGoogleAI w [] = None ->
            generateContent w [] request = Returns response ->
            TextOnly response ->
            exists m,
              callImageEditingModel host w request action []
              = (Throw (ErrorObj m), [request])
              /\ Occurs "Model responded with text instead of an image" m) as Hrefusal.
  { intros request action response Hc Hr Ht.
    destruct (refusal_is_rethrown host w request action [] response Hc Hr Ht)
      as [Hcall Hresp].
    exists refusal_message. split; [exact Hcall|].
    apply includes_spec. exact Hresp. }
  cut (length (requests_of host w op) <= 2
       /\ (length (requests_of host w op) = 2 ->
           has_fallback op = true
           /\ exists primary fallback m,
                requests_of host w op = [primary; fallback]
                /\ callImageEditingModel host w primary (primary_action op) []
                   = (Throw (ErrorObj m), [primary])
                /\ Occurs "Model responded with text instead of an image" m)
       /\ (never_retried op = true -> length (requests_of host w op) <= 1)).
  { intros (H1 & H2 & H3). auto. }
  clear Hrefusal.
  destruct op as [f p x y | f p | f p | f p | f p | f | mainImage srcs p | url p];
    unfold requests_of, perform in *.
  - apply Hone.
    exact (single_call_log host w _ (fun part => [part; _]) "retouch" []).
  - unfold generateFilteredImage in *. rewrite prefixed_with_fallback_shape in *.
    destruct (fileToGenerativePart host f) as [part|t]; [|apply Hone; simpl; lia].
    split; [|split; [|discriminate]]; apply Hretry; reflexivity.
  - unfold generateAdjustedImage in *. rewrite prefixed_with_fallback_shape in *.
    destruct (fileToGenerativePart host f) as [part|t]; [|apply Hone; simpl; lia].
    split; [|split; [|discriminate]]; apply Hretry; reflexivity.
  - unfold generateTexturedImage in *. rewrite prefixed_with_fallback_shape in *.
    destruct (fileToGenerativePart host f) as [part|t]; [|apply Hone; simpl; lia].
    split; [|split; [|discriminate]]; apply Hretry; reflexivity.
  - unfold generateStyledImage in *. rewrite prefixed_with_fallback_shape in *.
    destruct (fileToGenerativePart host f) as [part|t]; [|apply Hone; simpl; lia].
    split; [|split; [|discriminate]]; apply Hretry; reflexivity.
  - apply Hone.
    exact (single_call_log host w _ (fun part => [part; _]) "background removal" []).
  - apply Hone. apply fusion_log.
  - rewrite generateDecadeImage_shape in *.
    destruct (match_data_url url) as [[mime payload]|]; [|apply Hone; simpl; lia].
    split; [|split; [|discriminate]]; apply Hretry;
      unfold decade_fallback; simpl; destruct (extractDecade p); congruence.
Qed.

Lemma C1_witness :
  (has_fallback (Filter Sample.photo "vintage sepia") = true
   /\ exists primary fallback m,
        requests_of Sample.host Sample.refusing_world (Filter Sample.photo "vintage sepia")
        = [primary; fallback]
        /\ callImageEditingModel Sample.host Sample.refusing_world primary "filter" []
           = (Throw (ErrorObj m), [primary])
        /\ Occurs "Model responded with text instead of an image" m)
  /\ length (requests_of Sample.host Sample.refusing_world
               (BackgroundRemoval Sample.photo)) <= 1
  /\ exists m,
       callImageEditingModel Sample.host Sample.refusing_world
         [text_part "Apply this filter: vintage sepia"] "filter" []
       = (Throw (ErrorObj m), [[text_part "Apply this filter: vintage sepia"]])
       /\ Occurs "Model responded with text instead of an image" m.
Proof.
  split; [|split].
  - apply (proj1 (proj2 (C1_at_most_two_invocations Sample.host Sample.refusing_world
                           (Filter Sample.photo "vintage sepia")))).
    reflexivity.
  - apply (proj1 (proj2 (proj2 (C1_at_most_two_invocations Sample.host
                                  Sample.refusing_world
                                  (BackgroundRemoval Sample.photo))))).
    reflexivity.
  - apply (proj2 (proj2 (proj2 (C1_at_most_two_invocations Sample.host
                                  Sample.refusing_world
                                  (BackgroundRemoval Sample.photo))))
             [text_part "Apply this filter: vintage sepia"] "filter"
             (Sample.text_response "I cannot edit this image.")).
    + reflexivity.
    + reflexivity.
    + exact Sample_text_only.
Defined.

(** ** Decade transform *)

(** C6.  In a decade transform whose primary attempt meets a refusal, the
    fallback takes the first decade token of the original prompt (four
    digits and an s) and makes one more attempt, with the same image and
    with the fixed template text that names that decade in place of the
    prompt; when the prompt holds no decade token, no further attempt is
    made and the refusal error reaches the caller. *)
Theorem C6_decade_fallback (host : Host) (w : World) (url prompt : string)
    (mime payload : string) (response : GenerateContentResponse) :
  DataUrlMatch url mime payload ->
  getGoogleAI w [] = None ->
  generateContent w []
    [ {| inlineData := Some {| blob_mimeType := mime; blob_data := payload |};
         text := None |};
      {| inlineData := None; text := Some prompt |} ] = Returns response ->
  TextOnly response ->
  (forall decade,
     LeftmostDecade prompt decade ->
     generateDecadeImage host w url prompt []
     = callImageEditingModel host w
         [ {| inlineData := Some {| blob_mimeType := mime; blob_data := payload |};
              text := None |};
           {| inlineData := None;
              text := Some ("Create a photograph of the person in this image as if they were living in the "
                            ++ decade
                            ++ ". The photograph should capture the distinct fashion, hairstyles, and overall atmosphere of that time period. Ensure the final image is a clear photograph that looks authentic to the era.") |} ]
         ("generate " ++ decade ++ " image (fallback)")
         [[ {| inlineData := Some {| blob_mimeType := mime; blob_data := payload |};
               text := None |};
            {| inlineData := None; text := Some prompt |} ]]
     /\ Occurs decade
          ("Create a photograph of the person in this image as if they were living in the "
           ++ decade
           ++ ". The photograph should capture the distinct fashion, hairstyles, and overall atmosphere of that time period. Ensure the final image is a clear photograph that looks authentic to the era.")
     /\ length (requests_of host w (DecadeTransform url prompt)) <= 2
     /\ (getGoogleAI w
           [[ {| inlineData := Some {| blob_mimeType := mime; blob_data := payload |};
                 text := None |};
              {| inlineData := None; text := Some prompt |} ]] = None ->
         requests_of host w (DecadeTransform url prompt)
         = [[ {| inlineData := Some {| blob_mimeType := mime; blob_data := payload |};
                 text := None |};
              {| inlineData := None; text := Some prompt |} ];
            [ {| inlineData := Some {| blob_mimeType := mime; blob_data := payload |};
                 text := None |};
              {| inlineData := None;
                 text := Some ("Create a photograph of the person in this image as if they were living in the "
                               ++ decade
                               ++ ". The photograph should capture the distinct fashion, hairstyles, and overall atmosphere of that time period. Ensure the final image is a clear photograph that looks authentic to the era.") |} ]]))
  /\ (NoDecade prompt ->
      generateDecadeImage host w url prompt []
      = (Throw (ErrorObj "Model responded with text instead of an image. The prompt may have been blocked."),
         [[ {| inlineData := Some {| blob_mimeType := mime; blob_data := payload |};
               text := None |};
            {| inlineData := None; text := Some prompt |} ]])).
Proof.
  intros Hurl Hclient Hreply Htext.
  change (generateContent w [] [inline_part mime payload; text_part prompt]
          = Returns response) in Hreply.
  apply match_data_url_spec in Hurl.
  assert (forall fallback,
            with_retry host w [inline_part mime payload; text_part prompt]
              ("generate " ++ tpl_null (extractDecade prompt) ++ " image") fallback []
            = match fallback with
              | Some (request, action') =>
                  callImageEditingModel host w request action'
                    [[inline_part mime payload; text_part prompt]]
              | None => (Throw (ErrorObj refusal_message),
                         [[inline_part mime payload; text_part prompt]])
              end) as Hretry.
  { intros fallback. unfold with_retry, try_catch.
    destruct (refusal_is_rethrown host w [inline_part mime payload; text_part prompt]
                ("generate " ++ tpl_null (extractDecade prompt) ++ " image")
                [] response Hclient Hreply Htext) as [-> ->].
    destruct fallback as [[request action']|]; reflexivity. }
  split.
  - intros decade Hdecade. apply extractDecade_some in Hdecade.
    assert (generateDecadeImage host w url prompt []
            = callImageEditingModel host w
                [inline_part mime payload; text_part (getFallbackPrompt decade)]
                ("generate " ++ decade ++ " image (fallback)")
                [[inline_part mime payload; text_part prompt]]) as Heq.
    { rewrite generateDecadeImage_shape, Hurl, Hretry.
      unfold decade_fallback. rewrite Hdecade. reflexivity. }
    split; [exact Heq|].
    split; [exact (fallback_prompt_names_decade decade)|].
    unfold requests_of, perform. rewrite Heq. split.
    + match goal with
      | |- context [callImageEditingModel ?h ?w ?r ?a ?l] =>
          destruct (call_log h w r a l) as [-> | ->]
      end; simpl; lia.
    + intros Hclient2.
      change (getGoogleAI w [[inline_part mime payload; text_part prompt]] = None)
        in Hclient2.
      rewrite (call_with_client _ _ _ _ _ Hclient2). reflexivity.
  - intros Hnone. apply extractDecade_none in Hnone.
    rewrite generateDecadeImage_shape, Hurl, Hretry.
    unfold decade_fallback. rewrite Hnone. reflexivity.
Qed.

Lemma C6_witness :
  generateDecadeImage Sample.host Sample.refusing_world
    "data:image/png;base64,iVBORw0KGgo="
    "Reimagine the person as if living in the 1970s." []
  = (Ok "data:image/png;base64,iVBORw0KGgo=",
     [[ {| inlineData := Some {| blob_mimeType := "image/png";
                                 blob_data := "iVBORw0KGgo=" |};
           text := None |};
        {| inlineData := None;
           text := Some "Reimagine the person as if living in the 1970s." |} ];
      [ {| inlineData := Some {| blob_mimeType := "image/png";
                                 blob_data := "iVBORw0KGgo=" |};
           text := None |};
        {| inlineData := None;
           text := Some "Create a photograph of the person in this image as if they were living in the 1970s. The photograph should capture the distinct fashion, hairstyles, and overall atmosphere of that time period. Ensure the final image is a clear photograph that looks authentic to the era." |} ]])
  /\ generateDecadeImage Sample.host Sample.refusing_world
       "data:image/png;base64,iVBORw0KGgo=" "Make it look old." []
     = (Throw (ErrorObj "Model responded with text instead of an image. The prompt may have been blocked."),
        [[ {| inlineData := Some {| blob_mimeType := "image/png";
                                    blob_data := "iVBORw0KGgo=" |};
              text := None |};
           {| inlineData := None; text := Some "Make it look old." |} ]]).
Proof.
  assert (DataUrlMatch "data:image/png;base64,iVBORw0KGgo=" "image/png" "iVBORw0KGgo=")
    as Hurl by (apply match_data_url_spec; reflexivity).
  assert (LeftmostDecade "Reimagine the person as if living in the 1970s." "1970s")
    as Hdecade by (apply extractDecade_some; reflexivity).
  assert (NoDecade "Make it look old.") as Hnone
    by (apply extractDecade_none; reflexivity).
  split.
  - destruct (C6_decade_fallback Sample.host Sample.refusing_world
                "data:image/png;base64,iVBORw0KGgo="
                "Reimagine the person as if living in the 1970s."
                "image/png" "iVBORw0KGgo="
                (Sample.text_response "I cannot edit this image.")
                Hurl eq_refl eq_refl Sample_text_only) as [Hsome _].
    destruct (Hsome "1970s" Hdecade) as (Heq & _).
    rewrite Heq. reflexivity.
  - destruct (C6_decade_fallback Sample.host Sample.refusing_world
                "data:image/png;base64,iVBORw0KGgo=" "Make it look old."
                "image/png" "iVBORw0KGgo="
                (Sample.text_response "I cannot edit this image.")
                Hurl eq_refl eq_refl Sample_text_only) as [_ Hno].
    exact (Hno Hnone).
Defined.

(** C10.  The image argument of the decade transform is checked against the
    data-URL pattern first.  A text that does not match ends the operation
    in the error [Invalid image data URL format.] with no request sent.
    For a text that matches, the mime type and the payload the pattern
    extracts are, as they stand, the inline image part of every request the
    operation sends. *)
Theorem C10_data_url_gate (host : Host) (w : World) (url prompt : string)
    (log : list Request) :
  (~ (exists mime payload, DataUrlMatch url mime payload) ->
   generateDecadeImage host w url prompt log
   = (Throw (ErrorObj "Invalid image data URL format."), log))
  /\ (forall mime payload,
        DataUrlMatch url mime payload ->
        exists sent,
          snd (generateDecadeImage host w url prompt log) = (log ++ sent)%list
          /\ Forall (fun request =>
                       exists t,
                         request
                         = [ {| inlineData := Some {| blob_mimeType := mime;
                                                      blob_data := payload |};
                                text := None |};
                             text_part t ]) sent
          /\ (getGoogleAI w log = None ->
              exists rest,
                sent = [inline_part mime payload; text_part prompt] :: rest)).
Proof.
  split.
  - intros Hno. apply match_data_url_none in Hno.
    rewrite generateDecadeImage_shape, Hno. reflexivity.
  - intros mime payload Hurl. apply match_data_url_spec in Hurl.
    rewrite generateDecadeImage_shape, Hurl.
    destruct (with_retry_requests host w [inline_part mime payload; text_part prompt]
                ("generate " ++ tpl_null (extractDecade prompt) ++ " image")
                (decade_fallback (inline_part mime payload) prompt) log)
      as (sent & Hsent & _ & _ & Hall & Hfirst).
    exists sent. split; [exact Hsent|]. split; [|exact Hfirst].
    eapply Forall_impl; [exact Hall|].
    intros request [-> | [action' Hfb]]; [eexists; reflexivity|].
    unfold decade_fallback in Hfb.
    destruct (extractDecade prompt) as [decade|]; [|discriminate].
    injection Hfb as <- _. eexists; reflexivity.
Qed.

Lemma C10_witness :
  generateDecadeImage Sample.host Sample.refusing_world
    "https://example.com/me.png" "Reimagine the person in the 1970s." []
  = (Throw (ErrorObj "Invalid image data URL format."), [])
  /\ exists sent,
       snd (generateDecadeImage Sample.host Sample.refusing_world
              "data:image/png;base64,iVBORw0KGgo="
              "Reimagine the person in the 1970s." [])
       = sent
       /\ Forall (fun request =>
                    exists t, request = [inline_part "image/png" "iVBORw0KGgo="; text_part t])
            sent.
Proof.
  split.
  - apply (proj1 (C10_data_url_gate Sample.host Sample.refusing_world
                    "https://example.com/me.png" "Reimagine the person in the 1970s." [])).
    apply match_data_url_none. reflexivity.
  - destruct (proj2 (C10_data_url_gate Sample.host Sample.refusing_world
                       "data:image/png;base64,iVBORw0KGgo="
                       "Reimagine the person in the 1970s." [])
                "image/png" "iVBORw0KGgo=") as (sent & Hsent & Hall & _).
    + apply match_data_url_spec. reflexivity.
    + exists sent. split; [exact Hsent | exact Hall].
Defined.

(** ** The scenarios of the specification, run *)

(** A filter whose primary prompt is refused is retried with the bare
    prompt and succeeds. *)
Example scenario_filter_fallback :
  perform Sample.host Sample.refusing_world (Filter Sample.photo "vintage sepia") []
  = (Ok "data:image/png;base64,iVBORw0KGgo=",
     [[inline_part "image/jpeg" "SlBFRw=="; text_part "Apply this filter: vintage sepia"];
      [inline_part "image/jpeg" "SlBFRw=="; text_part "vintage sepia"]]).
Proof. reflexivity. Qed.

(** A decade transform without a decade in its prompt ends in the refusal
    after one request. *)
Example scenario_decade_without_token :
  perform Sample.host Sample.refusing_world
    (DecadeTransform "data:image/png;base64,iVBORw0KGgo=" "Make it look old.") []
  = (Throw (ErrorObj refusal_message),
     [[inline_part "image/png" "iVBORw0KGgo="; text_part "Make it look old."]]).
Proof. reflexivity. Qed.

(** A refused background removal is not retried. *)
Example scenario_background_removal_refused :
  length (requests_of Sample.host Sample.refusing_world
            (BackgroundRemoval Sample.photo)) = 1
  /\ result_of Sample.host Sample.refusing_world (BackgroundRemoval Sample.photo)
     = Throw (ErrorObj refusal_message).
Proof. split; reflexivity. Qed.

(** A refused fusion is not retried; its error is classified under the
    fusion label. *)
Example scenario_fusion_refused :
  length (requests_of Sample.host Sample.refusing_world
            (Fusion Sample.photo [Sample.webp] "blend them")) = 1
  /\ result_of Sample.host Sample.refusing_world
       (Fusion Sample.photo [Sample.webp] "blend them")
     = Throw (ErrorObj (during "fusion" refusal_message)).
Proof. split; vm_compute; reflexivity. Qed.

(** [JSON.parse] on a few texts. *)
Example parse_scalars :
  Json.parse " 12 " = Some (Json.Num (Json.Number false 12 0))
  /\ Json.parse "-2.50e+3" = Some (Json.Num (Json.Number true 250 1))
  /\ Json.parse "[true, null, {}]"
     = Some (Json.Arr [Json.Bool true; Json.Null; Json.Obj []])
  /\ Json.parse (dquote ++ "a\u0041\n" ++ dquote)
     = Some (Json.Str (String "a" (String "A" (String "010" EmptyString))))
  /\ Json.parse (dquote ++ "\ud83d\ude00" ++ dquote)
     = Some (Json.Str (String "240" (String "159" (String "152" (String "128" EmptyString))))).
Proof. repeat split; vm_compute; reflexivity. Qed.

Example parse_rejects :
  Json.parse "API key not valid" = None
  /\ Json.parse "undefined" = None
  /\ Json.parse EmptyString = None
  /\ Json.parse "01" = None
  /\ Json.parse "[1,]" = None
  /\ Json.parse "{} x" = None
  /\ Json.parse "tru" = None.
Proof. repeat split; vm_compute; reflexivity. Qed.

(** A later member of an object overrides an earlier one of the same
    name. *)
Example parse_duplicate_member :
  option_map (Json.get "a")
    (Json.parse ("{" ++ dquote ++ "a" ++ dquote ++ ":1," ++ dquote ++ "a" ++ dquote ++ ":2}"))
  = Some (Some (Json.Num (Json.Number false 2 0))).
Proof. vm_compute. reflexivity. Qed.

(** * More properties *)

(** ** [trim] *)

Section DropClass.
Variables (p1 : ascii -> bool) (p2 : ascii -> ascii -> bool)
          (p3 : ascii -> ascii -> ascii -> bool).

(** The members of the class do not overlap at their first bytes. *)
Hypothesis p2_not_p1 : forall c1 c2, p2 c1 c2 = true -> p1 c1 = false.
Hypothesis p3_not_p1 : forall c1 c2 c3, p3 c1 c2 c3 = true -> p1 c1 = false.
Hypothesis p3_not_p2 : forall c1 c2 c3, p3 c1 c2 c3 = true -> p2 c1 c2 = false.

Lemma drop_class_run (l : list ascii) :
  Run p1 p2 p3 l -> drop_class p1 p2 p3 l = [].
Proof.
  induction 1 as [|c l Hc _ IH|c1 c2 l Hc _ IH|c1 c2 c3 l Hc _ IH]; simpl.
  - reflexivity.
  - rewrite Hc. exact IH.
  - rewrite (p2_not_p1 _ _ Hc), Hc. exact IH.
  - rewrite (p3_not_p1 _ _ _ Hc), (p3_not_p2 _ _ _ Hc), Hc. exact IH.
Qed.

Lemma drop_class_nil_run_bounded (n : nat) (l : list ascii) :
  length l <= n -> drop_class p1 p2 p3 l = [] -> Run p1 p2 p3 l.
Proof.
  revert l. induction n as [|n IH]; intros l Hlen.
  - destruct l; [constructor | simpl in Hlen; lia].
  - destruct l as [|c1 r1]; [constructor|]. simpl in Hlen. simpl.
    destruct (p1 c1) eqn:E1.
    { intros H. apply run_1; [exact E1 | apply IH; [lia | exact H]]. }
    destruct r1 as [|c2 r2]; [discriminate|]. simpl in Hlen.
    destruct (p2 c1 c2) eqn:E2.
    { intros H. apply run_2; [exact E2 | apply IH; [lia | exact H]]. }
    destruct r2 as [|c3 r3]; [discriminate|]. simpl in Hlen.
    destruct (p3 c1 c2 c3) eqn:E3; [|discriminate].
    intros H. apply run_3; [exact E3 | apply IH; [lia | exact H]].
Qed.

Lemma drop_class_nil_iff (l : list ascii) :
  drop_class p1 p2 p3 l = [] <-> Run p1 p2 p3 l.
Proof.
  split; [apply (drop_class_nil_run_bounded (length l)); lia | apply drop_class_run].
Qed.

Lemma drop_class_idempotent_bounded (n : nat) (l : list ascii) :
  length l <= n ->
  drop_class p1 p2 p3 (drop_class p1 p2 p3 l) = drop_class p1 p2 p3 l.
Proof.
  revert l. induction n as [|n IH]; intros l Hlen.
  - destruct l; [reflexivity | simpl in Hlen; lia].
  - destruct l as [|c1 r1]; [reflexivity|]. simpl in Hlen.
    cbn [drop_class]. destruct (p1 c1) eqn:E1; [apply IH; lia|].
    destruct r1 as [|c2 r2]; [simpl; rewrite E1; reflexivity|]. simpl in Hlen.
    destruct (p2 c1 c2) eqn:E2; [apply IH; lia|].
    destruct r2 as [|c3 r3]; [simpl; rewrite E1, E2; reflexivity|]. simpl in Hlen.
    destruct (p3 c1 c2 c3) eqn:E3; [apply IH; lia|].
    simpl. rewrite E1, E2, E3. reflexivity.
Qed.

Lemma run_app (a b : list ascii) :
  Run p1 p2 p3 a -> Run p1 p2 p3 b -> Run p1 p2 p3 (a ++ b)%list.
Proof.
  intros Ha Hb. induction Ha; simpl; [exact Hb| | |]; constructor; assumption.
Qed.

End DropClass.

Lemma ws2_not_ws1 (c1 c2 : ascii) : ws2 c1 c2 = true -> ws1 c1 = false.
Proof.
  unfold ws2, ws1. intros H. apply andb_true_iff in H as [H _].
  apply N.eqb_eq in H. rewrite H. reflexivity.
Qed.

Lemma ws3_first (c1 c2 c3 : ascii) :
  ws3 c1 c2 c3 = true ->
  (N_of_ascii c1 = 225 \/ N_of_ascii c1 = 226 \/ N_of_ascii c1 = 227
   \/ N_of_ascii c1 = 239)%N
  /\ (128 <= N_of_ascii c2 <= 191)%N /\ (128 <= N_of_ascii c3 <= 191)%N.
Proof.
  unfold ws3. rewrite !orb_true_iff, !andb_true_iff, !orb_true_iff, !andb_true_iff.
  rewrite !N.eqb_eq, !N.leb_le. lia.
Qed.

Lemma ws3_not_ws1 (c1 c2 c3 : ascii) : ws3 c1 c2 c3 = true -> ws1 c1 = false.
Proof.
  intros H. apply ws3_first in H as [H _]. unfold ws1.
  destruct H as [-> | [-> | [-> | ->]]]; reflexivity.
Qed.

Lemma ws3_not_ws2 (c1 c2 c3 : ascii) : ws3 c1 c2 c3 = true -> ws2 c1 c2 = false.
Proof.
  intros H. apply ws3_first in H as [H _]. unfold ws2.
  destruct H as [-> | [-> | [-> | ->]]]; reflexivity.
Qed.

Lemma ws2_rev_not_ws1 (c1 c2 : ascii) : ws2 c2 c1 = true -> ws1 c1 = false.
Proof.
  unfold ws2, ws1. intros H. apply andb_true_iff in H as [_ H].
  apply N.eqb_eq in H. rewrite H. reflexivity.
Qed.

Lemma ws3_rev_not_ws1 (c1 c2 c3 : ascii) : ws3 c3 c2 c1 = true -> ws1 c1 = false.
Proof.
  intros H. apply ws3_first in H as (_ & _ & H). unfold ws1.
  repeat match goal with
         | |- context [(?n =? ?k)%N] =>
             destruct (N.eqb_spec n k); [lia|]
         end.
  reflexivity.
Qed.

Lemma ws3_rev_not_ws2 (c1 c2 c3 : ascii) : ws3 c3 c2 c1 = true -> ws2 c2 c1 = false.
Proof.
  intros H. apply ws3_first in H as (_ & H & _). unfold ws2.
  destruct (N.eqb_spec (N_of_ascii c2) 194); [lia | reflexivity].
Qed.

(** A run of white space read backwards is a run of the reversed
    encodings. *)
Lemma blank_rev (l : list ascii) :
  Blank l ->
  Run ws1 (fun c1 c2 => ws2 c2 c1) (fun c1 c2 c3 => ws3 c3 c2 c1) (rev l).
Proof.
  induction 1 as [|c l Hc _ IH|c1 c2 l Hc _ IH|c1 c2 c3 l Hc _ IH]; simpl.
  - constructor.
  - apply run_app; [exact IH|]. apply run_1; [exact Hc | constructor].
  - rewrite <- app_assoc. apply run_app; [exact IH|].
    apply (run_2 _ _ _ c2 c1); [exact Hc | constructor].
  - rewrite <- !app_assoc. apply run_app; [exact IH|].
    apply (run_3 _ _ _ c3 c2 c1); [exact Hc | constructor].
Qed.

Lemma rev_blank (l : list ascii) :
  Run ws1 (fun c1 c2 => ws2 c2 c1) (fun c1 c2 c3 => ws3 c3 c2 c1) l ->
  Blank (rev l).
Proof.
  induction 1 as [|c l Hc _ IH|c1 c2 l Hc _ IH|c1 c2 c3 l Hc _ IH]; simpl.
  - constructor.
  - apply run_app; [exact IH|]. apply run_1; [exact Hc | constructor].
  - rewrite <- app_assoc. apply run_app; [exact IH|].
    apply (run_2 _ _ _ c2 c1); [exact Hc | constructor].
  - rewrite <- !app_assoc. apply run_app; [exact IH|].
    apply (run_3 _ _ _ c3 c2 c1); [exact Hc | constructor].
Qed.

Lemma drop_ws_nil_iff (l : list ascii) : drop_ws l = [] <-> Blank l.
Proof.
  apply drop_class_nil_iff;
    [exact ws2_not_ws1 | exact ws3_not_ws1 | exact ws3_not_ws2].
Qed.

Lemma string_of_list_nil (l : list ascii) :
  string_of_list_ascii l = EmptyString <-> l = [].
Proof. destruct l; split; intros H; try reflexivity; discriminate. Qed.

(** [trim] leaves nothing exactly of the texts that are all white
    space. *)
Lemma trim_empty_iff (s : string) : trim s = EmptyString <-> BlankText s.
Proof.
  unfold trim, BlankText. rewrite string_of_list_nil.
  set (l := list_ascii_of_string s).
  split.
  - intros H. apply (f_equal (@rev ascii)) in H. rewrite rev_involutive in H.
    simpl in H.
    apply drop_class_nil_iff in H;
      [|exact ws2_rev_not_ws1 | exact ws3_rev_not_ws1 | exact ws3_rev_not_ws2].
    apply rev_blank in H. rewrite rev_involutive in H.
    apply drop_ws_nil_iff in H.
    unfold drop_ws in H.
    rewrite (drop_class_idempotent_bounded _ _ _ (length l) l (Nat.le_refl _)) in H.
    apply drop_ws_nil_iff. exact H.
  - intros H. apply drop_ws_nil_iff in H. rewrite H. reflexivity.
Qed.

(** ** AssetNormalizer, further *)

Lemma target_size_never_above (width height : N) :
  (fst (target_size width height) <= 2048
   /\ snd (target_size width height) <= 2048
   /\ fst (target_size width height) <= width
   /\ snd (target_size width height) <= height)%N.
Proof.
  destruct (N.le_gt_cases width 2048) as [Hw | Hw];
    destruct (N.le_gt_cases height 2048) as [Hh | Hh].
  - rewrite (target_size_in_bound _ _ Hw Hh). simpl. lia.
  - rewrite target_size_tall by lia. simpl.
    pose proof (round_div_within width height 2048 ltac:(lia) ltac:(lia)).
    pose proof (round_div_nearest (width * 2048) height ltac:(lia)) as [Hlo _].
    repeat split; try lia; nia.
  - rewrite target_size_wide by lia. simpl.
    pose proof (round_div_within height width 2048 ltac:(lia) ltac:(lia)).
    pose proof (round_div_nearest (height * 2048) width ltac:(lia)) as [Hlo _].
    repeat split; try lia; nia.
  - destruct (N.lt_ge_cases height width) as [Hwide | Htall].
    + rewrite target_size_wide by lia. simpl.
      pose proof (round_div_within height width 2048 ltac:(lia) ltac:(lia)).
      pose proof (round_div_nearest (height * 2048) width ltac:(lia)) as [Hlo _].
      repeat split; try lia; nia.
    + rewrite target_size_tall by lia. simpl.
      pose proof (round_div_within width height 2048 ltac:(lia) ltac:(lia)).
      pose proof (round_div_nearest (width * 2048) height ltac:(lia)) as [Hlo _].
      repeat split; try lia; nia.
Qed.

(** The two ways [resizeImageForApi] can fulfil. *)
Lemma resize_ok_cases (host : Host) (f : File) (out : Resized) :
  resizeImageForApi host f = Ok out ->
  (out = {| file := f; mimeType := type f |}
   /\ (naturalWidth f <= 2048)%N /\ (naturalHeight f <= 2048)%N
   /\ (type f = "image/jpeg" \/ type f = "image/png"))
  \/ (exists blob,
        out = {| file := {| name := png_name (name f);
                            type := "image/png";
                            naturalWidth := fst (target_size (naturalWidth f) (naturalHeight f));
                            naturalHeight := snd (target_size (naturalWidth f) (naturalHeight f));
                            content := blob |};
                 mimeType := "image/png" |}).
Proof.
  unfold resizeImageForApi. destruct (load host f); try discriminate.
  assert (forall o : Outcome Resized,
            (if negb (getContext2d host)
             then Throw (ErrorObj "Could not create canvas context.")
             else
               let '(newWidth, newHeight) :=
                 target_size (naturalWidth f) (naturalHeight f) in
               match toBlob host f newWidth newHeight with
               | None => Throw (ErrorObj "Failed to create blob from canvas.")
               | Some blob =>
                   Ok {| file := {| name := png_name (name f);
                                    type := "image/png";
                                    naturalWidth := newWidth;
                                    naturalHeight := newHeight;
                                    content := blob |};
                         mimeType := "image/png" |}
               end) = Ok out ->
            exists blob,
              out = {| file := {| name := png_name (name f);
                                  type := "image/png";
                                  naturalWidth := fst (target_size (naturalWidth f) (naturalHeight f));
                                  naturalHeight := snd (target_size (naturalWidth f) (naturalHeight f));
                                  content := blob |};
                       mimeType := "image/png" |}) as Hcanvas.
  { intros _. destruct (getContext2d host); simpl; [|discriminate].
    destruct (target_size (naturalWidth f) (naturalHeight f)) as [nw nh].
    destruct (toBlob host f nw nh) as [blob|]; [|discriminate].
    intros [= Hout]. exists blob. symmetry. exact Hout. }
  destruct (mem_string (type f) SUPPORTED_MIME_TYPES) eqn:Et;
    destruct ((MAX_DIMENSION <? naturalWidth f) || (MAX_DIMENSION <? naturalHeight f))%N
      eqn:Eb; cbn [negb andb];
    try (intros H; right; exact (Hcanvas (Ok out) H)).
  intros [= Hout]. left. split; [symmetry; exact Hout|].
  apply orb_false_iff in Eb as [Hw Hh]. unfold MAX_DIMENSION in *.
  apply N.ltb_ge in Hw, Hh. apply mem_supported in Et. auto.
Qed.

Lemma resize_ok_fits (host : Host) (f : File) (out : Resized) :
  resizeImageForApi host f = Ok out ->
  (mimeType out = "image/jpeg" \/ mimeType out = "image/png")
  /\ type (file out) = mimeType out
  /\ (naturalWidth (file out) <= 2048)%N
  /\ (naturalHeight (file out) <= 2048)%N.
Proof.
  intros H. apply resize_ok_cases in H as [(-> & Hw & Hh & Ht) | [blob ->]]; simpl.
  - auto.
  - pose proof (target_size_never_above (naturalWidth f) (naturalHeight f)).
    repeat split; try lia. right. reflexivity.
Qed.

(** X1.  Whatever [resizeImageForApi] returns fits the service: its type is
    image/jpeg or image/png, the mime type reported beside the file is the
    type of the file, and neither side exceeds 2048. *)
Theorem X1_normalized_asset_fits (host : Host) (f : File) (out : Resized) :
  resizeImageForApi host f = Ok out ->
  (mimeType out = "image/jpeg" \/ mimeType out = "image/png")
  /\ type (file out) = mimeType out
  /\ (naturalWidth (file out) <= 2048)%N
  /\ (naturalHeight (file out) <= 2048)%N.
Proof. exact (resize_ok_fits host f out). Qed.

Lemma X1_witness :
  exists out,
    resizeImageForApi Sample.host Sample.large_photo = Ok out
    /\ type (file out) = "image/png"
    /\ (naturalWidth (file out) <= 2048)%N
    /\ (naturalHeight (file out) <= 2048)%N.
Proof.
  eexists. split; [reflexivity|].
  destruct (X1_normalized_asset_fits Sample.host Sample.large_photo _ eq_refl)
    as (_ & Ht & Hw & Hh).
  split; [exact Ht | split; [exact Hw | exact Hh]].
Defined.

(** X2.  Normalizing is idempotent: a file that [resizeImageForApi] returned
    comes back unchanged, without another pass through the canvas, when it
    is given to it again (and the browser can load it). *)
Theorem X2_normalize_idempotent (host : Host) (f : File) (out : Resized) :
  resizeImageForApi host f = Ok out ->
  load host (file out) = Loaded ->
  resizeImageForApi host (file out) = Ok out.
Proof.
  intros H Hload.
  pose proof (resize_ok_fits host f out H) as (Hm & Ht & Hw & Hh).
  rewrite <- Ht in Hm. apply mem_supported in Hm.
  unfold resizeImageForApi. rewrite Hload, Hm. unfold MAX_DIMENSION.
  destruct (N.ltb_spec 2048 (naturalWidth (file out))); [lia|].
  destruct (N.ltb_spec 2048 (naturalHeight (file out))); [lia|].
  cbn [negb andb orb]. destruct out as [fo mo]. simpl in *. rewrite Ht. reflexivity.
Qed.

Lemma X2_witness :
  exists out,
    resizeImageForApi Sample.host Sample.webp = Ok out
    /\ resizeImageForApi Sample.host (file out) = Ok out.
Proof.
  eexists. split; [reflexivity|].
  apply (X2_normalize_idempotent Sample.host Sample.webp); reflexivity.
Defined.

(** X3.  Normalizing never enlarges: no side of the result exceeds the
    same side of the input, and an image within the bound keeps its
    size exactly (also when it is converted to PNG). *)
Theorem X3_normalize_never_enlarges (host : Host) (f : File) (out : Resized) :
  resizeImageForApi host f = Ok out ->
  (naturalWidth (file out) <= naturalWidth f)%N
  /\ (naturalHeight (file out) <= naturalHeight f)%N
  /\ ((naturalWidth f <= 2048)%N -> (naturalHeight f <= 2048)%N ->
      naturalWidth (file out) = naturalWidth f
      /\ naturalHeight (file out) = naturalHeight f).
Proof.
  intros H. apply resize_ok_cases in H as [(-> & Hw & Hh & Ht) | [blob ->]]; simpl.
  - repeat split; lia.
  - pose proof (target_size_never_above (naturalWidth f) (naturalHeight f))
      as (_ & _ & Hw & Hh).
    split; [exact Hw|]. split; [exact Hh|].
    intros Hbw Hbh. rewrite (target_size_in_bound _ _ Hbw Hbh). split; reflexivity.
Qed.

Lemma X3_witness :
  exists out,
    resizeImageForApi Sample.host Sample.webp = Ok out
    /\ naturalWidth (file out) = 512%N /\ naturalHeight (file out) = 512%N.
Proof.
  eexists. split; [reflexivity|].
  destruct (X3_normalize_never_enlarges Sample.host Sample.webp _ eq_refl)
    as (_ & _ & Hsame).
  apply Hsame; simpl; lia.
Defined.

(** [split] and [join] on a one-character separator. *)
Lemma split_on_nonempty (c : ascii) (s : string) : split_on c s <> [].
Proof.
  destruct s as [|a s]; simpl; [discriminate|].
  destruct (Ascii.eqb a c); [discriminate|].
  destruct (split_on c s); discriminate.
Qed.

Lemma join_cons_char (sep : string) (a : ascii) (w : string) (ws : list string) :
  join sep (String a w :: ws) = String a (join sep (w :: ws)).
Proof. destruct ws; reflexivity. Qed.

Lemma join_cons_cons (sep x y : string) (l : list string) :
  join sep (x :: y :: l) = x ++ sep ++ join sep (y :: l).
Proof. reflexivity. Qed.

(** Joining what was split gives the text back. *)
Lemma join_split_on (c : ascii) (s : string) :
  join (String c EmptyString) (split_on c s) = s.
Proof.
  induction s as [|a s IH]; [reflexivity|]. simpl.
  destruct (split_on c s) as [|w ws] eqn:E; [exfalso; exact (split_on_nonempty c s E)|].
  destruct (Ascii.eqb_spec a c) as [->|Hne].
  - rewrite join_cons_cons, IH. reflexivity.
  - rewrite join_cons_char, IH. reflexivity.
Qed.

Lemma split_on_app (c : ascii) (a b : string) :
  split_on c (a ++ String c b) = (split_on c a ++ split_on c b)%list.
Proof.
  induction a as [|x a IH]; simpl.
  - rewrite Ascii.eqb_refl. reflexivity.
  - destruct (Ascii.eqb x c); [rewrite IH; reflexivity|].
    rewrite IH.
    destruct (split_on c a) as [|w ws] eqn:E; [exfalso; exact (split_on_nonempty c a E)|].
    reflexivity.
Qed.

Lemma split_on_no_separator (c : ascii) (s : string) :
  ~ Occurs (String c EmptyString) s -> split_on c s = [s].
Proof.
  induction s as [|a s IH]; intros Hno; [reflexivity|]. simpl.
  destruct (Ascii.eqb_spec a c) as [->|Hne].
  - exfalso. apply Hno. exists EmptyString, s. reflexivity.
  - rewrite IH; [reflexivity|].
    intros (before & after & ->). apply Hno.
    exists (String a before), after. reflexivity.
Qed.

(** X4.  The name of a re-rendered file: a name with an extension keeps
    everything before its last dot and gets the extension [png]; a name
    without a dot, or with nothing before its last dot, becomes
    [image.png]. *)
Theorem X4_png_name (stem ext : string) :
  ~ Occurs "." ext ->
  (stem <> EmptyString -> png_name (stem ++ "." ++ ext) = stem ++ ".png")
  /\ png_name ("." ++ ext) = "image.png"
  /\ png_name ext = "image.png".
Proof.
  intros Hext.
  assert (forall s, png_name (s ++ "." ++ ext)
                    = (if String.eqb s EmptyString then "image" else s) ++ ".png")
    as Hdot.
  { intros s. unfold png_name.
    change (s ++ "." ++ ext) with (s ++ String "." ext).
    rewrite split_on_app, (split_on_no_separator "." ext Hext).
    rewrite removelast_last, join_split_on. reflexivity. }
  split; [|split].
  - intros Hne. rewrite Hdot.
    destruct (String.eqb_spec stem EmptyString); [contradiction | reflexivity].
  - exact (Hdot EmptyString).
  - unfold png_name. rewrite (split_on_no_separator "." ext Hext). reflexivity.
Qed.

Lemma X4_witness :
  png_name "holiday.photo.jpg" = "holiday.photo.png"
  /\ png_name ".jpg" = "image.png"
  /\ png_name "jpg" = "image.png".
Proof.
  destruct (X4_png_name "holiday.photo" "jpg") as (Hstem & Hhidden & Hplain).
  - apply includes_false. reflexivity.
  - split; [apply Hstem; discriminate|]. split; [exact Hhidden | exact Hplain].
Defined.

(** X5.  The canvas of a very elongated image has no pixels: for an image
    wider than 2048 the target height is 0 exactly when the width is more
    than 4096 times the height (and likewise with the sides exchanged).
    In a browser that yields no blob for such a canvas, normalizing the
    image fails with [Failed to create blob from canvas.] *)
Theorem X5_elongated_image_fails (host : Host) (f : File) :
  ((2048 < naturalWidth f)%N -> (naturalHeight f < naturalWidth f)%N ->
   (snd (target_size (naturalWidth f) (naturalHeight f)) = 0%N
    <-> (4096 * naturalHeight f < naturalWidth f)%N))
  /\ ((2048 < naturalHeight f)%N -> (naturalWidth f <= naturalHeight f)%N ->
      (fst (target_size (naturalWidth f) (naturalHeight f)) = 0%N
       <-> (4096 * naturalWidth f < naturalHeight f)%N))
  /\ (load host f = Loaded -> getContext2d host = true ->
      (forall w h, (w = 0 \/ h = 0)%N -> toBlob host f w h = None) ->
      (2048 < naturalWidth f)%N ->
      (4096 * naturalHeight f < naturalWidth f)%N ->
      resizeImageForApi host f = Throw (ErrorObj "Failed to create blob from canvas.")).
Proof.
  split; [|split].
  - intros Hw Hwide. rewrite target_size_wide by lia. simpl.
    rewrite round_div_zero_iff by lia. lia.
  - intros Hh Htall. rewrite target_size_tall by lia. simpl.
    rewrite round_div_zero_iff by lia. lia.
  - intros Hload Hctx Hblob Hw Hlong. unfold resizeImageForApi.
    rewrite Hload, Hctx. unfold MAX_DIMENSION.
    destruct (N.ltb_spec 2048 (naturalWidth f)) as [_|]; [|lia].
    cbn [orb negb andb].
    rewrite target_size_wide by lia.
    rewrite Hblob; [reflexivity|]. right.
    apply round_div_zero_iff; lia.
Qed.

Lemma X5_witness :
  snd (target_size 10000 2) = 0%N
  /\ resizeImageForApi Fixture.strict_host Fixture.strip
     = Throw (ErrorObj "Failed to create blob from canvas.").
Proof.
  destruct (X5_elongated_image_fails Fixture.strict_host Fixture.strip)
    as (Hzero & _ & Hfail).
  split.
  - apply (Hzero ltac:(reflexivity) ltac:(reflexivity)). reflexivity.
  - apply Hfail; try reflexivity.
    intros w h [-> | ->]; simpl; [reflexivity|].
    destruct (w =? 0)%N; reflexivity.
Defined.

(** X6.  Every part [fileToGenerativePart] makes of a file is an inline
    image that declares image/jpeg or image/png and carries the base64
    text of the normalized file; a file that cannot be loaded gives no
    part. *)
Theorem X6_part_declares_supported_type (host : Host) (f : File) (p : Part) :
  fileToGenerativePart host f = Ok p ->
  load host f = Loaded
  /\ exists out mime data,
       resizeImageForApi host f = Ok out
       /\ base64 host (file out) = Some data
       /\ (mime = "image/jpeg" \/ mime = "image/png")
       /\ p = {| inlineData := Some {| blob_mimeType := mime; blob_data := data |};
                 text := None |}.
Proof.
  unfold fileToGenerativePart.
  destruct (resizeImageForApi host f) as [out|t] eqn:E; [|discriminate].
  destruct (base64 host (file out)) as [data|] eqn:Eb; [|discriminate].
  intros [= <-]. split.
  - unfold resizeImageForApi in E. destruct (load host f); try discriminate. reflexivity.
  - exists out, (mimeType out), data.
    destruct (resize_ok_fits host f out E) as (Hm & _).
    split; [reflexivity|]. split; [exact Eb|]. split; [exact Hm | reflexivity].
Qed.

Lemma X6_witness :
  exists out mime data,
    resizeImageForApi Sample.host Sample.webp = Ok out
    /\ base64 Sample.host (file out) = Some data
    /\ (mime = "image/jpeg" \/ mime = "image/png")
    /\ inline_part "image/png" "PNG"
       = {| inlineData := Some {| blob_mimeType := mime; blob_data := data |};
            text := None |}.
Proof.
  exact (proj2 (X6_part_declares_supported_type Sample.host Sample.webp
                  (inline_part "image/png" "PNG") eq_refl)).
Defined.

(** ** ErrorClassifier, further *)

(** A text that begins with a character no JSON value begins with. *)
Lemma parse_bad_start (c : ascii) (s : string) :
  Json.token_step [] Json.EValue c = None -> Json.parse (String c s) = None.
Proof.
  intros H. unfold Json.parse. cbn [Json.run]. unfold Json.step.
  cbn [Json.mode Json.stack Json.want]. rewrite H. reflexivity.
Qed.

Lemma parse_during (action m : string) : Json.parse (during action m) = None.
Proof. apply parse_bad_start. reflexivity. Qed.

Lemma handleApiError_classified (host : Host) (error : Thrown) (action : string) :
  exists m, handleApiError host error action = ErrorObj m /\ Classified action m.
Proof.
  unfold handleApiError, Classified. eexists. split; [reflexivity|].
  assert (forall message,
            message = during action (message_or_unknown error) ->
            not_json_message error message = invalid_key_message
            \/ not_json_message error message = network_message
            \/ exists detail, not_json_message error message = during action detail)
    as Hcatch.
  { intros message ->.
    destruct (not_json_message_cases error (during action (message_or_unknown error)))
      as [[-> _] | [(-> & _) | (-> & _)]]; eauto. }
  destruct (Json.parse (tpl_undefined (message_of error))) as [errorObj|];
    [|exact (Hcatch _ eq_refl)].
  destruct (nested_message errorObj) as [m|]; [|eauto].
  destruct (Json.truthy m); [|eauto].
  destruct (JsonRead.to_string (Number_toString host) m) as [s|]; [eauto|].
  exact (Hcatch _ eq_refl).
Qed.

(** A classified message is no JSON text and is not empty. *)
Lemma classified_not_json (action m : string) :
  Classified action m -> Json.parse m = None /\ m <> EmptyString.
Proof.
  intros [-> | [-> | [detail ->]]].
  - split; [vm_compute; reflexivity | discriminate].
  - split; [vm_compute; reflexivity | discriminate].
  - split; [apply parse_during | discriminate].
Qed.

(** Classifying a classified message: only the patterns are looked for. *)
Lemma classify_again (host : Host) (action action' m : string) :
  Classified action m ->
  handleApiError host (ErrorObj m) action'
  = ErrorObj (if includes m "API key not valid" then invalid_key_message
              else if includes m "xhr error" then network_message
              else during action' m).
Proof.
  intros Hc. destruct (classified_not_json action m Hc) as [Hparse Hne].
  unfold handleApiError, not_json_message, message_or_unknown. simpl.
  rewrite Hparse.
  destruct (String.eqb_spec m EmptyString); [contradiction | reflexivity].
Qed.

(** X7.  A raw message that is not JSON and holds neither pattern is kept
    word for word behind the action label; with [xhr error] in it (and not
    [API key not valid]) the answer is the network message; an error
    without a message, or with an empty one, is reported as
    [Unknown communication error]. *)
Theorem X7_plain_message_classified (host : Host) (error : Thrown) (action : string) :
  (forall m,
     message_of error = Some m -> m <> EmptyString -> Json.parse m = None ->
     ~ Occurs "API key not valid" m ->
     (~ Occurs "xhr error" m ->
      handleApiError host error action
      = ErrorObj ("Error occurred during " ++ dquote ++ action ++ dquote ++ ": " ++ m))
     /\ (Occurs "xhr error" m ->
         handleApiError host error action
         = ErrorObj "Communication with AI service failed. This may be caused by network issues or an invalid API key."))
  /\ (message_of error = None \/ message_of error = Some EmptyString ->
      handleApiError host error action
      = ErrorObj ("Error occurred during " ++ dquote ++ action ++ dquote
                  ++ ": Unknown communication error")).
Proof.
  split.
  - intros m Hm Hne Hparse Hkey.
    apply includes_false in Hkey.
    unfold handleApiError, not_json_message, message_or_unknown.
    rewrite Hm. simpl. rewrite Hparse, Hkey.
    destruct (String.eqb_spec m EmptyString) as [|_]; [contradiction|].
    split; intros Hxhr.
    + apply includes_false in Hxhr. rewrite Hxhr. reflexivity.
    + apply includes_spec in Hxhr. rewrite Hxhr. reflexivity.
  - intros [Hm | Hm]; unfold handleApiError, not_json_message, message_or_unknown;
      rewrite Hm; reflexivity.
Qed.

Lemma X7_witness :
  handleApiError Sample.host (ErrorObj "quota exceeded") "texture"
  = ErrorObj ("Error occurred during " ++ dquote ++ "texture" ++ dquote
              ++ ": quota exceeded")
  /\ handleApiError Sample.host (ErrorObj "xhr error: connection reset") "texture"
     = ErrorObj network_message
  /\ handleApiError Sample.host (NonError None) "texture"
     = ErrorObj ("Error occurred during " ++ dquote ++ "texture" ++ dquote
                 ++ ": Unknown communication error").
Proof.
  split; [|split].
  - apply (proj1 (X7_plain_message_classified Sample.host
                    (ErrorObj "quota exceeded") "texture") "quota exceeded");
      try reflexivity; try discriminate; apply includes_false; reflexivity.
  - apply (proj1 (X7_plain_message_classified Sample.host
                    (ErrorObj "xhr error: connection reset") "texture")
             "xhr error: connection reset");
      try reflexivity; try discriminate;
      [apply includes_false | apply includes_spec]; reflexivity.
  - apply (proj2 (X7_plain_message_classified Sample.host (NonError None) "texture")).
    left. reflexivity.
Defined.

(** ** ResponseInterpreter and the service call, further *)

Lemma detailedError_start (candidate : option Candidate) :
  exists detail, detailedError candidate = no_result_message ++ detail.
Proof. unfold detailedError. eexists. reflexivity. Qed.

(** X8.  The outcomes of reading a response are told apart exactly: the
    refusal error is thrown for the text-only responses and no others,
    the malformed-result error for the responses without content parts
    and no others, the no-image error for the responses whose parts hold
    neither an image nor a first text, and a data URL is returned exactly
    when some part holds an image. *)
Theorem X8_outcomes_told_apart (response : GenerateContentResponse) :
  (interpretResponse response = Throw (ErrorObj refusal_message)
   <-> TextOnly response)
  /\ ((exists detail,
         interpretResponse response = Throw (ErrorObj (no_result_message ++ detail)))
      <-> NoContentParts response)
  /\ (interpretResponse response = Throw (ErrorObj no_image_message)
      <-> NoImageNoText response)
  /\ (forall url,
        interpretResponse response = Ok url
        <-> exists ps b, ContentParts response ps /\ FirstInline ps b
                         /\ url = data_url b).
Proof.
  unfold interpretResponse.
  destruct (usable_parts (first_candidate response)) as [ps|] eqn:Eparts.
  - apply usable_parts_some in Eparts.
    assert (~ NoContentParts response) as Hsome.
    { intros Hno. apply usable_parts_none in Hno.
      apply usable_parts_some in Eparts. congruence. }
    assert (forall qs, ContentParts response qs -> qs = ps) as Hsame.
    { intros qs Hq. apply usable_parts_some in Hq, Eparts. congruence. }
    destruct (first_inline ps) as [b|] eqn:Einline.
    + apply first_inline_some in Einline.
      split; [|split; [|split]].
      * split; [discriminate|]. intros (p & l & t & Hc & Hall & _).
        apply Hsame in Hc. subst ps. apply first_inline_none in Hall.
        apply first_inline_some in Einline. congruence.
      * split; [intros [d Hd]; discriminate | intros; contradiction].
      * split; [discriminate|]. intros (p & l & Hc & Hall & _).
        apply Hsame in Hc. subst ps. apply first_inline_none in Hall.
        apply first_inline_some in Einline. congruence.
      * intros url. split.
        -- intros [= <-]. exists ps, b. auto.
        -- intros (qs & b' & Hq & Hb' & ->). apply Hsame in Hq. subst qs.
           apply first_inline_some in Einline, Hb'. congruence.
    + pose proof Einline as Hnone. apply first_inline_none in Hnone.
      destruct ps as [|p l]; [destruct Eparts as [Hne _]; contradiction|].
      unfold truthy_string.
      destruct (text p) as [t|] eqn:Et;
        [destruct (String.eqb_spec t EmptyString) as [->|Hne]|]; simpl.
      * split; [|split; [|split]].
        -- split; [discriminate|]. intros (p' & l' & t' & Hc & _ & Ht' & Hne').
           apply Hsame in Hc. injection Hc as -> ->. congruence.
        -- split; [intros [d Hd]; discriminate | intros; contradiction].
        -- split; [|reflexivity]. intros _. exists p, l. auto.
        -- intros url. split; [discriminate|].
           intros (qs & b & Hq & Hb & _). apply Hsame in Hq. subst qs.
           apply first_inline_some in Hb. congruence.
      * split; [|split; [|split]].
        -- split; [|reflexivity]. intros _. exists p, l, t. auto.
        -- split; [intros [d Hd]; discriminate | intros; contradiction].
        -- split; [discriminate|]. intros (p' & l' & Hc & _ & Ht').
           apply Hsame in Hc. injection Hc as -> ->.
           destruct Ht' as [Ht' | Ht']; congruence.
        -- intros url. split; [discriminate|].
           intros (qs & b & Hq & Hb & _). apply Hsame in Hq. subst qs.
           apply first_inline_some in Hb. congruence.
      * split; [|split; [|split]].
        -- split; [discriminate|]. intros (p' & l' & t' & Hc & _ & Ht' & _).
           apply Hsame in Hc. injection Hc as -> ->. congruence.
        -- split; [intros [d Hd]; discriminate | intros; contradiction].
        -- split; [|reflexivity]. intros _. exists p, l. auto.
        -- intros url. split; [discriminate|].
           intros (qs & b & Hq & Hb & _). apply Hsame in Hq. subst qs.
           apply first_inline_some in Hb. congruence.
  - pose proof Eparts as Hno. apply usable_parts_none in Hno.
    assert (forall qs, ~ ContentParts response qs) as Hnone.
    { intros qs Hq. apply usable_parts_some in Hq. congruence. }
    destruct (detailedError_start (first_candidate response)) as [detail Hd].
    split; [|split; [|split]].
    + split.
      * rewrite Hd. discriminate.
      * intros (p & l & t & Hc & _). exfalso. exact (Hnone _ Hc).
    + split; [intros _; exact Hno|]. intros _. exists detail. rewrite Hd. reflexivity.
    + split.
      * rewrite Hd. discriminate.
      * intros (p & l & Hc & _). exfalso. exact (Hnone _ Hc).
    + intros url. split; [discriminate|].
      intros (qs & b & Hq & _). exfalso. exact (Hnone _ Hq).
Qed.

Lemma X8_witness :
  interpretResponse (Sample.text_response "I cannot edit this image.")
  = Throw (ErrorObj refusal_message).
Proof.
  apply (proj1 (X8_outcomes_told_apart
                  (Sample.text_response "I cannot edit this image."))).
  exact Sample_text_only.
Defined.

Lemma no_image_no_text_outcome (response : GenerateContentResponse) :
  NoImageNoText response ->
  interpretResponse response = Throw (ErrorObj no_image_message).
Proof.
  intros (p & ps & Hparts & Hnone & Ht).
  unfold interpretResponse.
  apply usable_parts_some in Hparts. rewrite Hparts.
  apply first_inline_none in Hnone. rewrite Hnone.
  destruct Ht as [-> | ->]; reflexivity.
Qed.

Lemma caught_no_result (host : Host) (action detail : string) :
  caught host action (ErrorObj (no_result_message ++ detail))
  = ErrorObj (no_result_message ++ detail).
Proof.
  unfold caught, rethrown.
  assert (includes (no_result_message ++ detail) "AI did not return a valid result"
          = true) as ->.
  { apply includes_spec. exists EmptyString, ("." ++ detail). reflexivity. }
  rewrite orb_true_r. reflexivity.
Qed.

Lemma caught_refusal (host : Host) (action : string) :
  caught host action (ErrorObj refusal_message) = ErrorObj refusal_message.
Proof. reflexivity. Qed.

Lemma caught_no_image (host : Host) (action : string) :
  caught host action (ErrorObj no_image_message)
  = ErrorObj (during action no_image_message).
Proof.
  unfold caught.
  assert (rethrown (ErrorObj no_image_message) = false) as -> by (vm_compute; reflexivity).
  unfold handleApiError, not_json_message, message_or_unknown.
  cbn [message_of tpl_undefined].
  assert (Json.parse no_image_message = None) as -> by (vm_compute; reflexivity).
  assert (includes no_image_message "API key not valid" = false) as ->
    by (vm_compute; reflexivity).
  assert (includes no_image_message "xhr error" = false) as ->
    by (vm_compute; reflexivity).
  reflexivity.
Qed.

(** X9.  Of the errors raised while a response is read, the
    malformed-result error and the refusal error reach the caller of
    [callImageEditingModel] exactly as raised, without the action label;
    the no-image error alone is classified and comes out behind the
    label.  A data URL is returned as it is.  In each case the request has
    been sent once. *)
Theorem X9_reading_errors_reach_caller (host : Host) (w : World)
    (request : list Part) (action : string) (log : list Request)
    (response : GenerateContentResponse) :
  getGoogleAI w log = None ->
  generateContent w log request = Returns response ->
  (NoContentParts response ->
   callImageEditingModel host w request action log
   = (Throw (ErrorObj (detailedError (first_candidate response))),
      (log ++ [request])%list))
  /\ (TextOnly response ->
      callImageEditingModel host w request action log
      = (Throw (ErrorObj refusal_message), (log ++ [request])%list))
  /\ (NoImageNoText response ->
      callImageEditingModel host w request action log
      = (Throw (ErrorObj ("Error occurred during " ++ dquote ++ action ++ dquote
                          ++ ": " ++ no_image_message)),
         (log ++ [request])%list))
  /\ (forall url,
        interpretResponse response = Ok url ->
        callImageEditingModel host w request action log
        = (Ok url, (log ++ [request])%list)).
Proof.
  intros Hclient Hreply.
  rewrite (call_with_client _ _ _ _ _ Hclient), Hreply.
  split; [|split; [|split]].
  - intros Hno. apply usable_parts_none in Hno.
    unfold interpretResponse. rewrite Hno.
    destruct (detailedError_start (first_candidate response)) as [detail ->].
    rewrite caught_no_result. reflexivity.
  - intros Htext. rewrite (text_only_refused _ Htext). reflexivity.
  - intros Hnone. rewrite (no_image_no_text_outcome _ Hnone), caught_no_image.
    reflexivity.
  - intros url ->. reflexivity.
Qed.

Lemma X9_witness :
  callImageEditingModel Sample.host Sample.refusing_world
    [text_part "Apply this filter: vintage sepia"] "filter" []
  = (Throw (ErrorObj refusal_message), [[text_part "Apply this filter: vintage sepia"]])
  /\ callImageEditingModel Sample.host Sample.refusing_world
       [text_part "vintage sepia"] "filter (fallback)"
       [[text_part "Apply this filter: vintage sepia"]]
     = (Ok "data:image/png;base64,iVBORw0KGgo=",
        [[text_part "Apply this filter: vintage sepia"]; [text_part "vintage sepia"]]).
Proof.
  split.
  - apply (proj1 (proj2 (X9_reading_errors_reach_caller Sample.host
                           Sample.refusing_world
                           [text_part "Apply this filter: vintage sepia"] "filter" []
                           (Sample.text_response "I cannot edit this image.")
                           eq_refl eq_refl))).
    exact Sample_text_only.
  - apply (proj2 (proj2 (proj2 (X9_reading_errors_reach_caller Sample.host
                                  Sample.refusing_world
                                  [text_part "vintage sepia"] "filter (fallback)"
                                  [[text_part "Apply this filter: vintage sepia"]]
                                  Sample.image_response eq_refl eq_refl)))).
    reflexivity.
Defined.

(** ** Fusion, further *)

(** A fusion whose images are all preprocessed is one call of the
    service, with its error classified once more. *)
Lemma fusion_run (host : Host) (w : World) (mainImage : File)
    (sourceImages : list File) (prompt : string)
    (mainPart : Part) (sourceParts : list Part) (log : list Request) :
  fileToGenerativePart host mainImage = Ok mainPart ->
  Forall2 (fun f p => fileToGenerativePart host f = Ok p) sourceImages sourceParts ->
  generateFusedImage host w mainImage sourceImages prompt log
  = try_catch
      (callImageEditingModel host w
         (mainPart :: sourceParts
          ++ [text_part (fusion_text (length sourceImages) prompt)])%list "合成")
      (fun e => throw (handleApiError host e "fusion")) log.
Proof.
  intros Hmain Hsources.
  assert (Forall InlineImage sourceParts) as Hinline.
  { clear -Hsources. induction Hsources as [|f p fs ps Hfp _ IH]; constructor;
      [exact (part_is_inline host f p Hfp) | exact IH]. }
  assert (length sourceParts = length sourceImages) as Hlen
    by (symmetry; exact (Forall2_length _ _ _ Hsources)).
  unfold generateFusedImage, try_catch.
  unfold bind at 1, await at 1. rewrite Hmain.
  unfold bind at 1, await at 1.
  rewrite (tasks_all_ok host sourceImages sourceParts Hsources).
  rewrite promise_all_ok.
  2:{ rewrite length_imap, Hlen. apply completion_order_perm. }
  rewrite strip_index; [|reflexivity|exact Hinline].
  unfold fusion_prompt.
  rewrite (fold_left_labels sourceParts _ 0) by reflexivity.
  unfold fusion_text. rewrite Hlen, append_assoc. reflexivity.
Qed.

(** X10.  A failed fusion is classified twice, first under the label of
    the call and then under [fusion].  So a refusal, which the other
    operations pass on bare, comes out behind the fusion label; and an
    error that the first classification words with [API key not valid],
    such as a service error with that nested message, ends in the
    invalid-key message. *)
Theorem X10_fusion_classified_twice (host : Host) (w : World) (mainImage : File)
    (sourceImages : list File) (prompt : string)
    (mainPart : Part) (sourceParts : list Part) :
  fileToGenerativePart host mainImage = Ok mainPart ->
  Forall2 (fun f p => fileToGenerativePart host f = Ok p) sourceImages sourceParts ->
  getGoogleAI w [] = None ->
  (forall e,
     generateContent w []
       (mainPart :: sourceParts
        ++ [text_part (fusion_text (length sourceImages) prompt)])%list = Throws e ->
     result_of host w (Fusion mainImage sourceImages prompt)
     = Throw (handleApiError host (caught host "合成" e) "fusion")
     /\ (rethrown e = false ->
         forall m, caught host "合成" e = ErrorObj m ->
                   Occurs "API key not valid" m ->
                   result_of host w (Fusion mainImage sourceImages prompt)
                   = Throw (ErrorObj invalid_key_message)))
  /\ (forall response,
        generateContent w []
          (mainPart :: sourceParts
           ++ [text_part (fusion_text (length sourceImages) prompt)])%list
        = Returns response ->
        TextOnly response ->
        result_of host w (Fusion mainImage sourceImages prompt)
        = Throw (ErrorObj ("Error occurred during " ++ dquote ++ "fusion" ++ dquote
                           ++ ": " ++ refusal_message))).
Proof.
  intros Hmain Hsources Hclient.
  unfold result_of, perform.
  rewrite (fusion_run host w mainImage sourceImages prompt mainPart sourceParts []
             Hmain Hsources).
  unfold try_catch. rewrite (call_with_client _ _ _ _ _ Hclient).
  split.
  - intros e ->. simpl. split; [reflexivity|].
    intros Hnot m Hm Hkey. rewrite Hm.
    assert (Classified "合成" m) as Hc.
    { unfold caught in Hm. rewrite Hnot in Hm.
      destruct (handleApiError_classified host e "合成") as (m' & Hm' & Hc).
      congruence. }
    rewrite (classify_again host "合成" "fusion" m Hc).
    apply includes_spec in Hkey. rewrite Hkey. reflexivity.
  - intros response -> Htext. rewrite (text_only_refused _ Htext). reflexivity.
Qed.

Lemma X10_witness :
  result_of Sample.host (Fixture.throwing_world (ErrorObj Sample.nested_key_error))
    (Fusion Sample.photo [Sample.webp] "blend them")
  = Throw (ErrorObj invalid_key_message).
Proof.
  refine (proj2 (proj1 (X10_fusion_classified_twice Sample.host
                          (Fixture.throwing_world (ErrorObj Sample.nested_key_error))
                          Sample.photo
                          [Sample.webp] "blend them"
                          (inline_part "image/jpeg" "SlBFRw==")
                          [inline_part "image/png" "PNG"] _ _ _)
                   (ErrorObj Sample.nested_key_error) _) _
            ("Error occurred during " ++ dquote ++ "合成" ++ dquote
             ++ ": API key not valid") _ _).
  - reflexivity.
  - constructor; [reflexivity | constructor].
  - reflexivity.
  - reflexivity.
  - reflexivity.
  - vm_compute. reflexivity.
  - apply includes_spec. vm_compute. reflexivity.
Defined.

(** ** The operations with a fallback, further *)

Lemma includes_skip_char (c a : ascii) (needle s : string) :
  Ascii.eqb c a = false ->
  includes (String a s) (String c needle) = includes s (String c needle).
Proof. intros H. rewrite includes_unfold. simpl. rewrite H. reflexivity. Qed.

(** A text that begins with [c] cannot start inside a prefix without
    [c]. *)
Lemma includes_skip_prefix (c : ascii) (needle prefix s : string) :
  lacks c prefix = true ->
  includes (prefix ++ s) (String c needle) = includes s (String c needle).
Proof.
  unfold lacks. induction prefix as [|a p IH]; intros H; [reflexivity|].
  simpl in H. apply negb_true_iff, orb_false_iff in H as [Ha Hp].
  change (String a p ++ s) with (String a (p ++ s)).
  rewrite (includes_skip_char c a _ _ Ha). apply IH.
  apply negb_true_iff. exact Hp.
Qed.

Lemma lacks_app (c : ascii) (a b : string) :
  lacks c (a ++ b) = (lacks c a && lacks c b)%bool.
Proof.
  unfold lacks. induction a as [|x a IH]; simpl.
  - reflexivity.
  - destruct (Ascii.eqb c x); simpl; [reflexivity | exact IH].
Qed.

(** The label of a classified message does not make it look like a
    refusal. *)
Lemma labelled_not_refusal (action m : string) :
  lacks "M" action = true ->
  includes m "Model responded with text instead of an image" = false ->
  responded_with_text (ErrorObj (during action m)) = false.
Proof.
  intros Haction Hm. unfold responded_with_text, during.
  replace ("Error occurred during " ++ dquote ++ action ++ dquote ++ ": " ++ m)
    with (("Error occurred during " ++ dquote ++ action ++ dquote ++ ": ") ++ m)
    by (rewrite !append_assoc; reflexivity).
  rewrite includes_skip_prefix; [exact Hm|].
  rewrite !lacks_app, Haction. reflexivity.
Qed.

Lemma marker_needs_short_marker (m : string) :
  ~ Occurs "Model responded with text" m ->
  includes m "Model responded with text instead of an image" = false.
Proof.
  intros Hno. apply includes_false. intros Hocc. apply Hno.
  apply (occurs_shorter _ "Model responded with text instead of an image" m);
    [|exact Hocc].
  exists EmptyString, " instead of an image". reflexivity.
Qed.

(** A failure that is not JSON and does not quote the refusal is not
    taken for a refusal, however it is classified. *)
Lemma plain_failure_not_refusal (host : Host) (action : string) (e : Thrown) :
  lacks "M" action = true ->
  Json.parse (tpl_undefined (message_of e)) = None ->
  ~ Occurs "Model responded with text" (tpl_undefined (message_of e)) ->
  responded_with_text (caught host action e) = false.
Proof.
  intros Haction Hparse Hno.
  pose proof (marker_needs_short_marker _ Hno) as Hmarker.
  unfold caught.
  destruct (rethrown e) eqn:Er.
  - destruct e as [m|m]; [|discriminate]. exact Hmarker.
  - unfold handleApiError. rewrite Hparse. unfold not_json_message.
    destruct (includes _ "API key not valid"); [reflexivity|].
    destruct (includes _ "xhr error"); [reflexivity|].
    apply labelled_not_refusal; [exact Haction|].
    unfold message_or_unknown.
    destruct (message_of e) as [m|]; [|reflexivity].
    destruct (String.eqb m EmptyString); [reflexivity | exact Hmarker].
Qed.

(** X11.  The filter, style, adjustment and texture operations: an image
    in the first response is the result, after one request.  After a
    refusal the second request carries the same image part and, as its
    text, the prompt of the user without the prefix; what that attempt
    ends in is the result, and no third request follows. *)
Theorem X11_prefixed_operation_protocol (host : Host) (w : World)
    (prefix action : string) (f : File) (prompt : string)
    (part : Part) (response : GenerateContentResponse) :
  fileToGenerativePart host f = Ok part ->
  getGoogleAI w [] = None ->
  generateContent w [] [part; text_part (prefix ++ prompt)] = Returns response ->
  (forall url,
     interpretResponse response = Ok url ->
     prefixed_with_fallback host w prefix action f prompt []
     = (Ok url, [[part; text_part (prefix ++ prompt)]]))
  /\ (TextOnly response ->
      prefixed_with_fallback host w prefix action f prompt []
      = callImageEditingModel host w [part; text_part prompt]
          (action ++ " (fallback)") [[part; text_part (prefix ++ prompt)]]
      /\ (getGoogleAI w [[part; text_part (prefix ++ prompt)]] = None ->
          snd (prefixed_with_fallback host w prefix action f prompt [])
          = [[part; text_part (prefix ++ prompt)]; [part; text_part prompt]])).
Proof.
  intros Hpart Hclient Hreply.
  rewrite prefixed_with_fallback_shape, Hpart. unfold with_retry, try_catch.
  rewrite (call_with_client _ _ _ _ _ Hclient), Hreply.
  split.
  - intros url ->. reflexivity.
  - intros Htext. rewrite (text_only_refused _ Htext).
    rewrite caught_refusal.
    assert (responded_with_text (ErrorObj refusal_message) = true) as ->
      by reflexivity.
    split; [reflexivity|].
    intros Hclient2. rewrite (call_with_client _ _ _ _ _ Hclient2). reflexivity.
Qed.

Lemma X11_witness :
  generateFilteredImage Sample.host Sample.refusing_world Sample.photo "vintage sepia" []
  = callImageEditingModel Sample.host Sample.refusing_world
      [inline_part "image/jpeg" "SlBFRw=="; text_part "vintage sepia"]
      "filter (fallback)"
      [[inline_part "image/jpeg" "SlBFRw=="; text_part "Apply this filter: vintage sepia"]].
Proof.
  refine (proj1 (proj2 (X11_prefixed_operation_protocol Sample.host
                          Sample.refusing_world "Apply this filter: " "filter"
                          Sample.photo "vintage sepia"
                          (inline_part "image/jpeg" "SlBFRw==")
                          (Sample.text_response "I cannot edit this image.")
                          _ _ _) _)).
  - reflexivity.
  - reflexivity.
  - reflexivity.
  - exact Sample_text_only.
Defined.

(** X12.  A failure of the service call whose message is not JSON and does
    not quote the refusal text is never retried by the filter, style,
    adjustment and texture operations: one request is sent and the error,
    classified, is the result. *)
Theorem X12_plain_failure_not_retried (host : Host) (w : World)
    (prefix action : string) (f : File) (prompt : string)
    (part : Part) (e : Thrown) :
  lacks "M" action = true ->
  fileToGenerativePart host f = Ok part ->
  getGoogleAI w [] = None ->
  generateContent w [] [part; text_part (prefix ++ prompt)] = Throws e ->
  Json.parse (tpl_undefined (message_of e)) = None ->
  ~ Occurs "Model responded with text" (tpl_undefined (message_of e)) ->
  prefixed_with_fallback host w prefix action f prompt []
  = (Throw (caught host action e), [[part; text_part (prefix ++ prompt)]])
  /\ exists m, caught host action e = ErrorObj m.
Proof.
  intros Haction Hpart Hclient Hreply Hparse Hno.
  rewrite prefixed_with_fallback_shape, Hpart. unfold with_retry, try_catch.
  rewrite (call_with_client _ _ _ _ _ Hclient), Hreply.
  rewrite (plain_failure_not_refusal host action e Haction Hparse Hno).
  split; [reflexivity | apply caught_is_error].
Qed.

Lemma X12_witness :
  generateStyledImage Sample.host
    (Fixture.throwing_world (ErrorObj "xhr error: connection reset"))
    Sample.photo "oil painting" []
  = (Throw (ErrorObj network_message),
     [[inline_part "image/jpeg" "SlBFRw==";
       text_part "Apply this artistic style: oil painting"]]).
Proof.
  refine (proj1 (X12_plain_failure_not_retried Sample.host
                   (Fixture.throwing_world (ErrorObj "xhr error: connection reset"))
                   "Apply this artistic style: " "apply style"
                   Sample.photo "oil painting"
                   (inline_part "image/jpeg" "SlBFRw==")
                   (ErrorObj "xhr error: connection reset") _ _ _ _ _ _));
    try reflexivity.
  apply includes_false. reflexivity.
Defined.

(** ** Decade transform, further *)

Lemma decade_here_not_digit (c : ascii) (s : string) :
  is_digit c = false -> decade_here (String c s) = None.
Proof.
  intros H. unfold decade_here.
  destruct s as [|b [|c' [|d [|e r]]]]; try reflexivity.
  rewrite H. reflexivity.
Qed.

Lemma extractDecade_skip (prefix s : string) :
  forallb (fun c => negb (is_digit c)) (list_ascii_of_string prefix) = true ->
  extractDecade (prefix ++ s) = extractDecade s.
Proof.
  induction prefix as [|c p IH]; intros H; [reflexivity|].
  simpl in H. apply andb_true_iff in H as [Hc Hp]. apply negb_true_iff in Hc.
  change (String c p ++ s) with (String c (p ++ s)).
  rewrite extractDecade_unfold, (decade_here_not_digit _ _ Hc). exact (IH Hp).
Qed.

(** X13.  The fallback prompt names its decade first: [extractDecade] reads
    back from [getFallbackPrompt decade] the decade it was written
    with. *)
Theorem X13_fallback_prompt_round_trip (decade : string) :
  DecadeToken decade -> extractDecade (getFallbackPrompt decade) = Some decade.
Proof.
  intros Htoken. unfold getFallbackPrompt.
  rewrite extractDecade_skip by reflexivity.
  rewrite extractDecade_unfold.
  assert (decade_here (decade ++ ". The photograph should capture the distinct fashion, hairstyles, and overall atmosphere of that time period. Ensure the final image is a clear photograph that looks authentic to the era.")
          = Some decade) as ->; [|reflexivity].
  apply decade_here_spec. split; [exact Htoken | eexists; reflexivity].
Qed.

Lemma X13_witness : extractDecade (getFallbackPrompt "1970s") = Some "1970s".
Proof.
  apply X13_fallback_prompt_round_trip.
  exists "1"%char, "9"%char, "7"%char, "0"%char. repeat split; reflexivity.
Defined.

(** X14.  The data URL of an image a successful edit returns is taken
    apart by the pattern of the decade transform into the type and the
    data of that image exactly when the type is [image/] followed by word
    characters and the data is one line; the transform then sends that
    very image back to the service as the first part of its request. *)
Theorem X14_edit_result_into_decade (host : Host) (w : World) (b : Blob)
    (prompt : string) (log : list Request) :
  (ImageSubtype (blob_mimeType b) /\ OneLine (blob_data b) ->
   match_data_url (data_url b) = Some (blob_mimeType b, blob_data b)
   /\ (getGoogleAI w log = None ->
       exists rest,
         snd (generateDecadeImage host w (data_url b) prompt log)
         = (log ++ [ {| inlineData := Some b; text := None |}; text_part prompt ]
                :: rest)%list))
  /\ (~ ImageSubtype (blob_mimeType b) \/ ~ OneLine (blob_data b) ->
      match_data_url (data_url b) <> Some (blob_mimeType b, blob_data b)).
Proof.
  split.
  - intros [(word & Hmime & Hne & Hword) Hline].
    assert (match_data_url (data_url b) = Some (blob_mimeType b, blob_data b)) as Hm.
    { apply match_data_url_spec. exists word. auto. }
    split; [exact Hm|]. intros Hclient.
    rewrite generateDecadeImage_shape, Hm.
    destruct (with_retry_requests host w
                [inline_part (blob_mimeType b) (blob_data b); text_part prompt]
                ("generate " ++ tpl_null (extractDecade prompt) ++ " image")
                (decade_fallback (inline_part (blob_mimeType b) (blob_data b)) prompt)
                log) as (sent & Hsent & _ & _ & _ & Hfirst).
    destruct (Hfirst Hclient) as [rest ->]. exists rest.
    rewrite Hsent. destruct b; reflexivity.
  - intros Hbad Hm. apply match_data_url_spec in Hm.
    destruct Hm as (word & Hne & Hword & Hmime & _ & Hline).
    destruct Hbad as [Hbad | Hbad]; apply Hbad; [exists word; auto | exact Hline].
Qed.

Lemma X14_witness :
  match_data_url
    (data_url {| blob_mimeType := "image/png"; blob_data := "iVBORw0KGgo=" |})
  = Some ("image/png", "iVBORw0KGgo=")
  /\ match_data_url
       (data_url {| blob_mimeType := "image/svg+xml"; blob_data := "PHN2Zz4=" |})
     <> Some ("image/svg+xml", "PHN2Zz4=").
Proof.
  split.
  - apply (proj1 (X14_edit_result_into_decade Sample.host Sample.refusing_world
                    {| blob_mimeType := "image/png"; blob_data := "iVBORw0KGgo=" |}
                    "Reimagine the person in the 1970s." [])).
    split.
    + exists "png". repeat split; [discriminate].
    + apply one_line_spec. reflexivity.
  - apply (proj2 (X14_edit_result_into_decade Sample.host Sample.refusing_world
                    {| blob_mimeType := "image/svg+xml"; blob_data := "PHN2Zz4=" |}
                    "Reimagine the person in the 1970s." [])).
    left. intros (word & Hmime & _ & Hword).
    injection Hmime as <-. discriminate Hword.
Defined.

(** ** Fusion: a source image that cannot be preprocessed *)

Lemma settle_rejects {A} (results : list (Outcome A)) (order : list nat)
    (slots : list (option A)) :
  (exists i t, i ∈ order /\ results !! i = Some (Throw t)) ->
  exists i t, i ∈ order /\ results !! i = Some (Throw t)
              /\ settle results order slots = Throw t.
Proof.
  revert slots. induction order as [|i0 order IH]; intros slots (i & t & Hin & Hi).
  - apply elem_of_nil in Hin. contradiction.
  - simpl. destruct (results !! i0) as [[v|t0]|] eqn:E0.
    + assert (i ∈ order) as Hin'.
      { apply elem_of_cons in Hin as [-> | Hin]; [congruence | exact Hin]. }
      destruct (IH (<[i0 := Some v]> slots) (ex_intro _ i (ex_intro _ t (conj Hin' Hi))))
        as (j & tj & Hj & Hrj & Hs).
      exists j, tj. split; [apply elem_of_cons; right; exact Hj | auto].
    + exists i0, t0. split; [apply elem_of_cons; left; reflexivity | auto].
    + assert (i ∈ order) as Hin'.
      { apply elem_of_cons in Hin as [-> | Hin]; [congruence | exact Hin]. }
      destruct (IH slots (ex_intro _ i (ex_intro _ t (conj Hin' Hi))))
        as (j & tj & Hj & Hrj & Hs).
      exists j, tj. split; [apply elem_of_cons; right; exact Hj | auto].
Qed.

(** X15.  A fusion sends nothing when an image cannot be preprocessed.  The
    error of the main image, or else the error of one of the failing
    source images, is classified under [fusion] and is the result. *)
Theorem X15_fusion_preprocessing_failure (host : Host) (w : World)
    (mainImage : File) (sourceImages : list File) (prompt : string) :
  (forall t,
     fileToGenerativePart host mainImage = Throw t ->
     perform host w (Fusion mainImage sourceImages prompt) []
     = (Throw (handleApiError host t "fusion"), []))
  /\ (forall mainPart,
        fileToGenerativePart host mainImage = Ok mainPart ->
        Exists (fun f => exists t, fileToGenerativePart host f = Throw t) sourceImages ->
        exists f t,
          In f sourceImages
          /\ fileToGenerativePart host f = Throw t
          /\ perform host w (Fusion mainImage sourceImages prompt) []
             = (Throw (handleApiError host t "fusion"), [])).
Proof.
  split.
  - intros t Hmain. unfold perform, generateFusedImage, try_catch, bind, await.
    rewrite Hmain. reflexivity.
  - intros mainPart Hmain Hfail.
    assert (exists i t, i ∈ completion_order w (length sourceImages)
                        /\ imap (indexed_task host) sourceImages !! i = Some (Throw t))
      as Hex.
    { apply Exists_exists in Hfail as (f & Hf & t & Ht).
      apply list_elem_of_lookup in Hf as [i Hi].
      exists i, t. split.
      - rewrite completion_order_perm. apply elem_of_seq.
        apply lookup_lt_Some in Hi. lia.
      - rewrite list_lookup_imap, Hi. simpl. unfold indexed_task. rewrite Ht.
        reflexivity. }
    destruct (settle_rejects _ _
                (replicate (length (imap (indexed_task host) sourceImages)) None) Hex)
      as (i & t & _ & Hi & Hsettle).
    rewrite list_lookup_imap in Hi.
    destruct (sourceImages !! i) as [f|] eqn:Ef; [|discriminate].
    simpl in Hi. unfold indexed_task in Hi.
    destruct (fileToGenerativePart host f) as [p|t'] eqn:Eft; [discriminate|].
    injection Hi as ->.
    exists f, t. split.
    { apply list_elem_of_In. apply list_elem_of_lookup. eauto. }
    split; [exact Eft|].
    unfold perform, generateFusedImage, try_catch.
    unfold bind at 1, await at 1. rewrite Hmain.
    unfold bind at 1, await at 1. unfold promise_all. rewrite Hsettle.
    reflexivity.
Qed.

Lemma X15_witness :
  exists f t,
    In f [Sample.webp; Sample.photo]
    /\ fileToGenerativePart Fixture.picky_host f = Throw t
    /\ perform Fixture.picky_host Sample.refusing_world
         (Fusion Sample.photo [Sample.webp; Sample.photo] "blend them") []
       = (Throw (handleApiError Fixture.picky_host t "fusion"), []).
Proof.
  refine (proj2 (X15_fusion_preprocessing_failure Fixture.picky_host
                   Sample.refusing_world Sample.photo
                   [Sample.webp; Sample.photo] "blend them")
            (inline_part "image/jpeg" "SlBFRw==") _ _).
  - reflexivity.
  - constructor. eexists. reflexivity.
Defined.

(** ** Without a client *)

Lemma call_no_client_log (host : Host) (w : World) (request : list Part)
    (action : string) (log : list Request) :
  (forall l, getGoogleAI w l <> None) ->
  snd (callImageEditingModel host w request action log) = log.
Proof.
  intros Hno. destruct (getGoogleAI w log) as [m|] eqn:E.
  - rewrite (call_without_client _ _ _ _ _ _ E). reflexivity.
  - exfalso. exact (Hno log E).
Qed.

Lemma with_retry_no_client_log (host : Host) (w : World) (primary : list Part)
    (action : string) (fallback : option (list Part * string)) (log : list Request) :
  (forall l, getGoogleAI w l <> None) ->
  snd (with_retry host w primary action fallback log) = log.
Proof.
  intros Hno. unfold with_retry, try_catch.
  pose proof (call_no_client_log host w primary action log Hno) as H1.
  destruct (callImageEditingModel host w primary action log) as [[url|e] log1];
    simpl in H1; subst log1; [reflexivity|].
  destruct (responded_with_text e); [|reflexivity].
  destruct fallback as [[request action']|]; [|reflexivity].
  apply call_no_client_log. exact Hno.
Qed.

Lemma caught_key_not_found (host : Host) (action : string) :
  caught host action (ErrorObj api_key_not_found)
  = ErrorObj (during action api_key_not_found).
Proof.
  unfold caught.
  assert (rethrown (ErrorObj api_key_not_found) = false) as ->
    by (vm_compute; reflexivity).
  unfold handleApiError, not_json_message, message_or_unknown.
  cbn [message_of tpl_undefined].
  assert (Json.parse api_key_not_found = None) as -> by (vm_compute; reflexivity).
  assert (includes api_key_not_found "API key not valid" = false) as ->
    by (vm_compute; reflexivity).
  assert (includes api_key_not_found "xhr error" = false) as ->
    by (vm_compute; reflexivity).
  reflexivity.
Qed.

(** X16.  While the client cannot be obtained, no operation sends anything
    to the service.  When the reason is that no key is configured, every
    call ends in the key-not-found message behind its action label. *)
Theorem X16_no_client_no_request (host : Host) (w : World) :
  (forall l, getGoogleAI w l <> None) ->
  (forall op, requests_of host w op = [])
  /\ ((forall l, getGoogleAI w l = Some api_key_not_found) ->
      forall request action log,
        callImageEditingModel host w request action log
        = (Throw (ErrorObj ("Error occurred during " ++ dquote ++ action ++ dquote
                            ++ ": " ++ api_key_not_found)), log)).
Proof.
  intros Hno. split.
  - intros op. unfold requests_of.
    destruct op as [f p x y | f p | f p | f p | f p | f | mainImage srcs p | url p];
      unfold perform.
    + unfold generateEditedImage, bind, await.
      destruct (fileToGenerativePart host f); [|reflexivity].
      apply call_no_client_log. exact Hno.
    + unfold generateFilteredImage. rewrite prefixed_with_fallback_shape.
      destruct (fileToGenerativePart host f); [|reflexivity].
      apply with_retry_no_client_log. exact Hno.
    + unfold generateAdjustedImage. rewrite prefixed_with_fallback_shape.
      destruct (fileToGenerativePart host f); [|reflexivity].
      apply with_retry_no_client_log. exact Hno.
    + unfold generateTexturedImage. rewrite prefixed_with_fallback_shape.
      destruct (fileToGenerativePart host f); [|reflexivity].
      apply with_retry_no_client_log. exact Hno.
    + unfold generateStyledImage. rewrite prefixed_with_fallback_shape.
      destruct (fileToGenerativePart host f); [|reflexivity].
      apply with_retry_no_client_log. exact Hno.
    + unfold removeBackgroundImage, bind, await.
      destruct (fileToGenerativePart host f); [|reflexivity].
      apply call_no_client_log. exact Hno.
    + unfold generateFusedImage. rewrite catch_and_throw_log.
      unfold bind, await.
      destruct (fileToGenerativePart host mainImage); [|reflexivity].
      destruct (promise_all _ _); [|reflexivity].
      apply call_no_client_log. exact Hno.
    + rewrite generateDecadeImage_shape.
      destruct (match_data_url url) as [[mime payload]|]; [|reflexivity].
      apply with_retry_no_client_log. exact Hno.
  - intros Hkey request action log.
    rewrite (call_without_client _ _ _ _ _ _ (Hkey log)), caught_key_not_found.
    reflexivity.
Qed.

Lemma X16_witness :
  requests_of Sample.host Fixture.keyless_world (Filter Sample.photo "vintage sepia")
  = []
  /\ callImageEditingModel Sample.host Fixture.keyless_world
       [text_part "vintage sepia"] "filter" []
     = (Throw (ErrorObj ("Error occurred during " ++ dquote ++ "filter" ++ dquote
                         ++ ": " ++ api_key_not_found)), []).
Proof.
  assert (forall l, getGoogleAI Fixture.keyless_world l <> None) as Hno
    by (intros l; discriminate).
  destruct (X16_no_client_no_request Sample.host Fixture.keyless_world Hno)
    as [Hnone Hkey].
  split; [apply Hnone|]. apply Hkey. reflexivity.
Defined.

(** ** ServiceClient *)

Lemma blank_text_empty : BlankText EmptyString.
Proof. constructor. Qed.

Lemma stored_item_spec (settings : Settings) (key : string) :
  stored_item settings key
  = match stored settings key with
    | Some v => if String.eqb (trim v) EmptyString then None else Some v
    | None => None
    end.
Proof.
  unfold stored_item, stored.
  destruct (localStorage settings) as [getItem|]; [|reflexivity].
  destruct (getItem key) as [v|]; [|reflexivity].
  destruct (String.eqb_spec v EmptyString) as [->|Hne]; simpl.
  - reflexivity.
  - destruct (String.eqb (trim v) EmptyString); reflexivity.
Qed.

(** X17.  The key: a stored key that is not blank is used exactly as
    stored, white space around it included; when nothing is stored, the
    stored key is empty or all white space, or the storage cannot be read,
    the key of the environment is used, unless it is empty.  The base URL:
    a stored URL that is not blank is used trimmed; otherwise there is
    none. *)
Theorem X17_settings_resolution (settings : Settings) :
  (forall v,
     stored settings "gemini-api-key" = Some v -> ~ BlankText v ->
     getApiKey settings = Some v)
  /\ (stored settings "gemini-api-key" = None
      \/ (exists v, stored settings "gemini-api-key" = Some v /\ BlankText v) ->
      getApiKey settings = environment_key settings)
  /\ (forall v,
        stored settings "gemini-base-url" = Some v -> ~ BlankText v ->
        getBaseUrl settings = Some (trim v) /\ trim v <> EmptyString)
  /\ (stored settings "gemini-base-url" = None
      \/ (exists v, stored settings "gemini-base-url" = Some v /\ BlankText v) ->
      getBaseUrl settings = None).
Proof.
  unfold getApiKey, getBaseUrl, environment_key. rewrite !stored_item_spec.
  split; [|split; [|split]].
  - intros v -> Hv.
    destruct (String.eqb_spec (trim v) EmptyString) as [E|_]; [|reflexivity].
    apply trim_empty_iff in E. contradiction.
  - intros [-> | (v & -> & Hv)]; [reflexivity|].
    apply trim_empty_iff in Hv. rewrite Hv. reflexivity.
  - intros v -> Hv.
    destruct (String.eqb_spec (trim v) EmptyString) as [E|Hne].
    + apply trim_empty_iff in E. contradiction.
    + split; [reflexivity | exact Hne].
  - intros [-> | (v & -> & Hv)]; [reflexivity|].
    apply trim_empty_iff in Hv. rewrite Hv. reflexivity.
Qed.

Lemma X17_witness :
  getApiKey Fixture.padded_settings = Some " AIza-user-key "
  /\ getApiKey Fixture.blank_settings = Some "AIza-env-key"
  /\ getBaseUrl Fixture.padded_settings = Some "https://proxy.example/v1"
  /\ getBaseUrl Fixture.blank_settings = None.
Proof.
  destruct (X17_settings_resolution Fixture.padded_settings) as (Hkey & _ & Hurl & _).
  destruct (X17_settings_resolution Fixture.blank_settings) as (_ & Henv & _ & Hnone).
  split; [|split; [|split]].
  - apply Hkey; [reflexivity|]. intros Hb. apply trim_empty_iff in Hb. discriminate Hb.
  - apply Henv. right. exists "   ". split; [reflexivity|].
    apply trim_empty_iff. reflexivity.
  - apply (Hurl "  https://proxy.example/v1 "); [reflexivity|].
    intros Hb. apply trim_empty_iff in Hb. discriminate Hb.
  - apply Hnone. left. reflexivity.
Defined.

Lemma option_string_eqb_eq (a b : option string) :
  option_string_eqb a b = true <-> a = b.
Proof.
  destruct a as [x|], b as [y|]; simpl; try (split; [discriminate | discriminate]).
  - rewrite String.eqb_eq. split; congruence.
  - split; reflexivity.
Qed.

Lemma settings_unchanged (cache : ClientCache) (key : string) (baseUrl : option string) :
  settings_changed cache key baseUrl = false
  <-> lastUsedApiKey cache = Some key /\ lastUsedBaseUrl cache = Some baseUrl.
Proof.
  unfold settings_changed. rewrite orb_false_iff, !negb_false_iff.
  rewrite option_string_eqb_eq.
  destruct (lastUsedBaseUrl cache) as [last|].
  - rewrite option_string_eqb_eq. split; intros [H1 H2]; split; congruence.
  - split; intros [H1 H2]; [discriminate | discriminate].
Qed.

Lemma build_client_step (construct : ClientConfig -> nat -> option ConstructorFailure)
    (cache : ClientCache) (key : string) (baseUrl : option string)
    (o : Outcome Client) (cache' : ClientCache) :
  build_client construct cache key baseUrl = (o, cache') ->
  CacheCoherent cache'
  /\ constructions cache' = S (constructions cache)
  /\ (forall c, o = Ok c ->
                client_config c = config_of key baseUrl
                /\ aiInstance cache' = Some c
                /\ lastUsedApiKey cache' = Some key
                /\ lastUsedBaseUrl cache' = Some baseUrl)
  /\ (forall t, o = Throw t -> aiInstance cache' = None).
Proof.
  unfold build_client.
  destruct (construct (config_of key baseUrl) (constructions cache)) as [failure|];
    intros [= <- <-]; unfold CacheCoherent; simpl.
  - split; [exact I|]. split; [reflexivity|]. split; [intros c; discriminate | auto].
  - split; [exists key, baseUrl; repeat split; lia|].
    split; [reflexivity|]. split; [|intros t; discriminate].
    intros c [= <-]. auto.
Qed.

(** One call keeps the cache coherent and hands out a client of the
    current settings. *)
Lemma getGoogleAI_step (construct : ClientConfig -> nat -> option ConstructorFailure)
    (settings : Settings) (cache : ClientCache)
    (o : Outcome Client) (cache' : ClientCache) :
  CacheCoherent cache ->
  getGoogleAI_cached construct settings cache = (o, cache') ->
  CacheCoherent cache'
  /\ (forall c, o = Ok c ->
                exists key, getApiKey settings = Some key
                            /\ client_config c = config_of key (getBaseUrl settings)).
Proof.
  intros Hco. unfold getGoogleAI_cached.
  destruct (getApiKey settings) as [key|].
  2:{ intros [= <- <-]. split; [exact Hco | intros c; discriminate]. }
  destruct (aiInstance cache) as [c0|] eqn:Einst.
  - destruct (settings_changed cache key (getBaseUrl settings)) eqn:Ech.
    + intros H. apply build_client_step in H as (Hco' & _ & Hok & _).
      split; [exact Hco'|]. intros c Hc. exists key. split; [reflexivity|].
      exact (proj1 (Hok c Hc)).
    + intros [= <- <-]. split; [exact Hco|]. intros c [= <-].
      exists key. split; [reflexivity|].
      apply settings_unchanged in Ech as [Hk Hu].
      unfold CacheCoherent in Hco. rewrite Einst in Hco.
      destruct Hco as (key' & url' & Hk' & Hu' & Hcfg & _). congruence.
  - intros H. apply build_client_step in H as (Hco' & _ & Hok & _).
    split; [exact Hco'|]. intros c Hc. exists key. split; [reflexivity|].
    exact (proj1 (Hok c Hc)).
Qed.

(** X18.  However the settings change between calls, and however the
    constructor fails, every client [getGoogleAI] hands out was built from
    the key and the base URL in force at that call: a stale client is
    never returned. *)
Theorem X18_client_matches_settings
    (construct : ClientConfig -> nat -> option ConstructorFailure)
    (calls : list Settings) :
  Forall2
    (fun settings o =>
       forall c, o = Ok c ->
                 exists key, getApiKey settings = Some key
                             /\ client_config c = config_of key (getBaseUrl settings))
    calls (fst (serve construct calls initial_cache)).
Proof.
  assert (CacheCoherent initial_cache) as Hco by exact I.
  revert Hco. generalize initial_cache as cache.
  induction calls as [|settings rest IH]; intros cache Hco; simpl.
  - constructor.
  - destruct (getGoogleAI_cached construct settings cache) as [o cache1] eqn:E1.
    destruct (getGoogleAI_step construct settings cache o cache1 Hco E1) as [Hco1 Hok].
    specialize (IH cache1 Hco1).
    destruct (serve construct rest cache1) as [os cache2]. simpl in *.
    constructor; [exact Hok | exact IH].
Qed.

(** X19.  The client is cached.  After a call that returned a client, a
    call under the same settings returns that same client and does not
    construct anything, whatever the constructor would do.  After a call
    whose construction failed, the cache is empty and the next call
    constructs again, even under the same settings. *)
Theorem X19_client_cached
    (construct : ClientConfig -> nat -> option ConstructorFailure)
    (settings : Settings) (cache cache1 : ClientCache) :
  (forall c,
     getGoogleAI_cached construct settings cache = (Ok c, cache1) ->
     forall construct',
       getGoogleAI_cached construct' settings cache1 = (Ok c, cache1))
  /\ (forall t key,
        getGoogleAI_cached construct settings cache = (Throw t, cache1) ->
        getApiKey settings = Some key ->
        t = ErrorObj ("Failed to initialize AI service: "
                      ++ match construct (config_of key (getBaseUrl settings))
                                 (constructions cache) with
                         | Some failure => failure_text failure
                         | None => EmptyString
                         end)
        /\ aiInstance cache1 = None
        /\ forall construct',
             constructions (snd (getGoogleAI_cached construct' settings cache1))
             = S (constructions cache1)).
Proof.
  split.
  - intros c H construct'. unfold getGoogleAI_cached in *.
    destruct (getApiKey settings) as [key|]; [|discriminate].
    assert (build_client construct cache key (getBaseUrl settings) = (Ok c, cache1) ->
            match aiInstance cache1 with
            | Some c0 =>
                if settings_changed cache1 key (getBaseUrl settings)
                then build_client construct' cache1 key (getBaseUrl settings)
                else (Ok c0, cache1)
            | None => build_client construct' cache1 key (getBaseUrl settings)
            end = (Ok c, cache1)) as Hbuilt.
    { intros Hb. apply build_client_step in Hb as (_ & _ & Hok & _).
      destruct (Hok c eq_refl) as (_ & -> & Hk & Hu).
      rewrite (proj2 (settings_unchanged cache1 key (getBaseUrl settings)) (conj Hk Hu)).
      reflexivity. }
    destruct (aiInstance cache) as [c0|] eqn:Einst; [|exact (Hbuilt H)].
    destruct (settings_changed cache key (getBaseUrl settings)) eqn:Ech;
      [exact (Hbuilt H)|].
    injection H as -> ->. rewrite Einst, Ech. reflexivity.
  - intros t key H Hkey. unfold getGoogleAI_cached in *. rewrite Hkey in *.
    assert (build_client construct cache key (getBaseUrl settings) = (Throw t, cache1) ->
            t = ErrorObj ("Failed to initialize AI service: "
                          ++ match construct (config_of key (getBaseUrl settings))
                                     (constructions cache) with
                             | Some failure => failure_text failure
                             | None => EmptyString
                             end)
            /\ aiInstance cache1 = None
            /\ forall construct',
                 constructions
                   (snd match aiInstance cache1 with
                        | Some c0 =>
                            if settings_changed cache1 key (getBaseUrl settings)
                            then build_client construct' cache1 key (getBaseUrl settings)
                            else (Ok c0, cache1)
                        | None => build_client construct' cache1 key (getBaseUrl settings)
                        end)
                 = S (constructions cache1)) as Hfailed.
    { unfold build_client.
      destruct (construct (config_of key (getBaseUrl settings)) (constructions cache))
        as [failure|]; [|discriminate].
      intros [= <- <-]. simpl. split; [reflexivity|]. split; [reflexivity|].
      intros construct'.
      destruct (construct' _ _); reflexivity. }
    destruct (aiInstance cache) as [c0|] eqn:Einst; [|exact (Hfailed H)].
    destruct (settings_changed cache key (getBaseUrl settings)) eqn:Ech;
      [exact (Hfailed H) | discriminate].
Qed.

Lemma X19_witness :
  (exists t cache1,
     getGoogleAI_cached Fixture.flaky_construct Fixture.padded_settings initial_cache
     = (Throw t, cache1)
     /\ t = ErrorObj "Failed to initialize AI service: endpoint unreachable"
     /\ aiInstance cache1 = None)
  /\ exists c cache2,
       fst (serve Fixture.flaky_construct
              [Fixture.padded_settings; Fixture.padded_settings; Fixture.padded_settings]
              initial_cache)
       = [Throw (ErrorObj "Failed to initialize AI service: endpoint unreachable");
          Ok c; Ok c]
       /\ getGoogleAI_cached Fixture.flaky_construct Fixture.padded_settings cache2
          = (Ok c, cache2).
Proof.
  split.
  - eexists _, _. split; [reflexivity|].
    destruct (proj2 (X19_client_cached Fixture.flaky_construct Fixture.padded_settings
                       initial_cache _) _ " AIza-user-key " eq_refl eq_refl)
      as (Ht & Hinst & _).
    split; [exact Ht | exact Hinst].
  - eexists _, _. split; [reflexivity|].
    apply (proj1 (X19_client_cached Fixture.flaky_construct Fixture.padded_settings
                    {| aiInstance := None; lastUsedApiKey := None;
                       lastUsedBaseUrl := None; constructions := 1 |} _) _ eq_refl).
Defined.

Lemma X18_witness :
  exists c,
    fst (serve Fixture.flaky_construct
           [Fixture.padded_settings; Fixture.padded_settings] initial_cache)
    = [Throw (ErrorObj "Failed to initialize AI service: endpoint unreachable"); Ok c]
    /\ client_config c
       = {| apiKey := " AIza-user-key ";
            apiEndpoint := Some "https://proxy.example/v1" |}.
Proof.
  eexists. split; [reflexivity|].
  pose proof (X18_client_matches_settings Fixture.flaky_construct
                [Fixture.padded_settings; Fixture.padded_settings]) as H.
  destruct (Forall2_lookup_lr _ _ _ 1 _ _ H eq_refl eq_refl _ eq_refl)
    as (key & Hkey & Hcfg).
  vm_compute in Hkey. injection Hkey as <-. exact Hcfg.
Defined.

(** ** Text to image *)

Lemma classified_not_unknown (action m : string) :
  Classified action m -> m <> "Unknown error occurred while generating image.".
Proof.
  intros [-> | [-> | [detail ->]]]; discriminate.
Qed.

Lemma generateImageFromText_throws (host : Host) (engine : Engine)
    (service : ImageService) (prompt ratio : string) (t : Thrown) :
  generateImageFromText host engine service prompt ratio = Throw t ->
  exists m, t = ErrorObj m /\ Classified "generate image" m.
Proof.
  unfold generateImageFromText.
  destruct (generateImageFromText_try engine service prompt ratio) as [url|e];
    [discriminate|].
  intros [= <-]. apply handleApiError_classified.
Qed.

Lemma generateImageFromText_ok (host : Host) (engine : Engine)
    (service : ImageService) (prompt ratio url : string) :
  generateImageFromText host engine service prompt ratio = Ok url <->
  image_client service = None
  /\ exists response first rest img,
       generateImages service prompt ratio = ImagesReturned response
       /\ generatedImages response = Some (first :: rest)
       /\ generated_image first = Some img
       /\ url = "data:image/png;base64," ++ tpl_undefined (imageBytes img).
Proof.
  unfold generateImageFromText, generateImageFromText_try. split.
  - destruct (image_client service); [discriminate|].
    destruct (generateImages service prompt ratio) as [response|]; [|discriminate].
    destruct (generatedImages response) as [[|first rest]|] eqn:Eg;
      [discriminate| |discriminate].
    destruct (generated_image first) as [img|] eqn:Ei; [|discriminate].
    intros [= <-]. split; [reflexivity|].
    exists response, first, rest, img. auto.
  - intros (-> & response & first & rest & img & -> & -> & -> & ->). reflexivity.
Qed.

(** X20.  Text to image.  The call succeeds exactly when the service
    returns at least one entry whose first has an image; the result is
    then [data:image/png;base64,] followed by the bytes of that first
    image, and the decade transform accepts it as a PNG with those bytes
    exactly when the bytes are one line.  Every failure is an [Error]
    whose message is classified under [generate image]; a reply without
    entries fails with the message of the service about no image. *)
Theorem X20_text_to_image (host : Host) (engine : Engine)
    (service : ImageService) (prompt ratio : string) :
  (forall url,
     generateImageFromText host engine service prompt ratio = Ok url <->
     image_client service = None
     /\ exists response first rest img,
          generateImages service prompt ratio = ImagesReturned response
          /\ generatedImages response = Some (first :: rest)
          /\ generated_image first = Some img
          /\ url = "data:image/png;base64," ++ tpl_undefined (imageBytes img))
  /\ (forall url,
        generateImageFromText host engine service prompt ratio = Ok url ->
        exists bytes,
          url = "data:image/png;base64," ++ bytes
          /\ (match_data_url url = Some ("image/png", bytes) <-> OneLine bytes))
  /\ (forall t,
        generateImageFromText host engine service prompt ratio = Throw t ->
        exists m, t = ErrorObj m /\ Classified "generate image" m)
  /\ (forall response,
        image_client service = None ->
        generateImages service prompt ratio = ImagesReturned response ->
        generatedImages response = None \/ generatedImages response = Some [] ->
        generateImageFromText host engine service prompt ratio
        = Throw (ErrorObj (during "generate image" no_generated_image_message))).
Proof.
  split; [|split; [|split]].
  - intros url. apply generateImageFromText_ok.
  - intros url Hok.
    apply generateImageFromText_ok in Hok
      as (_ & response & first & rest & img & _ & _ & _ & ->).
    exists (tpl_undefined (imageBytes img)). split; [reflexivity|].
    rewrite match_data_url_spec. split.
    + intros (w & _ & _ & _ & _ & Hline). exact Hline.
    + intros Hline. exists "png". repeat split; try apply Hline; discriminate.
  - intros t. apply generateImageFromText_throws.
  - intros response Hc Hr Hg.
    unfold generateImageFromText, generateImageFromText_try. rewrite Hc, Hr.
    destruct Hg as [-> | ->]; reflexivity.
Qed.

Lemma X20_witness :
  generateImageFromText Sample.host Fixture.engine Fixture.image_service
    "a lighthouse at dusk" "16:9"
  = Ok "data:image/png;base64,iVBORw0KGgo="
  /\ match_data_url "data:image/png;base64,iVBORw0KGgo="
     = Some ("image/png", "iVBORw0KGgo=")
  /\ generateImageFromText Sample.host Fixture.engine Fixture.empty_image_service
       "a lighthouse at dusk" "16:9"
     = Throw (ErrorObj (during "generate image" no_generated_image_message)).
Proof.
  pose proof (X20_text_to_image Sample.host Fixture.engine Fixture.image_service
                "a lighthouse at dusk" "16:9") as (_ & Hgate & _ & _).
  pose proof (X20_text_to_image Sample.host Fixture.engine Fixture.empty_image_service
                "a lighthouse at dusk" "16:9") as (_ & _ & _ & Hnone).
  split; [reflexivity|]. split.
  - destruct (Hgate "data:image/png;base64,iVBORw0KGgo=" eq_refl)
      as (bytes & Hurl & Hiff).
    injection Hurl as <-. apply Hiff. apply one_line_spec. reflexivity.
  - apply (Hnone {| generatedImages := Some [] |}); [reflexivity | reflexivity |].
    right. reflexivity.
Defined.

(** ** The start screen *)

(** X21.  Generating from the start screen.  With a blank description the
    service is not consulted and the callback is not called: the screen
    shows the request for a description.  Otherwise the description is
    sent as typed and the busy flag is down afterwards.  When the service
    returns an image, its data URL is handed to the callback; no error is
    shown if the callback returns, and if it throws, the message of what it
    threw is shown (the fallback text, when that is no [Error]) although
    the image was delivered.  When the service fails, the callback is not
    called and the error shown is the message classified under
    [generate image].  So the fallback text shows only after the callback
    threw: no failure of the service shows it. *)
Theorem X21_start_screen_generate (host : Host) (engine : Engine)
    (service : ImageService) (onImageGenerated : string -> option Thrown)
    (st : StartState) :
  (BlankText (generationPrompt st) ->
   forall service' callback,
     handleGenerate host engine service' callback st
     = ({| generationPrompt := generationPrompt st; aspectRatio := aspectRatio st;
           isGenerating := isGenerating st;
           generationError := Some "Please enter a description." |}, None))
  /\ (~ BlankText (generationPrompt st) ->
      let '(st', delivered) :=
        handleGenerate host engine service onImageGenerated st in
      isGenerating st' = false
      /\ generationPrompt st' = generationPrompt st
      /\ aspectRatio st' = aspectRatio st
      /\ ((exists url,
             generateImageFromText host engine service
               (generationPrompt st) (aspectRatio st) = Ok url
             /\ delivered = Some url
             /\ generationError st'
                = match onImageGenerated url with
                  | None => None
                  | Some (ErrorObj m) => Some m
                  | Some (NonError _) =>
                      Some "Unknown error occurred while generating image."
                  end)
          \/ (exists m,
                generateImageFromText host engine service
                  (generationPrompt st) (aspectRatio st) = Throw (ErrorObj m)
                /\ delivered = None /\ generationError st' = Some m
                /\ Classified "generate image" m
                /\ m <> "Unknown error occurred while generating image."))
      /\ (generationError st' = Some "Unknown error occurred while generating image." ->
          exists url t, delivered = Some url /\ onImageGenerated url = Some t)).
Proof.
  unfold handleGenerate. split.
  - intros Hb service' callback. apply trim_empty_iff in Hb. rewrite Hb. reflexivity.
  - intros Hnb.
    destruct (String.eqb_spec (trim (generationPrompt st)) EmptyString) as [E|_].
    { apply trim_empty_iff in E. contradiction. }
    destruct (generateImageFromText host engine service
                (generationPrompt st) (aspectRatio st)) as [url|t] eqn:Eg.
    + destruct (onImageGenerated url) as [e|] eqn:Ecb; cbn [isGenerating
        generationPrompt aspectRatio generationError].
      * split; [reflexivity|]. split; [reflexivity|]. split; [reflexivity|]. split.
        -- left. exists url. split; [reflexivity|]. split; [reflexivity|].
           rewrite Ecb. destruct e; reflexivity.
        -- intros _. exists url, e. split; [reflexivity | exact Ecb].
      * split; [reflexivity|]. split; [reflexivity|]. split; [reflexivity|]. split.
        -- left. exists url. split; [reflexivity|]. split; [reflexivity|].
           rewrite Ecb. reflexivity.
        -- discriminate.
    + destruct (generateImageFromText_throws _ _ _ _ _ _ Eg) as (m & -> & Hm).
      pose proof (classified_not_unknown _ _ Hm) as Hne.
      cbn [isGenerating generationPrompt aspectRatio generationError shown_error].
      split; [reflexivity|]. split; [reflexivity|]. split; [reflexivity|]. split.
      * right. exists m. auto.
      * intros [= E]. contradiction.
Qed.

Lemma X21_witness :
  handleGenerate Sample.host Fixture.engine Fixture.image_service (fun _ => None)
    {| generationPrompt := "   "; aspectRatio := "1:1";
       isGenerating := false; generationError := None |}
  = ({| generationPrompt := "   "; aspectRatio := "1:1"; isGenerating := false;
        generationError := Some "Please enter a description." |}, None)
  /\ handleGenerate Sample.host Fixture.engine Fixture.image_service
       (fun _ => Some (NonError None))
       {| generationPrompt := " a lighthouse at dusk"; aspectRatio := "1:1";
          isGenerating := true; generationError := None |}
     = ({| generationPrompt := " a lighthouse at dusk"; aspectRatio := "1:1";
           isGenerating := false;
           generationError := Some "Unknown error occurred while generating image." |},
        Some "data:image/png;base64,iVBORw0KGgo=").
Proof.
  split.
  - apply (proj1 (X21_start_screen_generate Sample.host Fixture.engine
                    Fixture.image_service (fun _ => None)
                    {| generationPrompt := "   "; aspectRatio := "1:1";
                       isGenerating := false; generationError := None |})).
    apply trim_empty_iff. reflexivity.
  - pose proof (proj2 (X21_start_screen_generate Sample.host Fixture.engine
                         Fixture.image_service (fun _ => Some (NonError None))
                         {| generationPrompt := " a lighthouse at dusk";
                            aspectRatio := "1:1";
                            isGenerating := true; generationError := None |})) as H.
    assert (~ BlankText " a lighthouse at dusk") as Hnb.
    { intros Hb. apply trim_empty_iff in Hb. discriminate Hb. }
    specialize (H Hnb).
    destruct (handleGenerate Sample.host Fixture.engine Fixture.image_service _ _)
      as [st' delivered].
    destruct H as (Hbusy & Hprompt & Hratio & [(url & Hurl & -> & Herr) | (m & Hthrow & _)]
                   & _).
    + injection Hurl as <-. destruct st' as [p r b e]. simpl in *.
      rewrite Hbusy, Hprompt, Hratio, Herr. reflexivity.
    + discriminate Hthrow.
Defined.

(** ** Suggestions *)

(** X22.  Suggestions.  When the reply of the model, trimmed, is a JSON
    text of a value other than [null], the call does not fail: its result
    is the member [suggestions] of that value, taken as it is, and it is
    [undefined] when the value has no such member or is no object.  Every
    failure is an [Error] whose message is classified under
    [get inspiration]. *)
Theorem X22_suggestions_unvalidated (host : Host) (engine : Engine)
    (service : TextService) (imageFile : File) (t : SuggestionType) :
  (forall imagePart response_text result,
     text_client service = None ->
     fileToGenerativePart host imageFile = Ok imagePart ->
     generateText service [imagePart; text_part (suggestion_prompt t)]
     = TextReturned (Some response_text) ->
     Json.parse (trim response_text) = Some result ->
     result <> Json.Null ->
     generateCreativeSuggestions host engine service imageFile t
     = Ok (Json.get "suggestions" result)
     /\ ((forall ms, result <> Json.Obj ms) ->
         generateCreativeSuggestions host engine service imageFile t = Ok None))
  /\ (forall e,
        generateCreativeSuggestions host engine service imageFile t = Throw e ->
        exists m, e = ErrorObj m /\ Classified "get inspiration" m).
Proof.
  unfold generateCreativeSuggestions, generateCreativeSuggestions_try. split.
  - intros imagePart response_text result -> -> -> -> Hnn.
    assert (match result with
            | Json.Null => Throw (ErrorObj (type_error engine "suggestions"))
            | _ => Ok (Json.get "suggestions" result)
            end = Ok (Json.get "suggestions" result)) as ->.
    { destruct result; [contradiction | reflexivity..]. }
    split; [reflexivity|].
    intros Hno. destruct result; try reflexivity. destruct (Hno members eq_refl).
  - intros e.
    match goal with
    | |- match ?x with _ => _ end = _ -> _ => destruct x as [v|e0]
    end; [discriminate|].
    intros [= <-]. apply handleApiError_classified.
Qed.

Lemma X22_witness :
  generateCreativeSuggestions Sample.host Fixture.engine Fixture.vague_text_service
    Fixture.photo SuggestFilter
  = Ok None.
Proof.
  refine (proj2 (proj1 (X22_suggestions_unvalidated Sample.host Fixture.engine
                          Fixture.vague_text_service Fixture.photo SuggestFilter)
                   (inline_part "image/png" "PNG") "  []  " (Json.Arr [])
                   eq_refl _ eq_refl _ _) _).
  - vm_compute. reflexivity.
  - vm_compute. reflexivity.
  - discriminate.
  - intros ms. discriminate.
Defined.

(** ** The fusion panel *)

Lemma filled_slots (p : Panel) (f : File) :
  In f (filled [sourceImageFile1 p; sourceImageFile2 p; sourceImageFile3 p])
  <-> exists s, slot_file p s = Some f.
Proof.
  unfold filled. split.
  - destruct (sourceImageFile1 p) as [f1|] eqn:E1,
             (sourceImageFile2 p) as [f2|] eqn:E2,
             (sourceImageFile3 p) as [f3|] eqn:E3; simpl;
      intros H; repeat (destruct H as [<- | H]);
      try contradiction;
      first [ exists Slot1; simpl; congruence
            | exists Slot2; simpl; congruence
            | exists Slot3; simpl; congruence ].
  - intros [[| |] Hs]; simpl in Hs; rewrite Hs;
      destruct (sourceImageFile1 p), (sourceImageFile2 p), (sourceImageFile3 p);
      simpl; auto; try discriminate.
Qed.

Lemma handleApply_files (p : Panel) (files : list File) (prompt : string) :
  handleApply p = Some (files, prompt) ->
  forall f, In f files <-> exists s, slot_file p s = Some f.
Proof.
  unfold handleApply.
  destruct ((0 <? _)%nat && _)%bool; [|discriminate].
  intros [= <- <-] f. apply filled_slots.
Qed.

(** X23.  Applying a fusion.  The panel calls its owner exactly when at
    least one slot holds a file and the prompt is not blank.  It passes the
    files of the filled slots in the order of the slots, one to three of
    them, and the prompt as typed, not trimmed. *)
Theorem X23_apply_fusion (p : Panel) :
  (handleApply p = None
   <-> BlankText (panel_prompt p) \/ forall s, slot_file p s = None)
  /\ (forall files prompt,
        handleApply p = Some (files, prompt) ->
        prompt = panel_prompt p
        /\ ~ BlankText prompt
        /\ (1 <= length files <= 3)%nat
        /\ files = filled [slot_file p Slot1; slot_file p Slot2; slot_file p Slot3]
        /\ forall f, In f files <-> exists s, slot_file p s = Some f).
Proof.
  unfold handleApply.
  set (files := filled [sourceImageFile1 p; sourceImageFile2 p; sourceImageFile3 p]).
  assert (length files <= 3)%nat as Hlen.
  { unfold files, filled.
    destruct (sourceImageFile1 p), (sourceImageFile2 p), (sourceImageFile3 p);
      simpl; lia. }
  assert ((0 <? length files)%nat = false <-> forall s, slot_file p s = None) as Hnone.
  { rewrite Nat.ltb_ge. split.
    - intros H0 s. destruct (slot_file p s) as [f|] eqn:Es; [|reflexivity].
      assert (In f files) as Hin by (apply filled_slots; exists s; exact Es).
      destruct files; [destruct Hin | simpl in H0; lia].
    - intros Hall. unfold files, filled.
      rewrite (Hall Slot1 : sourceImageFile1 p = None),
              (Hall Slot2 : sourceImageFile2 p = None),
              (Hall Slot3 : sourceImageFile3 p = None). simpl. lia. }
  split.
  - destruct (0 <? length files)%nat eqn:E0; simpl.
    + destruct (String.eqb_spec (trim (panel_prompt p)) EmptyString) as [E|Hne]; simpl.
      * split; [intros _; left; apply trim_empty_iff; exact E | reflexivity].
      * split; [discriminate|].
        intros [Hb | Hall].
        -- apply trim_empty_iff in Hb. contradiction.
        -- apply Hnone in Hall. discriminate Hall.
    + split; [|reflexivity]. intros _. right. apply Hnone. reflexivity.
  - intros fs prompt.
    destruct (0 <? length files)%nat eqn:E0; simpl; [|discriminate].
    destruct (String.eqb_spec (trim (panel_prompt p)) EmptyString) as [E|Hne];
      simpl; [discriminate|].
    intros [= <- <-]. apply Nat.ltb_lt in E0.
    split; [reflexivity|].
    split; [intros Hb; apply trim_empty_iff in Hb; contradiction|].
    split; [lia|]. split; [reflexivity|].
    intros f. apply filled_slots.
Qed.

Lemma X23_witness :
  handleApply
    {| sourceImageFile1 := None; sourceImageFile2 := Some Fixture.photo;
       sourceImageFile3 := Some Fixture.strip;
       panel_prompt := " blend them "; reported_error := EmptyString |}
  = Some ([Fixture.photo; Fixture.strip], " blend them ")
  /\ handleApply
       {| sourceImageFile1 := None; sourceImageFile2 := Some Fixture.photo;
          sourceImageFile3 := Some Fixture.strip;
          panel_prompt := "  "; reported_error := EmptyString |}
     = None.
Proof.
  split.
  - destruct (handleApply
                {| sourceImageFile1 := None; sourceImageFile2 := Some Fixture.photo;
                   sourceImageFile3 := Some Fixture.strip;
                   panel_prompt := " blend them "; reported_error := EmptyString |})
      as [[files prompt]|] eqn:E.
    + destruct (proj2 (X23_apply_fusion _) files prompt E) as (-> & _ & _ & -> & _).
      reflexivity.
    + apply (proj1 (X23_apply_fusion _)) in E. simpl in E.
      destruct E as [Hb | Hall].
      * apply trim_empty_iff in Hb. discriminate Hb.
      * discriminate (Hall Slot2).
  - apply (proj1 (X23_apply_fusion _)). left. apply trim_empty_iff. reflexivity.
Defined.

Lemma setFile_slot (s s' : Slot) (f : option File) (p : Panel) :
  slot_file (setFile s f p) s' = f
  \/ slot_file (setFile s f p) s' = slot_file p s'.
Proof. destruct s, s'; simpl; auto. Qed.

Lemma setFile_error (s : Slot) (f : option File) (p : Panel) :
  reported_error (setFile s f p) = reported_error p.
Proof. destruct s; reflexivity. Qed.

Lemma panel_step_within_limit (size : File -> N) (p : Panel) (e : PanelEvent) :
  PanelWithinLimit size p -> PanelWithinLimit size (panel_step size p e).
Proof.
  intros [Hfiles Herr]. destruct e as [s files | s | text]; simpl.
  - unfold handleFileSelect.
    destruct files as [[|selectedFile rest]|]; try (split; assumption).
    destruct (N.ltb_spec MAX_FILE_SIZE_BYTES (size selectedFile)) as [Hbig|Hfit].
    + split; [exact Hfiles | right; reflexivity].
    + split.
      * intros s' f Hs'.
        destruct (setFile_slot s s' (Some selectedFile) (onError EmptyString p))
          as [E|E]; rewrite E in Hs'.
        -- injection Hs' as <-. exact Hfit.
        -- apply (Hfiles s' f). destruct s'; exact Hs'.
      * left. rewrite setFile_error. reflexivity.
  - unfold handleClearImage. split.
    + intros s' f Hs'.
      destruct (setFile_slot s s' None p) as [E|E]; rewrite E in Hs';
        [discriminate | exact (Hfiles s' f Hs')].
    + rewrite setFile_error. exact Herr.
  - split; [|exact Herr]. intros s' f Hs'. apply (Hfiles s' f).
    destruct s'; exact Hs'.
Qed.

(** X24.  Whatever the user selects, clears and types, starting from the
    empty panel, every file the panel passes on for a fusion is at most
    12582912 bytes large, and the only error the panel ever reports is the
    one about the size of a file. *)
Theorem X24_fused_files_within_limit (size : File -> N) (events : list PanelEvent) :
  let p := fold_left (panel_step size) events empty_panel in
  (reported_error p = EmptyString
   \/ reported_error p
      = "Source image file size cannot exceed 12MB. Please select a smaller file.")
  /\ forall files prompt,
       handleApply p = Some (files, prompt) ->
       Forall (fun f => (size f <= 12582912)%N) files.
Proof.
  assert (PanelWithinLimit size (fold_left (panel_step size) events empty_panel))
    as [Hfiles Herr].
  { assert (PanelWithinLimit size empty_panel) as H0.
    { split; [intros [| |] f; discriminate | left; reflexivity]. }
    revert H0. generalize empty_panel as p.
    induction events as [|e events IH]; intros p Hp; simpl; [exact Hp|].
    apply IH. apply panel_step_within_limit. exact Hp. }
  simpl. split; [exact Herr|].
  intros files prompt Happly.
  pose proof (handleApply_files _ files prompt Happly) as Hin.
  apply List.Forall_forall. intros f Hf.
  apply Hin in Hf as [s Hs]. exact (Hfiles s f Hs).
Qed.

Lemma X24_witness :
  handleApply
    (fold_left (panel_step Fixture.reported_size)
       [Selects Slot1 (Some [Fixture.photo]); Selects Slot2 (Some [Fixture.scan]);
        Types "blend them"]
       empty_panel)
  = Some ([Fixture.photo], "blend them")
  /\ Forall (fun f => (Fixture.reported_size f <= 12582912)%N) [Fixture.photo].
Proof.
  split; [reflexivity|].
  apply (proj2 (X24_fused_files_within_limit Fixture.reported_size
                  [Selects Slot1 (Some [Fixture.photo]);
                   Selects Slot2 (Some [Fixture.scan]); Types "blend them"])
           [Fixture.photo] "blend them").
  reflexivity.
Defined.

(** ** An image that cannot be preprocessed *)

(** X25.  The retouch, filter, adjustment, texture, style and background
    removal operations preprocess their image before anything else.  When
    that fails the error is the result as it was raised, without an action
    label and without classification; the client is not asked for and
    nothing is sent, whatever the state of the service. *)
Theorem X25_unreadable_image_unclassified (host : Host) (w : World)
    (op : Operation) (f : File) (t : Thrown) (log : list Request) :
  edited_file op = Some f ->
  fileToGenerativePart host f = Throw t ->
  perform host w op log = (Throw t, log).
Proof.
  intros Hop Hf.
  destruct op; simpl in Hop; try discriminate; injection Hop as ->; simpl;
    unfold generateEditedImage, generateFilteredImage, generateAdjustedImage,
      generateTexturedImage, generateStyledImage, removeBackgroundImage,
      prefixed_with_fallback, bind, await;
    rewrite Hf; reflexivity.
Qed.

Lemma X25_witness :
  perform Fixture.picky_host Fixture.keyless_world
    (Filter {| name := "cat.webp"; type := "image/webp"; naturalWidth := 800;
               naturalHeight := 600; content := "UklGRg==" |} "vintage sepia") []
  = (Throw (ErrorObj "Failed to load image for processing: [object Event]"), []).
Proof.
  apply (X25_unreadable_image_unclassified Fixture.picky_host Fixture.keyless_world
           _ {| name := "cat.webp"; type := "image/webp"; naturalWidth := 800;
                naturalHeight := 600; content := "UklGRg==" |}).
  - reflexivity.
  - reflexivity.
Defined.
